(** * OpenCell microscopy automation: the pipeline-plate acquisition loop

    A shallow embedding of
    - [dragonfly_automation/utils.py] ([parse_hcs_site_label]),
    - [dragonfly_automation/programs/pipeline_plate_program.py]
      ([PipelinePlateProgram]),
    - [dragonfly_automation/tests/mocks/mm2python_mocks.py] (the mocked
      MicroManager objects),
    together with the properties the specification states about them. *)

From Stdlib Require Import ZArith QArith Lia Bool Ascii.
From Stdlib Require Import DecimalString DecimalNat DecimalFacts.
From stdpp Require Import gmap strings list fin_maps.

Local Open Scope Z_scope.

(* stdpp blocks the unfolding of string concatenation; the proofs below
   compute with it on literals. *)
Local Arguments String.append !_ _ / : simpl nomatch.
Local Arguments ascii_dec : simpl never.

(** ** Python strings *)

Module PyStr.

(** [needle in hay] on Python strings. *)
Fixpoint contains (needle hay : string) : bool :=
  String.prefix needle hay ||
  match hay with
  | EmptyString => false
  | String _ rest => contains needle rest
  end.

(** The character classes of the patterns in [utils.py]. *)
Definition in_range (lo hi c : ascii) : bool :=
  (nat_of_ascii lo <=? nat_of_ascii c)%nat && (nat_of_ascii c <=? nat_of_ascii hi)%nat.

Definition is_digit (c : ascii) : bool := in_range "0" "9" c.
Definition is_row (c : ascii) : bool := in_range "A" "H" c.

Fixpoint all_chars (p : ascii -> bool) (s : string) : bool :=
  match s with
  | EmptyString => true
  | String c rest => p c && all_chars p rest
  end.

(** The longest prefix of [s] made of characters in the class [p], with at
    most [n] characters, and what follows it: a greedy [[p]{0,n}]. *)
Fixpoint span_upto (n : nat) (p : ascii -> bool) (s : string) : string * string :=
  match n, s with
  | S n', String c rest =>
      if p c then let '(tk, dr) := span_upto n' p rest in (String c tk, dr)
      else (EmptyString, s)
  | _, _ => (EmptyString, s)
  end.

(** [s] minus the literal prefix [lit], when it has it. *)
Fixpoint strip_prefix (lit s : string) : option string :=
  match lit, s with
  | EmptyString, _ => Some s
  | String a lit', String b s' => if Ascii.eqb a b then strip_prefix lit' s' else None
  | String _ _, EmptyString => None
  end.

(** The number a string of ASCII digits stands for in base ten: what
    [int(s)] returns, when it returns. *)
Definition digit_value (c : ascii) : Z := Z.of_nat (nat_of_ascii c) - 48.

Fixpoint int_acc (acc : Z) (s : string) : Z :=
  match s with
  | EmptyString => acc
  | String c rest => int_acc (10 * acc + digit_value c) rest
  end.

Definition int (s : string) : Z := int_acc 0 s.

(** [sys.get_int_max_str_digits()], as CPython sets it by default. *)
Definition int_max_str_digits : nat := 4300.

(** [c * n] for a character [c]. *)
Fixpoint repeat (c : ascii) (n : nat) : string :=
  match n with
  | O => EmptyString
  | S n' => String c (repeat c n')
  end.

(** ['%d' % n] for a natural number. *)
Definition fmt_d (n : nat) : string := NilEmpty.string_of_uint (Nat.to_uint n).

End PyStr.

(** ** utils.py *)

Inductive pyexn : Type :=
  | IndexError
  | KeyError
  | AttributeError
  | ValueError
  | Py4JJavaError.

Inductive result (A : Type) : Type :=
  | Ret (a : A)
  | Raise (e : pyexn).
Arguments Ret {A} a.
Arguments Raise {A} e.

Definition newline : ascii := ascii_of_nat 10.

(** [re.findall(r'^([A-H][0-9]{1,2})-Site_([0-9]+)$', label)]: the pattern is
    anchored at the start, so there is at most one match; each repetition is
    followed by a character outside its class, so the greedy choice is the
    only one that can succeed; [$] holds at the end of the string and just
    before a newline that ends the string. *)
Definition findall_hcs_site_label (label : string) : list (string * string) :=
  match label with
  | EmptyString => []
  | String row rest =>
      if PyStr.is_row row then
        match PyStr.span_upto 2 PyStr.is_digit rest with
        | (EmptyString, _) => []
        | (cols, rest1) =>
            match PyStr.strip_prefix "-Site_" rest1 with
            | None => []
            | Some rest2 =>
                match PyStr.span_upto (String.length rest2) PyStr.is_digit rest2 with
                | (EmptyString, _) => []
                | (digits, EmptyString) => [(String row cols, digits)]
                | (digits, String c EmptyString) =>
                    if Ascii.eqb c newline then [(String row cols, digits)] else []
                | (_, _) => []
                end
            end
        end
      else []
  end.

(** [int(s)] on a string of ASCII digits: CPython refuses, with ValueError,
    to convert a string of more digits than [sys.get_int_max_str_digits()],
    the leading zeros counted. *)
Definition py_int (s : string) : result Z :=
  if (String.length s <=? PyStr.int_max_str_digits)%nat then Ret (PyStr.int s)
  else Raise ValueError.

(** [parse_hcs_site_label]: [result[0]] raises IndexError on the empty
    list, and [int(site_num)] raises ValueError on too many digits. *)
Definition parse_hcs_site_label (label : string) : result (string * Z) :=
  match findall_hcs_site_label label with
  | [] => Raise IndexError
  | (well_id, site_num) :: _ =>
      match py_int site_num with
      | Ret site_num => Ret (well_id, site_num)
      | Raise e => Raise e
      end
  end.

(** The labels the pattern [^([A-H][0-9]{1,2})-Site_([0-9]+)$] accepts, with
    the text of its two groups: a row letter and one or two digits, the
    literal [-Site_], one or more digits, and then the end of the string
    (for Python's [$], possibly before one final newline). *)
Definition hcs_site_pattern (label well_id site_digits : string) : Prop :=
  exists (row : ascii) (cols eol : string),
    well_id = String row cols /\
    PyStr.is_row row = true /\
    (String.length cols = 1%nat \/ String.length cols = 2%nat) /\
    PyStr.all_chars PyStr.is_digit cols = true /\
    site_digits <> EmptyString /\
    PyStr.all_chars PyStr.is_digit site_digits = true /\
    (eol = EmptyString \/ eol = String newline EmptyString) /\
    label = (well_id +:+ "-Site_" +:+ site_digits +:+ eol).

(** The number that a string of digits stands for, as the decimal numbers
    of the standard library read it. *)
Definition denotes (digits : string) (n : Z) : Prop :=
  ∃ d, NilEmpty.uint_of_string digits = Some d ∧ n = Z.of_nat (Nat.of_uint d).

(** A label with a site number of 4301 digits. *)
Definition long_site_digits : string := PyStr.repeat "1" 4301.

Definition long_site_label : string := "A1-Site_" +:+ long_site_digits.

(** The pattern read with [$] as the end of the string only. *)
Definition hcs_site_pattern_strict (label well_id site_digits : string) : Prop :=
  hcs_site_pattern label well_id site_digits /\
  label = (well_id +:+ "-Site_" +:+ site_digits).

(** ** pipeline_plate_program.py: the new-well test *)

(** [PipelinePlateProgram._is_first_position_in_new_well]. *)
Definition _is_first_position_in_new_well (position_label : string) : bool :=
  PyStr.contains "Site_0" position_label || PyStr.contains "Pos_000_000" position_label.

(** ** Auxiliary predicates on strings *)

(** What stops a greedy repetition: the bound, the end of the string, or a
    character outside the class. *)
Definition stops (p : ascii → bool) (dr : string) : Prop :=
  match dr with
  | EmptyString => True
  | String c _ => p c = false
  end.

(** The characters of a site label other than the letters of [Site]. *)
Definition plain (c : ascii) : bool :=
  PyStr.is_row c || PyStr.is_digit c || Ascii.eqb c "-" || Ascii.eqb c "_" ||
  Ascii.eqb c newline.

(** A site number as ['%d'] writes it: no leading zero, except [0] itself. *)
Definition canonical_digits (d : string) : Prop :=
  d = "0" ∨ String.prefix "0" d = false.

(** ** Python state and exceptions *)

(** A computation over a state [S] that returns or raises; the state
    reached when an exception is raised is kept, as in Python. *)
Definition M (S A : Type) : Type := S → result A * S.

Global Instance M_ret S : MRet (M S) := λ A a s, (Ret a, s).

Global Instance M_bind S : MBind (M S) := λ A B f m s,
  match m s with
  | (Ret a, s') => f a s'
  | (Raise e, s') => (Raise e, s')
  end.

Definition raise {S A} (e : pyexn) : M S A := λ s, (Raise e, s).

(** [wp m Φ s]: the result and the final state of [m] run from [s]
    satisfy [Φ]. *)
Definition wp {S A} (m : M S A) (Φ : result A → S → Prop) (s : S) : Prop :=
  Φ (m s).1 (m s).2.

(** [for x in xs: body(x)] *)
Fixpoint for_each {S A} (xs : list A) (body : A → M S unit) : M S unit :=
  match xs with
  | [] => mret tt
  | x :: xs' => body x ;; for_each xs' body
  end.

(** [enumerate(labels, start)]: the positions with their indices. *)
Fixpoint enumerate_from (start : nat) (labels : list string) : list (nat * string) :=
  match labels with
  | [] => []
  | label :: labels' => (start, label) :: enumerate_from (S start) labels'
  end.

(** ** Values, settings and the calls the program makes *)

Inductive pyval : Type :=
  | VStr (s : string)
  | VInt (z : Z)
  | VFloat (q : Q).

(** A channel-settings dictionary of the settings module, such as
    [settings.CHANNEL_488]. *)
Abbreviation channel := (gmap string pyval).

(** [pipeline_plate_settings.py] *)
Definition DEFAULT_LASER_POWER : pyval := VInt 10.
Definition DEFAULT_CAMERA_GAIN : pyval := VFloat 400.
Definition DEFAULT_EXPOSURE_TIME : pyval := VFloat 50.

Inductive env_name : Type := dev | prod.

(** The datastore [createMultipageTIFFDatastore] returns for a directory. *)
Inductive datastore_ref : Type :=
  | MultipageTIFFDatastore (data_dirpath : string).

Inductive channel_id : Type := C405 | C488.

(** One entry of the log of a run: a call on the microscope or on the
    [operations] module, with what was passed and what came back. *)
Inductive call : Type :=
  | SetPosition                                   (* mm_core.setPosition(PIEZO_STAGE, 0.0) *)
  | GetPosition (position_index : nat) (label : string)
  | GoToPosition (label : string)
  | Autofocus (channel_name laser_name laser_power camera_gain exposure_time : pyval)
  | ConfluencyTest
  | Autoexposure (ch : channel)
  | AcquireStack (which : channel_id) (datastore : option datastore_ref) (ch : channel)
  | Freeze.

Inductive outcome : Type :=
  | Returned
  | ReturnedBool (b : bool)
  | ReturnedExposure (exposure_time laser_power status : pyval)
  | Raised (e : pyexn).

Definition event : Type := call * outcome.

(** ** The microscope and the operations on it *)

(** What the acquisition loop asks of MicroManager ([mm_studio], [mm_core])
    over a state [D] of the instrument. The position list is read once, when
    the run starts ([getPositionList]); [getPosition] is handed the index and
    the label of the position it returns. *)
Class Microscope (D : Type) : Type := {
  getPositionList : D → list string;
  getPosition : nat → string → D → result unit * D;
  goToPosition : string → D → result unit * D;
  setPosition : D → result unit * D;
  freeze : datastore_ref → D → result unit * D;
}.

(** Modelled from the spec: the module [dragonfly_automation.operations]
    ([autofocus], [autoexposure], [acquire_stack]) is not among the sources.
    Its functions act on the instrument and return or raise (sections 4.2,
    4.3 and 6 of the specification); the dictionaries they are handed are
    read, never written (4.3: "it must not mutate the channel's default
    settings, only produce a separate result record"). *)
Class Operations (D : Type) : Type := {
  autofocus : pyval → pyval → pyval → pyval → pyval → D → result unit * D;
  autoexposure : channel → D → result (pyval * pyval * pyval) * D;
  acquire_stack : option datastore_ref → channel → D → result unit * D;
}.

(** ** PipelinePlateProgram *)

(** The attributes of a [PipelinePlateProgram] object;
    [num_fovs_acquired_in_current_well] is [None] as long as the attribute
    has not been assigned. *)
Record program : Type := {
  env : env_name;
  data_dirpath : option string;
  datastore : option datastore_ref;
  num_fovs_acquired_in_current_well : option Z;
}.

(** Everything a run reads or writes: the program object, the dictionaries
    of the settings module, the instrument, and the log of calls. *)
Record world (D : Type) : Type := {
  self : program;
  CHANNEL_405 : channel;
  CHANNEL_488 : channel;
  device : D;
  trace : list event;
}.
Arguments self {D} _.
Arguments CHANNEL_405 {D} _.
Arguments CHANNEL_488 {D} _.
Arguments device {D} _.
Arguments trace {D} _.

Definition log {D} (c : call) (o : outcome) (w : world D) : world D :=
  {| self := self w; CHANNEL_405 := CHANNEL_405 w; CHANNEL_488 := CHANNEL_488 w;
     device := device w; trace := trace w ++ [(c, o)] |}.

Definition with_device {D} (d : D) (w : world D) : world D :=
  {| self := self w; CHANNEL_405 := CHANNEL_405 w; CHANNEL_488 := CHANNEL_488 w;
     device := d; trace := trace w |}.

Definition set_num_fovs {D} (n : Z) : M (world D) unit := λ w,
  (Ret tt,
   {| self := {| env := env (self w); data_dirpath := data_dirpath (self w);
                 datastore := datastore (self w);
                 num_fovs_acquired_in_current_well := Some n |};
      CHANNEL_405 := CHANNEL_405 w; CHANNEL_488 := CHANNEL_488 w;
      device := device w; trace := trace w |}).

(** Reading [self.num_fovs_acquired_in_current_well]. *)
Definition get_num_fovs {D} : M (world D) Z := λ w,
  match num_fovs_acquired_in_current_well (self w) with
  | Some n => (Ret n, w)
  | None => (Raise AttributeError, w)
  end.

(** [settings.CHANNEL_488[key] = v] *)
Definition set_CHANNEL_488 {D} (key : string) (v : pyval) : M (world D) unit := λ w,
  (Ret tt,
   {| self := self w; CHANNEL_405 := CHANNEL_405 w;
      CHANNEL_488 := <[key := v]> (CHANNEL_488 w);
      device := device w; trace := trace w |}).

(** [d[key]] on a dictionary. *)
Definition getitem {S} (d : channel) (key : string) : M S pyval :=
  match d !! key with
  | Some v => mret v
  | None => raise KeyError
  end.

Definition read {D A} (f : world D → A) : M (world D) A := λ w, (Ret (f w), w).

(** A call on the instrument, logged with its outcome. *)
Definition invoke {D A} (c : call) (f : D → result A * D) (o : A → outcome) :
    M (world D) A := λ w,
  match f (device w) with
  | (Ret a, d) => (Ret a, log c (o a) (with_device d w))
  | (Raise e, d) => (Raise e, log c (Raised e) (with_device d w))
  end.

Section PipelinePlateProgram.

Context {D : Type} `{!Microscope D} `{!Operations D}.

(** [settings.MAX_NUM_FOV_PER_WELL], which the settings file among the
    sources does not define. *)
Variable MAX_NUM_FOV_PER_WELL : Z.

(** [self.confluency_test()]; the class itself defines it as
    [return True], see [confluency_test] below. *)
Variable confluency_test_method : D → result bool * D.

(** [PipelinePlateProgram.cleanup] *)
Definition cleanup : M (world D) unit :=
  ds ← read (λ w, datastore (self w));
  match ds with
  | Some ds => invoke Freeze (freeze ds) (λ _, Returned)
  | None => mret tt
  end.

(** The body of the loop of [PipelinePlateProgram.run], for the position
    of index [position_index] and label [label]; [continue] is a return
    from the body. *)
Definition position_step (position : nat * string) : M (world D) unit :=
  let '(position_index, label) := position in
  (* reset the piezo stage *)
  invoke SetPosition setPosition (λ _, Returned);;
  (* move to the next position *)
  invoke (GetPosition position_index label) (getPosition position_index label)
         (λ _, Returned);;
  invoke (GoToPosition label) (goToPosition label) (λ _, Returned);;
  (* check if the position is the first one in a new well *)
  let new_well_flag := _is_first_position_in_new_well label in
  (if new_well_flag then set_num_fovs 0 else mret tt);;
  (* if we have already acquired enough FOVs from the current well *)
  n ← get_num_fovs;
  if MAX_NUM_FOV_PER_WELL <=? n then mret tt else
  (* autofocus *)
  c405 ← read CHANNEL_405;
  channel_name ← getitem c405 "name";
  laser_name ← getitem c405 "laser_name";
  laser_power ← getitem c405 "laser_power";
  invoke (Autofocus channel_name laser_name laser_power
                    DEFAULT_CAMERA_GAIN DEFAULT_EXPOSURE_TIME)
         (autofocus channel_name laser_name laser_power
                    DEFAULT_CAMERA_GAIN DEFAULT_EXPOSURE_TIME)
         (λ _, Returned);;
  (* confluency check *)
  ok ← invoke ConfluencyTest confluency_test_method ReturnedBool;
  if negb ok then mret tt else
  (* auto-exposure (only if this is the first FOV of a new well) *)
  (if new_well_flag then
     c488 ← read CHANNEL_488;
     r ← invoke (Autoexposure c488) (autoexposure c488)
                (λ '(exposure_time, laser_power, status),
                   ReturnedExposure exposure_time laser_power status);
     let '(exposure_time, laser_power, status) := r in
     set_CHANNEL_488 "calculated_laser_power" laser_power;;
     set_CHANNEL_488 "calculated_exposure_time" exposure_time
   else mret tt);;
  (* acquire the stacks using the calculated laser power and exposure time *)
  ds ← read (λ w, datastore (self w));
  c405 ← read CHANNEL_405;
  invoke (AcquireStack C405 ds c405) (acquire_stack ds c405) (λ _, Returned);;
  c488 ← read CHANNEL_488;
  invoke (AcquireStack C488 ds c488) (acquire_stack ds c488) (λ _, Returned).

(** [PipelinePlateProgram.run] *)
Definition run : M (world D) unit :=
  position_list ← read (λ w, getPositionList (device w));
  for_each (enumerate_from 0 position_list) position_step;;
  cleanup.

End PipelinePlateProgram.

(** [PipelinePlateProgram.confluency_test]: [return True]. *)
Definition confluency_test {D} (d : D) : result bool * D := (Ret true, d).

(** [PipelinePlateProgram.__init__], after [gateway_utils.get_gate]: the
    attributes of the new object. [_initialize_datastore] raises ValueError
    without a data directory. *)
Definition __init__ (data_dirpath : option string) (env : env_name) : result program :=
  match env with
  | prod =>
      match data_dirpath with
      | None => Raise ValueError
      | Some dirpath =>
          Ret {| env := prod; data_dirpath := data_dirpath;
                 datastore := Some (MultipageTIFFDatastore dirpath);
                 num_fovs_acquired_in_current_well := None |}
      end
  | dev =>
      Ret {| env := dev; data_dirpath := data_dirpath; datastore := None;
             num_fovs_acquired_in_current_well := None |}
  end.

(** The world in which a new program starts to run. *)
Definition initial_world {D} (p : program) (c405 c488 : channel) (d : D) : world D :=
  {| self := p; CHANNEL_405 := c405; CHANNEL_488 := c488; device := d; trace := [] |}.

(** ** tests/mocks/mm2python_mocks.py *)

Module Mock.

(** The attributes of the mocked [Gate], [MMStudio], [MMCore],
    [PositionList] and [AutofocusPlugin] objects that the calls below read
    or write; [np.random.rand()] draws the next number of [_rand]. *)
Record t : Type := {
  _position_list : list string;
  _position_ind : option nat;
  _afc_always_fail_in_wells : list string;
  _always_fail : bool;
  _num_full_focus_calls : Z;
  _afc_failure_rate : Q;
  _afc_fails_on_first_n_calls : Z;
  _raise_go_to_position_error_once : bool;
  _current_z_position : Q;
  _rand : nat → Q;
  _rand_calls : nat;
}.

(** [all_well_ids]: [itertools.product('ABCDEFGH', range(1, 13))]. *)
Definition rows : list string := ["A"; "B"; "C"; "D"; "E"; "F"; "G"; "H"].

Definition all_well_ids : list string :=
  row ← rows; column ← seq 1 12; [row +:+ PyStr.fmt_d column].

(** [PositionList._construct_position_list] *)
Definition _construct_position_list (num_wells num_sites_per_well : nat) : list string :=
  let well_ids := take num_wells all_well_ids in
  let sites := (λ n, "Site_" +:+ PyStr.fmt_d n) <$> seq 0 num_sites_per_well in
  well_id ← well_ids; (λ site, well_id +:+ "-" +:+ site) <$> sites.

(** The label [_construct_position_list] gives the site of number [n] of
    a well: ['%s-%s' % (well_id, 'Site_%d' % n)]. *)
Definition site_label (well_id : string) (n : nat) : string :=
  well_id +:+ "-" +:+ ("Site_" +:+ PyStr.fmt_d n).

(** A row letter followed by one or two digits. *)
Definition is_well_id (well_id : string) : bool :=
  match well_id with
  | EmptyString => false
  | String row cols =>
      PyStr.is_row row &&
      ((String.length cols =? 1)%nat || (String.length cols =? 2)%nat) &&
      PyStr.all_chars PyStr.is_digit cols
  end.

(** [get_mocked_interface], up to the channel it selects. *)
Definition get_mocked_interface
    (num_wells num_sites_per_well : nat)
    (afc_failure_rate : Q) (afc_fail_on_first_n_calls : Z)
    (afc_always_fail_in_wells : list string)
    (raise_go_to_position_error_once : bool)
    (rand : nat → Q) : t :=
  {| _position_list := _construct_position_list num_wells num_sites_per_well;
     _position_ind := Some 0%nat;
     _afc_always_fail_in_wells := afc_always_fail_in_wells;
     _always_fail := false;
     _num_full_focus_calls := 0;
     _afc_failure_rate := afc_failure_rate;
     _afc_fails_on_first_n_calls := afc_fail_on_first_n_calls;
     _raise_go_to_position_error_once := raise_go_to_position_error_once;
     _current_z_position := 0;
     _rand := rand;
     _rand_calls := 0 |}.

(** [well_id in self._afc_always_fail_in_wells] *)
Definition in_wells (well_id : string) (wells : list string) : bool :=
  bool_decide (well_id ∈ wells).

(** [Gate.set_position_ind]: the index is stored before the label is
    parsed. *)
Definition set_position_ind (position_ind : nat) (position_label : string) (m : t) :
    result unit * t :=
  let m1 :=
    {| _position_list := _position_list m;
       _position_ind := Some position_ind;
       _afc_always_fail_in_wells := _afc_always_fail_in_wells m;
       _always_fail := _always_fail m;
       _num_full_focus_calls := _num_full_focus_calls m;
       _afc_failure_rate := _afc_failure_rate m;
       _afc_fails_on_first_n_calls := _afc_fails_on_first_n_calls m;
       _raise_go_to_position_error_once := _raise_go_to_position_error_once m;
       _current_z_position := _current_z_position m;
       _rand := _rand m;
       _rand_calls := _rand_calls m |} in
  match parse_hcs_site_label position_label with
  | Raise e => (Raise e, m1)
  | Ret (well_id, site_num) =>
      (Ret tt,
       {| _position_list := _position_list m;
          _position_ind := Some position_ind;
          _afc_always_fail_in_wells := _afc_always_fail_in_wells m;
          _always_fail := in_wells well_id (_afc_always_fail_in_wells m);
          _num_full_focus_calls := _num_full_focus_calls m;
          _afc_failure_rate := _afc_failure_rate m;
          _afc_fails_on_first_n_calls := _afc_fails_on_first_n_calls m;
          _raise_go_to_position_error_once := _raise_go_to_position_error_once m;
          _current_z_position := _current_z_position m;
          _rand := _rand m;
          _rand_calls := _rand_calls m |})
  end.

(** [PositionList.getPosition] *)
Definition getPosition (ind : nat) (label : string) (m : t) : result unit * t :=
  set_position_ind ind label m.

(** [Position.goToPosition] *)
Definition goToPosition (label : string) (m : t) : result unit * t :=
  if _raise_go_to_position_error_once m then
    (Raise Py4JJavaError,
     {| _position_list := _position_list m;
        _position_ind := _position_ind m;
        _afc_always_fail_in_wells := _afc_always_fail_in_wells m;
        _always_fail := _always_fail m;
        _num_full_focus_calls := _num_full_focus_calls m;
        _afc_failure_rate := _afc_failure_rate m;
        _afc_fails_on_first_n_calls := _afc_fails_on_first_n_calls m;
        _raise_go_to_position_error_once := false;
        _current_z_position := _current_z_position m;
        _rand := _rand m;
        _rand_calls := _rand_calls m |})
  else (Ret tt, m).

(** [MMCore.setPosition(zdevice, zposition)] *)
Definition setPosition (zposition : Q) (m : t) : result unit * t :=
  (Ret tt,
   {| _position_list := _position_list m;
      _position_ind := _position_ind m;
      _afc_always_fail_in_wells := _afc_always_fail_in_wells m;
      _always_fail := _always_fail m;
      _num_full_focus_calls := _num_full_focus_calls m;
      _afc_failure_rate := _afc_failure_rate m;
      _afc_fails_on_first_n_calls := _afc_fails_on_first_n_calls m;
      _raise_go_to_position_error_once := _raise_go_to_position_error_once m;
      _current_z_position := zposition;
      _rand := _rand m;
      _rand_calls := _rand_calls m |}).

Definition Qltb (a b : Q) : bool := negb (Qle_bool b a).

(** [AutofocusPlugin.fullFocus]; the random number is drawn only when the
    failure rate is positive. *)
Definition fullFocus (m : t) : result unit * t :=
  if _always_fail m then (Raise Py4JJavaError, m)
  else if Qltb 0 (_afc_failure_rate m) then
    let m1 :=
      {| _position_list := _position_list m;
         _position_ind := _position_ind m;
         _afc_always_fail_in_wells := _afc_always_fail_in_wells m;
         _always_fail := _always_fail m;
         _num_full_focus_calls := _num_full_focus_calls m;
         _afc_failure_rate := _afc_failure_rate m;
         _afc_fails_on_first_n_calls := _afc_fails_on_first_n_calls m;
         _raise_go_to_position_error_once := _raise_go_to_position_error_once m;
         _current_z_position := _current_z_position m;
         _rand := _rand m;
         _rand_calls := S (_rand_calls m) |} in
    if Qltb (_rand m (_rand_calls m)) (_afc_failure_rate m) then (Raise Py4JJavaError, m1)
    else if _num_full_focus_calls m1 <? _afc_fails_on_first_n_calls m1 then
      (Raise Py4JJavaError,
       {| _position_list := _position_list m1;
          _position_ind := _position_ind m1;
          _afc_always_fail_in_wells := _afc_always_fail_in_wells m1;
          _always_fail := _always_fail m1;
          _num_full_focus_calls := _num_full_focus_calls m1 + 1;
          _afc_failure_rate := _afc_failure_rate m1;
          _afc_fails_on_first_n_calls := _afc_fails_on_first_n_calls m1;
          _raise_go_to_position_error_once := _raise_go_to_position_error_once m1;
          _current_z_position := _current_z_position m1;
          _rand := _rand m1;
          _rand_calls := _rand_calls m1 |})
    else (Ret tt, m1)
  else if _num_full_focus_calls m <? _afc_fails_on_first_n_calls m then
    (Raise Py4JJavaError,
     {| _position_list := _position_list m;
        _position_ind := _position_ind m;
        _afc_always_fail_in_wells := _afc_always_fail_in_wells m;
        _always_fail := _always_fail m;
        _num_full_focus_calls := _num_full_focus_calls m + 1;
        _afc_failure_rate := _afc_failure_rate m;
        _afc_fails_on_first_n_calls := _afc_fails_on_first_n_calls m;
        _raise_go_to_position_error_once := _raise_go_to_position_error_once m;
        _current_z_position := _current_z_position m;
        _rand := _rand m;
        _rand_calls := _rand_calls m |})
  else (Ret tt, m).

(** The mocked MicroManager as the microscope of the program
    ([BaseMockedPy4jObject] answers every other call, [freeze] included,
    by doing nothing). *)
Global Instance microscope : Microscope t :=
  Build_Microscope t _position_list getPosition goToPosition (setPosition 0)
                   (λ _ m, (Ret tt, m)).

(** How a fault of the autofocus primitive leaves [operations.autofocus]:
    raised to the caller, or caught inside and not reported. The loop of
    [run] reads no return value, so these are the two behaviours it can
    tell apart. *)
Inductive fault_policy : Type := Propagate | Swallow.

(** Modelled from the spec: [operations.autofocus] on the mocked
    instrument "invokes the device's autofocus primitive" (4.2), that is
    [fullFocus]; [operations.autoexposure] "always returns a usable
    exposure/power pair" (7), here the one [exposure] computes;
    [operations.acquire_stack] only makes calls the mock answers by doing
    nothing. *)
Definition autofocus (policy : fault_policy)
    (channel_name laser_name laser_power camera_gain exposure_time : pyval) (m : t) :
    result unit * t :=
  match fullFocus m, policy with
  | (Raise e, m'), Swallow => (Ret tt, m')
  | r, _ => r
  end.

Definition operations (policy : fault_policy)
    (exposure : channel → t → pyval * pyval * pyval) : Operations t :=
  Build_Operations t (autofocus policy)
                   (λ ch m, (Ret (exposure ch m), m))
                   (λ _ _ m, (Ret tt, m)).

End Mock.

(** ** Reading the log of a run *)

Definition is_autofocus (c : call) : bool :=
  match c with Autofocus _ _ _ _ _ => true | _ => false end.

Definition is_confluency_test (c : call) : bool :=
  match c with ConfluencyTest => true | _ => false end.

Definition is_autoexposure (c : call) : bool :=
  match c with Autoexposure _ => true | _ => false end.

Definition is_acquire_stack (which : channel_id) (c : call) : bool :=
  match c, which with
  | AcquireStack C405 _ _, C405 | AcquireStack C488 _ _, C488 => true
  | _, _ => false
  end.

Definition is_freeze (c : call) : bool :=
  match c with Freeze => true | _ => false end.

Definition is_raised (o : outcome) : bool :=
  match o with Raised _ => true | _ => false end.

(** How many calls of a kind a log holds. *)
Fixpoint count_calls (kind : call → bool) (tr : list event) : nat :=
  match tr with
  | [] => 0
  | ev :: tr' => (if kind ev.1 then 1 else 0) + count_calls kind tr'
  end.

(** The labels of the positions the stage was sent to, in order. *)
Definition visited (tr : list event) : list string :=
  omap (λ ev, match ev.1 with GoToPosition label => Some label | _ => None end) tr.

(** What a run may change besides the instrument: the counter is left as it
    was or reset to zero, [CHANNEL_488] changes at its two [calculated_]
    keys at most, and the log grows. *)
Definition frame {D} (w w' : world D) : Prop :=
  env (self w') = env (self w) ∧
  data_dirpath (self w') = data_dirpath (self w) ∧
  datastore (self w') = datastore (self w) ∧
  (num_fovs_acquired_in_current_well (self w') =
     num_fovs_acquired_in_current_well (self w) ∨
   num_fovs_acquired_in_current_well (self w') = Some 0) ∧
  CHANNEL_405 w' = CHANNEL_405 w ∧
  delete "calculated_laser_power" (delete "calculated_exposure_time" (CHANNEL_488 w')) =
  delete "calculated_laser_power" (delete "calculated_exposure_time" (CHANNEL_488 w)) ∧
  ∃ evs, trace w' = trace w ++ evs.

(** ** Runs on the mocked microscope *)

(** The dictionaries [settings.CHANNEL_405] and [settings.CHANNEL_488] are
    not among the sources; these hold the keys [run] reads, with the values
    the channel settings of [pipeline_plate_settings.py] give them. *)
Definition example_CHANNEL_405 : channel :=
  {[ "name" := VStr "EMCCD_Confocal40_DAPI";
     "laser_name" := VStr "Laser 405-Power Setpoint";
     "laser_power" := DEFAULT_LASER_POWER ]}.

Definition example_CHANNEL_488 : channel :=
  {[ "name" := VStr "EMCCD_Confocal40_GFP";
     "laser_name" := VStr "Laser 488-Power Setpoint";
     "laser_power" := DEFAULT_LASER_POWER ]}.

(** An autoexposure result that tells the positions apart: the exposure
    time is 30 plus the index of the position the stage is at. *)
Definition example_exposure (ch : channel) (m : Mock.t) : pyval * pyval * pyval :=
  (VFloat (inject_Z (30 + Z.of_nat (default 0%nat (Mock._position_ind m)))),
   VInt 10, VStr "converged").

(** [PipelinePlateProgram(env=...).run()] on a mocked microscope, with the
    class's own [confluency_test]; a program that cannot be constructed
    runs nothing. *)
Definition mock_run (policy : Mock.fault_policy) (MAX_NUM_FOV_PER_WELL : Z)
    (data_dirpath : option string) (env : env_name) (m : Mock.t) :
    result unit * world Mock.t :=
  let p :=
    match __init__ data_dirpath env with
    | Ret p => p
    | Raise _ => {| env := env; data_dirpath := data_dirpath; datastore := None;
                    num_fovs_acquired_in_current_well := None |}
    end in
  @run _ Mock.microscope (Mock.operations policy example_exposure)
       MAX_NUM_FOV_PER_WELL confluency_test
       (initial_world p example_CHANNEL_405 example_CHANNEL_488 m).

(** The position the stage is at after the calls of a log. *)
Fixpoint current_position (current : option string) (tr : list event) : option string :=
  match tr with
  | [] => current
  | (GoToPosition label, _) :: tr' => current_position (Some label) tr'
  | _ :: tr' => current_position current tr'
  end.

(** What [pick] selects from the entries of a log, each with the label of
    the position the stage was then at. *)
Fixpoint at_positions {A} (pick : event → option A) (current : option string)
    (tr : list event) : list (string * A) :=
  match tr with
  | [] => []
  | (GoToPosition label, _) :: tr' => at_positions pick (Some label) tr'
  | ev :: tr' =>
      match current, pick ev with
      | Some label, Some a => (label, a) :: at_positions pick current tr'
      | _, _ => at_positions pick current tr'
      end
  end.

(** The dictionary an acquisition in channel 488 was handed. *)
Definition acquisition_488 (ev : event) : option channel :=
  match ev.1 with
  | AcquireStack C488 _ ch => Some ch
  | _ => None
  end.

(** The exposure time and laser power an autoexposure returned. *)
Definition exposure_returned (ev : event) : option (pyval * pyval) :=
  match ev with
  | (Autoexposure _, ReturnedExposure exposure_time laser_power _) =>
      Some (exposure_time, laser_power)
  | _ => None
  end.

(** The exposure time and laser power a channel dictionary holds. *)
Definition calculated_values (ch : channel) : option pyval * option pyval :=
  (ch !! "calculated_exposure_time", ch !! "calculated_laser_power").

(** The exposure time and laser power an acquisition in channel 488 was
    made with. *)
Definition exposure_used (ev : event) : option (option pyval * option pyval) :=
  calculated_values <$> acquisition_488 ev.

(** What a stretch of the log holds, wherever the stage was before it: the
    labels it visits, no call of [freeze], [n_autoexposure] calls of the
    autoexposure, the results [returned] of these calls and the values
    [used] by the acquisitions in channel 488, each with the label of its
    position. *)
Definition log_of (evs : list event) (labels : list string) (n_autoexposure : nat)
    (returned : list (string * (pyval * pyval)))
    (used : list (string * (option pyval * option pyval))) : Prop :=
  visited evs = labels ∧
  count_calls is_freeze evs = 0%nat ∧
  count_calls is_autoexposure evs = n_autoexposure ∧
  (∀ current, at_positions exposure_returned current evs = returned) ∧
  (∀ current, at_positions exposure_used current evs = used).

(** ** Runs in which no call raises *)

(** The call [f] returns on every state of the instrument that satisfies
    [I], and leaves a state that satisfies it. *)
Definition returns_keeping {D A} (I : D → Prop) (f : D → result A * D) : Prop :=
  ∀ d, I d → ∃ a d', f d = (Ret a, d') ∧ I d'.

(** On the states that satisfy [I] no call the program makes raises: the
    moves to the positions [labels], the operations, and a confluency test
    that accepts every position. *)
Definition fault_free {D} `{!Microscope D} `{!Operations D} (I : D → Prop)
    (labels : list string) (confluency_test_method : D → result bool * D) : Prop :=
  returns_keeping I setPosition ∧
  (∀ position_index label,
     label ∈ labels → returns_keeping I (getPosition position_index label)) ∧
  (∀ label, label ∈ labels → returns_keeping I (goToPosition label)) ∧
  (∀ channel_name laser_name laser_power camera_gain exposure_time,
     returns_keeping I (autofocus channel_name laser_name laser_power
                                  camera_gain exposure_time)) ∧
  (∀ d, I d → ∃ d', confluency_test_method d = (Ret true, d') ∧ I d') ∧
  (∀ ch, returns_keeping I (autoexposure ch)) ∧
  (∀ ds ch, returns_keeping I (acquire_stack ds ch)) ∧
  (∀ ds, returns_keeping I (freeze ds)).

(** The labels of the positions of one well, as [run] assumes them: the
    first holds a new-well marker and the others do not. *)
Definition is_well (labels : list string) : Prop :=
  match labels with
  | [] => False
  | first :: rest =>
      _is_first_position_in_new_well first = true ∧
      Forall (λ label, _is_first_position_in_new_well label = false) rest
  end.

(** The first position of each well, with the exposure found in the well. *)
Definition first_sites (wells : list (list string)) (exposures : list (pyval * pyval)) :
    list (string * (pyval * pyval)) :=
  zip (omap head wells) exposures.

(** The positions of each well, with the exposure found in the well. *)
Definition plate_sites (wells : list (list string)) (exposures : list (pyval * pyval)) :
    list (string * (option pyval * option pyval)) :=
  wx ← zip wells exposures; (λ label, (label, (Some wx.2.1, Some wx.2.2))) <$> wx.1.

(** The world of a run in which the instrument satisfies [I], the program
    holds the datastore [ds], and [settings.CHANNEL_405] is [c405]. *)
Definition ready {D} (I : D → Prop) (ds : option datastore_ref) (c405 : channel)
    (w : world D) : Prop :=
  I (device w) ∧ datastore (self w) = ds ∧ CHANNEL_405 w = c405.

(** The dictionary holds the keys [run] reads from [settings.CHANNEL_405]. *)
Definition has_autofocus_keys (c405 : channel) : Prop :=
  is_Some (c405 !! "name") ∧ is_Some (c405 !! "laser_name") ∧
  is_Some (c405 !! "laser_power").

(** ** The mocked microscope with no fault due *)

(** No fault is due on the mocked microscope: its autofocus fails in the
    wells [failing_wells] only and the stage is in none of them, the move to
    a position is not set to raise, the failure rate of the autofocus is not
    positive, and the first calls on which it fails are past. *)
Definition mock_idle (failing_wells : list string) (m : Mock.t) : Prop :=
  Mock._afc_always_fail_in_wells m = failing_wells ∧
  Mock._always_fail m = false ∧
  Mock._raise_go_to_position_error_once m = false ∧
  Mock.Qltb 0 (Mock._afc_failure_rate m) = false ∧
  (Mock._num_full_focus_calls m <? Mock._afc_fails_on_first_n_calls m) = false.

(** The label is one of a site of a well that is not among [failing_wells]. *)
Definition outside (failing_wells : list string) (label : string) : Prop :=
  ∃ well_id site_num,
    parse_hcs_site_label label = Ret (well_id, site_num) ∧ well_id ∉ failing_wells.

(** The position list of the mocked microscope, well by well. *)
Definition mock_wells (num_wells num_sites_per_well : nat) : list (list string) :=
  (λ well_id, Mock.site_label well_id <$> seq 0 num_sites_per_well) <$>
    take num_wells Mock.all_well_ids.

(** The operations return on the states of the instrument that satisfy
    [I], and keep [I]. *)
Definition operations_return {D} `{!Operations D} (I : D → Prop) : Prop :=
  (∀ channel_name laser_name laser_power camera_gain exposure_time,
     returns_keeping I (autofocus channel_name laser_name laser_power
                                  camera_gain exposure_time)) ∧
  (∀ ch, returns_keeping I (autoexposure ch)) ∧
  (∀ ds ch, returns_keeping I (acquire_stack ds ch)).

(** The world in which a program made in environment [dev] starts to run on
    the mocked microscope [m]. *)
Definition mock_world (m : Mock.t) : world Mock.t :=
  initial_world
    {| env := dev; data_dirpath := None; datastore := None;
       num_fovs_acquired_in_current_well := None |}
    example_CHANNEL_405 example_CHANNEL_488 m.

(** The end-to-end scenario of the mocked microscope: three wells of two
    sites, no fault injected. *)
Definition three_wells_two_sites : world Mock.t :=
  mock_world (Mock.get_mocked_interface 3 2 0 0 [] false (λ _, 0%Q)).

(** The counter of accepted positions is unassigned, as the constructor
    leaves it, or zero. *)
Definition counter_unused {D} (w : world D) : Prop :=
  num_fovs_acquired_in_current_well (self w) = None ∨
  num_fovs_acquired_in_current_well (self w) = Some 0.

(** How many labels hold a new-well marker. *)
Fixpoint count_marked (labels : list string) : nat :=
  match labels with
  | [] => 0
  | label :: labels' =>
      (if _is_first_position_in_new_well label then 1 else 0) + count_marked labels'
  end.

(** The log holds no call of the autofocus, of the confluency test, of the
    autoexposure or of an acquisition. *)
Definition only_moves (evs : list event) : Prop :=
  count_calls is_autofocus evs = 0%nat ∧
  count_calls is_confluency_test evs = 0%nat ∧
  count_calls is_autoexposure evs = 0%nat ∧
  count_calls (is_acquire_stack C405) evs = 0%nat ∧
  count_calls (is_acquire_stack C488) evs = 0%nat.

(** ** utils.py: [well_id_to_position] *)

(** [re.findall(r'^([A-H])([0-9]{1,2})$', well_id)]: anchored at the start,
    so at most one match; the greedy choice of the digits is the only one
    after which [$] can hold. *)
Definition findall_well_id (well_id : string) : list (string * string) :=
  match well_id with
  | EmptyString => []
  | String row rest =>
      if PyStr.is_row row then
        match PyStr.span_upto 2 PyStr.is_digit rest with
        | (EmptyString, _) => []
        | (col, EmptyString) => [(String row EmptyString, col)]
        | (col, String c EmptyString) =>
            if Ascii.eqb c newline then [(String row EmptyString, col)] else []
        | (_, _) => []
        end
      else []
  end.

(** [l.index(x)] on a list of strings; ValueError when [x] is not in it. *)
Fixpoint list_index (x : string) (l : list string) : option nat :=
  match l with
  | [] => None
  | y :: l' => if String.eqb x y then Some 0%nat else S <$> list_index x l'
  end.

(** [well_id_to_position]: ['A1'] to [(0, 0)], ['H12'] to [(7, 11)]. *)
Definition well_id_to_position (well_id : string) : result (Z * Z) :=
  match findall_well_id well_id with
  | [] => Raise IndexError
  | (row, col) :: _ =>
      match list_index row ["A"; "B"; "C"; "D"; "E"; "F"; "G"; "H"] with
      | None => Raise ValueError
      | Some row_ind => Ret (Z.of_nat row_ind, PyStr.int col - 1)
      end
  end.

(** The well ids the pattern [^([A-H])([0-9]{1,2})$] accepts, with the text
    of its two groups. *)
Definition well_id_pattern (well_id : string) (row : ascii) (col : string) : Prop :=
  ∃ eol,
    PyStr.is_row row = true ∧
    (String.length col = 1%nat ∨ String.length col = 2%nat) ∧
    PyStr.all_chars PyStr.is_digit col = true ∧
    (eol = EmptyString ∨ eol = String newline EmptyString) ∧
    well_id = String row (col +:+ eol).

(** ** utils.py: the FocusDrive positions written into a position list *)

(** An entry of [position_list['POSITIONS']], as the HCS Site Generator
    plugin writes it: its label and the list of its device entries (the
    other keys are not read). *)
Record position_entry : Type := {
  LABEL : string;
  DEVICES : list (gmap string pyval);
}.

(** The entry for the [FocusDrive] device, the motorized z-stage. *)
Definition focus_drive_config (interpolated_position : Q) : gmap string pyval :=
  {[ "X" := VFloat interpolated_position;
     "Y" := VInt 0;
     "Z" := VInt 0;
     "AXES" := VInt 1;
     "DEVICE" := VStr "FocusDrive" ]}.

(** The entry with one more device. *)
Definition with_device_entry (config : gmap string pyval) (p : position_entry) :
    position_entry :=
  {| LABEL := LABEL p; DEVICES := DEVICES p ++ [config] |}.

(** [position_list['POSITIONS'][ind]['DEVICES'].append(config)]; IndexError
    when the list has no entry of index [ind]. *)
Definition append_device (ind : nat) (config : gmap string pyval) :
    M (list position_entry) unit := λ positions,
  match positions !! ind with
  | Some p => (Ret tt, <[ind := with_device_entry config p]> positions)
  | None => (Raise IndexError, positions)
  end.

(** A function that returns or raises, as a computation. *)
Definition lift {S A} (r : result A) : M S A := λ s, (r, s).

Section Interpolate.

(** [interpolator(x, y)[0]], the value of the linear interpolation that
    [scipy.interpolate.interp2d] makes of the measured positions. *)
Variable interpolator : Z → Z → Q.

(** The loop of [interpolate_focusdrive_positions_from_corners] over the
    wells of the region and the positions of each well; the numbers of
    rows, of columns and of positions per well are those of [range]. *)
Definition interpolate_from_corners (num_rows num_cols num_positions_per_well : nat) :
    M (list position_entry) unit :=
  for_each (seq 0 num_rows) (λ row_ind,
    for_each (seq 0 num_cols) (λ col_ind,
      let physical_col_ind :=
        if Nat.even row_ind then ((num_cols - 1) - col_ind)%nat else col_ind in
      let interpolated_position :=
        interpolator (Z.of_nat row_ind) (Z.of_nat physical_col_ind) in
      let focus_drive_config := focus_drive_config interpolated_position in
      for_each (seq 0 num_positions_per_well) (λ pos_ind,
        let ind :=
          (num_positions_per_well * (row_ind * num_cols + col_ind) + pos_ind)%nat in
        append_device ind focus_drive_config))).

(** [enumerate(position_list['POSITIONS'])] *)
Fixpoint enumerate_entries (start : nat) (positions : list position_entry) :
    list (nat * position_entry) :=
  match positions with
  | [] => []
  | p :: positions' => (start, p) :: enumerate_entries (S start) positions'
  end.

(** The loop of [interpolate_focusdrive_positions_from_all] over the
    positions of the list. *)
Definition interpolate_from_all : M (list position_entry) unit := λ positions,
  for_each (enumerate_entries 0 positions) (λ '(ind, pos),
    '(well_id, site_num) ← lift (parse_hcs_site_label (LABEL pos));
    '(x, y) ← lift (well_id_to_position well_id);
    let interpolated_position := interpolator x y in
    append_device ind (focus_drive_config interpolated_position)) positions.

(** The well a position of the list is in, and the column of the well on
    the plate, for a list in the snake-like order of the plugin. *)
Definition well_of (num_positions_per_well ind : nat) : nat := ind / num_positions_per_well.

Definition snake_config (num_cols num_positions_per_well ind : nat) : gmap string pyval :=
  let well := well_of num_positions_per_well ind in
  let row_ind := (well / num_cols)%nat in
  let col_ind := (well mod num_cols)%nat in
  focus_drive_config
    (interpolator (Z.of_nat row_ind)
       (Z.of_nat (if Nat.even row_ind then ((num_cols - 1) - col_ind)%nat else col_ind))).

(** The entry that [interpolate_focusdrive_positions_from_all] makes for
    a label: the position interpolated at the well of the label. *)
Definition label_config (label : string) : option (gmap string pyval) :=
  match parse_hcs_site_label label with
  | Ret (well_id, _) =>
      match well_id_to_position well_id with
      | Ret (x, y) => Some (focus_drive_config (interpolator x y))
      | Raise _ => None
      end
  | Raise _ => None
  end.

Definition with_label_config (p : position_entry) : position_entry :=
  match label_config (LABEL p) with
  | Some config => with_device_entry config p
  | None => p
  end.

End Interpolate.

(** ** utils.py: the path of the interpolated position list *)

(** [s.split('.')[-1]]: what follows the last dot of [s], and [s] itself
    when it has no dot. *)
Fixpoint after_last_dot (s : string) : string :=
  match s with
  | EmptyString => EmptyString
  | String c rest =>
      if PyStr.contains "." rest then after_last_dot rest
      else if Ascii.eqb c "." then rest
      else s
  end.

(** A character that stands for itself in a pattern of [re]: a letter, a
    digit or an underscore. *)
Definition is_word (c : ascii) : bool :=
  PyStr.is_digit c || PyStr.in_range "a" "z" c || PyStr.in_range "A" "Z" c ||
  Ascii.eqb c "_".

(** [re.sub('.%s$' % lit, repl, s)] for a [lit] made of characters that
    stand for themselves: the leftmost place where a character other than a
    newline is followed by [lit] and the end of the string (for Python's
    [$], possibly before one final newline) is replaced by [repl]; after it
    nothing is left that could match. *)
Fixpoint sub_before_end (lit repl s : string) : string :=
  match s with
  | EmptyString => EmptyString
  | String c rest =>
      if negb (Ascii.eqb c newline) && String.eqb rest lit then repl
      else if negb (Ascii.eqb c newline) &&
              String.eqb rest (lit +:+ String newline EmptyString)
      then repl +:+ String newline EmptyString
      else String c (sub_before_end lit repl rest)
  end.

(** [new_filepath] in [interpolate_focusdrive_positions_from_corners]
    ([marker] is [_INTERPOLATED]) and in
    [interpolate_focusdrive_positions_from_all]
    ([_INTERPOLATED-FROM-ALL]), for a path whose extension is made of
    characters that stand for themselves in a pattern: the source puts the
    extension into the pattern as it is, and on another extension the
    pattern means something else. *)
Definition new_filepath (marker position_list_filepath : string) : string :=
  let ext := after_last_dot position_list_filepath in
  sub_before_end ext (marker +:+ "." +:+ ext) position_list_filepath.

(** The calls of a log come in the order of the loop: no acquisition in
    channel 488 without one in channel 405, none of these without a
    confluency test, no confluency test without an autofocus, and no
    autofocus without a move to a position. *)
Definition in_order (evs : list event) : Prop :=
  (count_calls (is_acquire_stack C488) evs ≤ count_calls (is_acquire_stack C405) evs)%nat ∧
  (count_calls (is_acquire_stack C405) evs ≤ count_calls is_confluency_test evs)%nat ∧
  (count_calls is_confluency_test evs ≤ count_calls is_autofocus evs)%nat ∧
  (count_calls is_autofocus evs ≤ length (visited evs))%nat.

(** The results of [n] calls in a row of a call [f] of the instrument. *)
Fixpoint repeated_calls {D A} (f : D → result A * D) (n : nat) (d : D) :
    list (result A) * D :=
  match n with
  | O => ([], d)
  | S n' =>
      let '(r, d') := f d in
      let '(rs, d'') := repeated_calls f n' d' in
      (r :: rs, d'')
  end.

(** ** Invariants of the log *)

(** [CHANNEL_488] after the calls of a log: each autoexposure that returned
    had its laser power and its exposure time written into it. *)
Fixpoint calculated (tr : list event) (c488 : channel) : channel :=
  match tr with
  | [] => c488
  | (Autoexposure _, ReturnedExposure exposure_time laser_power _) :: tr' =>
      calculated tr' (<["calculated_exposure_time" := exposure_time]>
                        (<["calculated_laser_power" := laser_power]> c488))
  | _ :: tr' => calculated tr' c488
  end.

(** No call of the log raised. *)
Definition no_fault (tr : list event) : Prop :=
  Forall (λ ev : event, is_raised ev.2 = false) tr.

(** A log as a computation that returned, or raised [e], leaves it: a call
    that raised is the last entry, and what it raised is [e]. *)
Definition well_logged {A} (r : result A) (tr : list event) : Prop :=
  match r with
  | Ret _ => no_fault tr
  | Raise e => ∃ tr', no_fault tr' ∧ (tr = tr' ∨ ∃ c, tr = tr' ++ [(c, Raised e)])
  end.

(** The stacks of channel 488 in a log were all acquired with the
    dictionary [c488]. *)
Definition acquired_with (c488 : channel) (tr : list event) : Prop :=
  Forall (λ ev : event,
            match ev.1 with
            | AcquireStack C488 _ ch => ch = c488
            | _ => True
            end) tr.

(** The confluency test refused a position of the log. *)
Definition refused (tr : list event) : bool :=
  existsb (λ ev : event,
             match ev with
             | (ConfluencyTest, ReturnedBool false) => true
             | _ => false
             end) tr.

(** What one position adds to the log and to [CHANNEL_488], from the world
    [w] to the world [w']. *)
Definition step_spec {D} (label : string) (w w' : world D) : Prop :=
  ∃ evs,
    trace w' = trace w ++ evs ∧
    evs ≠ [] ∧
    CHANNEL_488 w' = calculated evs (CHANNEL_488 w) ∧
    acquired_with (CHANNEL_488 w') evs ∧
    visited evs ⊆ [label] ∧
    (count_calls is_autoexposure evs ≤ 1)%nat ∧
    (_is_first_position_in_new_well label = false →
     count_calls is_autoexposure evs = 0%nat) ∧
    (refused evs = true →
     count_calls is_autoexposure evs = 0%nat ∧
     count_calls (is_acquire_stack C405) evs = 0%nat ∧
     count_calls (is_acquire_stack C488) evs = 0%nat).


(** Runs of the program in environment [dev] on mocked plates, with a
    per-well maximum of one position. *)
Definition run_one_well_one_site : result unit * world Mock.t :=
  mock_run Mock.Propagate 1 None dev
    (Mock.get_mocked_interface 1 1 0 0 [] false (λ _, 0%Q)).

Definition run_one_well_two_sites : result unit * world Mock.t :=
  mock_run Mock.Propagate 1 None dev
    (Mock.get_mocked_interface 1 2 0 0 [] false (λ _, 0%Q)).

(** [raise_go_to_position_error_once=True] *)
Definition run_go_to_position_error : result unit * world Mock.t :=
  mock_run Mock.Propagate 1 None dev
    (Mock.get_mocked_interface 1 2 0 0 [] true (λ _, 0%Q)).

(** [afc_always_fail_in_wells=['B2']] on fifteen wells of one site, the
    fourteenth being B2. *)
Definition run_always_fail_in_B2 (policy : Mock.fault_policy) :
    result unit * world Mock.t :=
  mock_run policy 1 None dev
    (Mock.get_mocked_interface 15 1 0 0 ["B2"] false (λ _, 0%Q)).

(** A mocked microscope whose [PositionList._position_list] holds the given
    labels, with no fault injected. *)
Definition mock_with_position_list (labels : list string) : Mock.t :=
  {| Mock._position_list := labels;
     Mock._position_ind := Some 0%nat;
     Mock._afc_always_fail_in_wells := [];
     Mock._always_fail := false;
     Mock._num_full_focus_calls := 0;
     Mock._afc_failure_rate := 0;
     Mock._afc_fails_on_first_n_calls := 0;
     Mock._raise_go_to_position_error_once := false;
     Mock._current_z_position := 0;
     Mock._rand := λ _, 0%Q;
     Mock._rand_calls := 0 |}.


(** ** The end-to-end scenario *)

(** The end-to-end scenario, three wells of two sites with no fault
    injected, run by a program made in environment [dev] with the per-well
    maximum [MAX_NUM_FOV_PER_WELL]. *)
Definition run_three_wells_two_sites (MAX_NUM_FOV_PER_WELL : Z) :
    result unit * world Mock.t :=
  mock_run Mock.Propagate MAX_NUM_FOV_PER_WELL None dev
    (Mock.get_mocked_interface 3 2 0 0 [] false (λ _, 0%Q)).

(** A run over one well of two sites, the second with the label
    [A1-Site_01]. *)
Definition run_site_0_then_site_01 : result unit * world Mock.t :=
  mock_run Mock.Propagate 1 None dev
    (mock_with_position_list ["A1-Site_0"; "A1-Site_01"]).

(** The world in which a program made in environment [prod] for the data
    directory [dirpath] starts to run on the mocked microscope [m]. *)
Definition prod_world (dirpath : string) (m : Mock.t) : world Mock.t :=
  initial_world
    {| env := prod; data_dirpath := Some dirpath;
       datastore := Some (MultipageTIFFDatastore dirpath);
       num_fovs_acquired_in_current_well := None |}
    example_CHANNEL_405 example_CHANNEL_488 m.

(** The end-to-end scenario in environment [prod]. *)
Definition three_wells_two_sites_prod : world Mock.t :=
  prod_world "data" (Mock.get_mocked_interface 3 2 0 0 [] false (λ _, 0%Q)).

(** ** The autofocus in the loop of [run] *)

(** The mocked microscope with [wells] as the list of the wells in which
    the autofocus always fails. *)
Definition with_always_fail_in_wells (wells : list string) (m : Mock.t) : Mock.t :=
  {| Mock._position_list := Mock._position_list m;
     Mock._position_ind := Mock._position_ind m;
     Mock._afc_always_fail_in_wells := wells;
     Mock._always_fail := Mock._always_fail m;
     Mock._num_full_focus_calls := Mock._num_full_focus_calls m;
     Mock._afc_failure_rate := Mock._afc_failure_rate m;
     Mock._afc_fails_on_first_n_calls := Mock._afc_fails_on_first_n_calls m;
     Mock._raise_go_to_position_error_once := Mock._raise_go_to_position_error_once m;
     Mock._current_z_position := Mock._current_z_position m;
     Mock._rand := Mock._rand m;
     Mock._rand_calls := Mock._rand_calls m |}.

(** What follows, in the log [tr], a call of the autofocus that is its
    entry of index [i] and has the outcome [o]: nothing when the call
    raised, and the confluency test when it returned. *)
Definition autofocus_followed (tr : list event) (i : nat) (o : outcome) : Prop :=
  match o with
  | Raised _ => length tr = S i
  | _ => ∃ o', tr !! S i = Some (ConfluencyTest, o')
  end.

(** What follows, in the log [tr], a confluency test that is its entry of
    index [i] and accepted the position: the autoexposure, or the
    acquisition in channel 405. *)
Definition accepted_followed (tr : list event) (i : nat) : Prop :=
  ∃ c o, tr !! S i = Some (c, o) ∧ (is_autoexposure c || is_acquire_stack C405 c) = true.

(** No position of the log is skipped after its autofocus: each call of
    the autofocus is followed as above, and so is each confluency test that
    accepted. *)
Definition no_skip (tr : list event) : Prop :=
  (∀ i c o, tr !! i = Some (c, o) → is_autofocus c = true → autofocus_followed tr i o) ∧
  (∀ i, tr !! i = Some (ConfluencyTest, ReturnedBool true) → accepted_followed tr i).

(** What a computation that ended with [r] added to the log, from the
    world [w] to the world [w']. *)
Definition added {D} (r : result unit) (w w' : world D) : Prop :=
  ∃ evs, trace w' = trace w ++ evs ∧ well_logged r evs ∧ no_skip evs.

(** The world in which a program made in environment [dev] starts to run on
    the mocked plate of fifteen wells of one site, the fourteenth being B2,
    with [afc_always_fail_in_wells=['B2']]. *)
Definition always_fail_in_B2 : world Mock.t :=
  mock_world (Mock.get_mocked_interface 15 1 0 0 ["B2"] false (λ _, 0%Q)).


(** * Properties *)

Example parse_A1_0 : parse_hcs_site_label "A1-Site_0" = Ret ("A1", 0).
Proof. reflexivity. Qed.
Example parse_H12_17 : parse_hcs_site_label "H12-Site_17" = Ret ("H12", 17).
Proof. reflexivity. Qed.
Example parse_bad : parse_hcs_site_label "I1-Site_0" = Raise IndexError.
Proof. reflexivity. Qed.
Example first_01 : _is_first_position_in_new_well "A1-Site_01" = true.
Proof. reflexivity. Qed.
Example fmt_12 : PyStr.fmt_d 12 = "12".
Proof. reflexivity. Qed.

(** ** Facts about the string functions *)

Section StringFacts.

Lemma append_empty_r (s : string) : s +:+ "" = s.
Proof. induction s as [|c s IH]; simpl; [done | by f_equal]. Qed.

Lemma append_assoc (a b c : string) : (a +:+ b) +:+ c = a +:+ (b +:+ c).
Proof. induction a as [|x a IH]; simpl; [done | by f_equal]. Qed.

Lemma length_append (a b : string) :
  String.length (a +:+ b) = (String.length a + String.length b)%nat.
Proof. induction a as [|x a IH]; simpl; [done | by f_equal]. Qed.

Lemma span_upto_sound n p s tk dr :
  PyStr.span_upto n p s = (tk, dr) →
  s = tk +:+ dr ∧ PyStr.all_chars p tk = true ∧ (String.length tk <= n)%nat.
Proof.
  revert s tk dr. induction n as [|n IH]; intros s tk dr H.
  - destruct s; simpl in H; inversion H; subst; simpl; auto with lia.
  - destruct s as [|c s]; simpl in H.
    + inversion H; subst; simpl; auto with lia.
    + destruct (p c) eqn:Hc.
      * destruct (PyStr.span_upto n p s) as [tk' dr'] eqn:Hs.
        inversion H; subst. destruct (IH _ _ _ Hs) as (-> & Hall & Hlen).
        simpl. rewrite Hc, Hall. auto with lia.
      * inversion H; subst; simpl; auto with lia.
Qed.


Lemma span_upto_complete n p tk dr :
  PyStr.all_chars p tk = true →
  (String.length tk <= n)%nat →
  String.length tk = n ∨ stops p dr →
  PyStr.span_upto n p (tk +:+ dr) = (tk, dr).
Proof.
  revert n. induction tk as [|c tk IH]; intros n Hall Hlen Hstop; simpl in *.
  - destruct n as [|n]; [by destruct dr |].
    destruct Hstop as [|Hstop]; [lia |].
    destruct dr as [|c dr]; simpl in *; [done | by rewrite Hstop].
  - destruct n as [|n]; [lia |].
    apply andb_true_iff in Hall as [Hc Hall]. simpl. rewrite Hc.
    rewrite (IH n); [done | done | lia |].
    destruct Hstop as [|]; [left; lia | by right].
Qed.

Lemma span_upto_stops n p s tk dr :
  PyStr.span_upto n p s = (tk, dr) →
  (String.length tk < n)%nat → stops p dr.
Proof.
  revert s tk dr. induction n as [|n IH]; intros s tk dr H Hlt; [lia |].
  destruct s as [|c s]; simpl in H.
  - by inversion H.
  - destruct (p c) eqn:Hc.
    + destruct (PyStr.span_upto n p s) as [tk' dr'] eqn:Hs.
      inversion H; subst. simpl in Hlt. eapply IH; [done | lia].
    + inversion H; subst. done.
Qed.

Lemma strip_prefix_sound lit s r :
  PyStr.strip_prefix lit s = Some r → s = lit +:+ r.
Proof.
  revert s. induction lit as [|a lit IH]; intros s H; simpl in H.
  - by inversion H.
  - destruct s as [|b s]; [done |].
    destruct (Ascii.eqb a b) eqn:Hab; [| done].
    apply Ascii.eqb_eq in Hab as ->. simpl. by rewrite (IH _ H).
Qed.

Lemma strip_prefix_complete lit r :
  PyStr.strip_prefix lit (lit +:+ r) = Some r.
Proof.
  induction lit as [|a lit IH]; simpl; [done |].
  by rewrite Ascii.eqb_refl.
Qed.

End StringFacts.

(** ** The value of a string of digits *)

Section Decimal.

Lemma int_acc_of_uint d : ∀ acc,
  PyStr.int_acc (Z.of_nat acc) (NilEmpty.string_of_uint d) =
  Z.of_nat (Nat.of_uint_acc d acc).
Proof.
  induction d; intros acc; simpl; [done | ..];
    rewrite <- IHd; f_equal; rewrite Nat.tail_mul_spec;
    match goal with |- context [PyStr.digit_value ?c] =>
      let v := eval vm_compute in (PyStr.digit_value c) in
      change (PyStr.digit_value c) with v
    end; lia.
Qed.

Lemma digit_read c d :
  PyStr.is_digit c = true → ∃ d', uint_of_char c (Some d) = Some d'.
Proof.
  destruct c as [[] [] [] [] [] [] [] []]; intros H; vm_compute in H;
    first [discriminate H | by eexists].
Qed.

Lemma digits_read s :
  PyStr.all_chars PyStr.is_digit s = true → ∃ d, NilEmpty.uint_of_string s = Some d.
Proof.
  induction s as [|c s IH]; simpl; [by eexists |].
  intros [Hc [d ->]%IH]%andb_true_iff. by apply digit_read.
Qed.

(** [int] gives the number the digits stand for. *)
Lemma int_denotes s :
  PyStr.all_chars PyStr.is_digit s = true → denotes s (PyStr.int s).
Proof.
  intros [d Hd]%digits_read. exists d. split; [done |].
  apply NilEmpty.sus in Hd as <-. apply (int_acc_of_uint d 0).
Qed.

Lemma denotes_unique s n m : denotes s n → denotes s m → n = m.
Proof. intros (d & Hd & ->) (d' & Hd' & ->). congruence. Qed.

End Decimal.

(** ** [parse_hcs_site_label] against its pattern *)

Section ParseLabel.

Lemma findall_sound label well_id digits l :
  findall_hcs_site_label label = (well_id, digits) :: l →
  hcs_site_pattern label well_id digits ∧ l = [].
Proof.
  unfold findall_hcs_site_label.
  destruct label as [|row rest]; [done |].
  destruct (PyStr.is_row row) eqn:Hrow; [| done].
  destruct (PyStr.span_upto 2 PyStr.is_digit rest) as [cols rest1] eqn:Hcols.
  destruct cols as [|c0 cols']; [done |].
  destruct (PyStr.strip_prefix "-Site_" rest1) as [rest2|] eqn:Hlit; [| done].
  destruct (PyStr.span_upto (String.length rest2) PyStr.is_digit rest2)
    as [ds eol] eqn:Hds.
  apply span_upto_sound in Hcols as (-> & Hcall & Hclen).
  apply strip_prefix_sound in Hlit as ->.
  apply span_upto_sound in Hds as (-> & Hdall & _).
  destruct ds as [|d0 ds']; [done |].
  assert (Hcl : String.length (String c0 cols') = 1%nat ∨
                String.length (String c0 cols') = 2%nat).
  { simpl in *. destruct cols' as [|? [|? ?]]; simpl in *; lia. }
  destruct eol as [|c [|? ?]]; [| destruct (Ascii.eqb c newline) eqn:Hc |];
    intros H; inversion H; subst; clear H; split; try done.
  - exists row, (String c0 cols'), EmptyString.
    repeat split; auto.
  - apply Ascii.eqb_eq in Hc as ->.
    exists row, (String c0 cols'), (String newline EmptyString).
    repeat split; auto.
Qed.

Lemma findall_complete label well_id digits :
  hcs_site_pattern label well_id digits →
  findall_hcs_site_label label = [(well_id, digits)].
Proof.
  intros (row & cols & eol & -> & Hrow & Hclen & Hcall & Hne & Hdall & Heol & ->).
  unfold findall_hcs_site_label.
  change (String row cols +:+ ?t) with (String row (cols +:+ t)).
  cbv beta iota. rewrite Hrow.
  rewrite (span_upto_complete 2 PyStr.is_digit cols); [| done | lia |].
  2:{ destruct Hclen as [|]; [right; done | left; done]. }
  destruct cols as [|c0 cols']; [simpl in Hclen; lia |].
  rewrite strip_prefix_complete.
  rewrite (span_upto_complete _ PyStr.is_digit digits eol); [| done | |].
  - destruct digits as [|d0 ds]; [done |].
    destruct Heol as [-> | ->]; [done |].
    by rewrite Ascii.eqb_refl.
  - rewrite length_append. lia.
  - right. by destruct Heol as [-> | ->].
Qed.

(** ** C6 *)

Lemma py_int_short digits :
  (String.length digits ≤ PyStr.int_max_str_digits)%nat →
  py_int digits = Ret (PyStr.int digits).
Proof. intros Hlen%Nat.leb_le. unfold py_int. by rewrite Hlen. Qed.

Lemma py_int_long digits :
  (PyStr.int_max_str_digits < String.length digits)%nat →
  py_int digits = Raise ValueError.
Proof. intros Hlen%Nat.leb_gt. unfold py_int. by rewrite Hlen. Qed.

(** A label that matches the pattern, with a site number of 4301 digits:
    [int] refuses to convert it, and [parse_hcs_site_label] raises
    ValueError instead of returning the well id and the site number. *)
Lemma parse_long_site_number_raises :
  hcs_site_pattern_strict long_site_label "A1" long_site_digits ∧
  String.length long_site_digits = 4301%nat ∧
  parse_hcs_site_label long_site_label = Raise ValueError.
Proof.
  split; [| split; by vm_compute]. split; [| by vm_compute].
  exists "A"%char, "1", "". repeat split; try done; try by vm_compute.
  - by left.
  - by left.
Qed.

(** C6 (as amended). [parse_hcs_site_label] returns the well id and the
    site number exactly for the labels that the pattern
    [^([A-H][0-9]{1,2})-Site_([0-9]+)$] matches with a site number of at
    most 4300 digits, the limit that [int] puts on the strings it
    converts: the two values are the text of the first group and the
    number that the digits of the second stand for. It raises IndexError
    (from [result[0]]) exactly for the labels that the pattern does not
    match, ValueError (from [int]) exactly for those it matches with a
    longer site number, and nothing else. *)
Theorem parse_hcs_site_label_matches_pattern (label : string) :
  (∀ well_id site_num,
      parse_hcs_site_label label = Ret (well_id, site_num) ↔
      ∃ digits, hcs_site_pattern label well_id digits ∧
                (String.length digits ≤ PyStr.int_max_str_digits)%nat ∧
                denotes digits site_num) ∧
  (parse_hcs_site_label label = Raise IndexError ↔
   ¬ ∃ well_id digits, hcs_site_pattern label well_id digits) ∧
  (parse_hcs_site_label label = Raise ValueError ↔
   ∃ well_id digits, hcs_site_pattern label well_id digits ∧
                     (PyStr.int_max_str_digits < String.length digits)%nat) ∧
  (∀ e, parse_hcs_site_label label = Raise e → e = IndexError ∨ e = ValueError).
Proof.
  unfold parse_hcs_site_label.
  destruct (findall_hcs_site_label label) as [|[w d] l] eqn:Hf.
  - assert (Hno : ¬ ∃ well_id digits, hcs_site_pattern label well_id digits).
    { intros (w & d & Hp). apply findall_complete in Hp. congruence. }
    split; [| split; [| split]].
    + intros w n. split; [done |]. intros (d & Hp & _). exfalso. eauto.
    + done.
    + split; [done |]. intros (w & d & Hp & _). exfalso. eauto.
    + intros e [= <-]. by left.
  - destruct (findall_sound _ _ _ _ Hf) as [Hp ->].
    assert (Hd : PyStr.all_chars PyStr.is_digit d = true).
    { by destruct Hp as (row & cols & eol & _ & _ & _ & _ & _ & Hd & _). }
    assert (Hsame : ∀ w' d', hcs_site_pattern label w' d' → w' = w ∧ d' = d).
    { intros w' d' Hp'. apply findall_complete in Hp'. rewrite Hp' in Hf.
      by injection Hf as -> ->. }
    destruct (Nat.le_gt_cases (String.length d) PyStr.int_max_str_digits)
      as [Hlen | Hlen].
    + rewrite (py_int_short d Hlen). split; [| split; [| split]].
      * intros w' n. split.
        -- intros [= <- <-]. exists d. split; [done |]. split; [done |].
           by apply int_denotes.
        -- intros (d' & Hp' & _ & Hn). apply Hsame in Hp' as [-> ->].
           do 2 f_equal. eapply denotes_unique; [by apply int_denotes | done].
      * split; [done |]. intros Hno. exfalso. eauto.
      * split; [done |]. intros (w' & d' & Hp' & Hlen').
        apply Hsame in Hp' as [-> ->]. lia.
      * done.
    + rewrite (py_int_long d Hlen). split; [| split; [| split]].
      * intros w' n. split; [done |].
        intros (d' & Hp' & Hlen' & _). apply Hsame in Hp' as [-> ->]. lia.
      * split; [done |]. intros Hno. exfalso. eauto.
      * split; [eauto | done].
      * intros e [= <-]. by right.
Qed.

End ParseLabel.

(** ** The new-well test on site labels *)

Section FirstPosition.

Lemma all_chars_app p (a b : string) :
  PyStr.all_chars p (a +:+ b) = PyStr.all_chars p a && PyStr.all_chars p b.
Proof.
  induction a as [|c a IH]; simpl; [done |].
  by rewrite IH, andb_assoc.
Qed.

Lemma all_chars_impl (p q : ascii → bool) s :
  (∀ c, p c = true → q c = true) →
  PyStr.all_chars p s = true → PyStr.all_chars q s = true.
Proof.
  intros Hpq. induction s as [|c s IH]; simpl; [done |].
  intros [Hc Hs]%andb_true_iff. rewrite (Hpq _ Hc). by apply IH.
Qed.

(** A needle whose first character is outside the class [p] does not
    start inside a run of [p] characters. *)
Lemma prefix_other p a needle c s :
  p a = false → p c = true → String.prefix (String a needle) (String c s) = false.
Proof.
  intros Ha Hc. simpl. destruct (ascii_dec a c) as [-> |]; [congruence | done].
Qed.

Lemma contains_skip p a needle pre s :
  p a = false → PyStr.all_chars p pre = true →
  PyStr.contains (String a needle) (pre +:+ s) = PyStr.contains (String a needle) s.
Proof.
  intros Ha. induction pre as [|c pre IH]; [done |].
  intros [Hc Hpre]%andb_true_iff.
  change (String c pre +:+ s) with (String c (pre +:+ s)).
  cbn [PyStr.contains]. rewrite (prefix_other p) by done. simpl. by apply IH.
Qed.

Lemma contains_absent p a needle s :
  p a = false → PyStr.all_chars p s = true →
  PyStr.contains (String a needle) s = false.
Proof.
  intros Ha Hs. rewrite <- (append_empty_r s).
  by rewrite (contains_skip p).
Qed.


Lemma row_plain c : PyStr.is_row c = true → plain c = true.
Proof. unfold plain. by intros ->. Qed.

Lemma digit_plain c : PyStr.is_digit c = true → plain c = true.
Proof. unfold plain. intros ->. by rewrite orb_true_r. Qed.

Lemma prefix_zero_app (d eol : string) :
  d ≠ EmptyString → String.prefix "0" (d +:+ eol) = String.prefix "0" d.
Proof.
  destruct d as [|c d]; [done |]. intros _. simpl.
  destruct (ascii_dec "0" c); [| done].
  by destruct d, eol.
Qed.

Lemma contains_site0 label well_id digits :
  hcs_site_pattern label well_id digits →
  PyStr.contains "Site_0" label = String.prefix "0" digits.
Proof.
  intros (row & cols & eol & -> & Hrow & _ & Hcols & Hne & Hds & Heol & ->).
  change (String row cols +:+ ?t) with (String row "" +:+ (cols +:+ t)).
  rewrite (contains_skip plain);
    [| done | by simpl; rewrite (row_plain _ Hrow)].
  rewrite (contains_skip plain);
    [| done | by apply (all_chars_impl PyStr.is_digit), Hcols; apply digit_plain].
  change ("-Site_" +:+ ?t) with (String "-" (String "S" ("ite_" +:+ t))).
  cbn [PyStr.contains]. rewrite (prefix_other plain) by done.
  change (String.prefix "Site_0" (String "S" ("ite_" +:+ ?t)))
    with (String.prefix "0" t).
  rewrite prefix_zero_app by done.
  rewrite (contains_absent (λ c, negb (Ascii.eqb c "S"))); [by rewrite !orb_false_r | done |].
  rewrite !all_chars_app.
  apply andb_true_iff; split; [done | apply andb_true_iff; split].
  - apply (all_chars_impl PyStr.is_digit), Hds.
    intros c Hc. destruct (Ascii.eqb_spec c "S") as [-> |]; done.
  - by destruct Heol as [-> | ->].
Qed.

Lemma contains_pos000 label well_id digits :
  hcs_site_pattern label well_id digits →
  PyStr.contains "Pos_000_000" label = false.
Proof.
  intros (row & cols & eol & -> & Hrow & _ & Hcols & Hne & Hds & Heol & ->).
  apply (contains_absent (λ c, negb (Ascii.eqb c "P"))); [done |].
  change (String row cols +:+ ?t) with (String row "" +:+ (cols +:+ t)).
  rewrite !all_chars_app.
  apply andb_true_iff; split; [| apply andb_true_iff; split;
    [| apply andb_true_iff; split; [| apply andb_true_iff; split]]].
  - simpl. destruct (Ascii.eqb_spec row "P") as [-> |]; done.
  - apply (all_chars_impl PyStr.is_digit), Hcols.
    intros c Hc. destruct (Ascii.eqb_spec c "P") as [-> |]; done.
  - done.
  - apply (all_chars_impl PyStr.is_digit), Hds.
    intros c Hc. destruct (Ascii.eqb_spec c "P") as [-> |]; done.
  - by destruct Heol as [-> | ->].
Qed.

(** The site number of a digit string that starts with a non-zero digit
    is positive. *)
Lemma int_acc_pos acc s :
  0 < acc → PyStr.all_chars PyStr.is_digit s = true → 0 < PyStr.int_acc acc s.
Proof.
  revert acc. induction s as [|c s IH]; intros acc Hacc; simpl; [done |].
  intros [Hc Hs]%andb_true_iff. apply IH; [| done].
  unfold PyStr.is_digit, PyStr.in_range in Hc.
  apply andb_true_iff in Hc as [Hlo _]. apply Nat.leb_le in Hlo.
  unfold PyStr.digit_value. change (nat_of_ascii "0") with 48%nat in Hlo. lia.
Qed.


Lemma canonical_zero d :
  PyStr.all_chars PyStr.is_digit d = true → d ≠ EmptyString → canonical_digits d →
  (String.prefix "0" d = true ↔ PyStr.int d = 0).
Proof.
  intros Hall Hne [-> | Hnz]; [done |].
  rewrite Hnz. split; [done |]. intros Hz. exfalso.
  destruct d as [|c d]; [done |]. simpl in Hnz, Hall.
  apply andb_true_iff in Hall as [Hc Hd].
  change (PyStr.int (String c d))
    with (PyStr.int_acc (10 * 0 + PyStr.digit_value c) d) in Hz.
  assert (0 < PyStr.int_acc (10 * 0 + PyStr.digit_value c) d); [| lia].
  apply int_acc_pos; [| done].
  unfold PyStr.is_digit, PyStr.in_range in Hc.
  apply andb_true_iff in Hc as [Hlo _]. apply Nat.leb_le in Hlo.
  change (nat_of_ascii "0") with 48%nat in Hlo.
  destruct (ascii_dec "0" c) as [<- |Hne0]; [by destruct d |].
  assert (nat_of_ascii c ≠ 48%nat).
  { intros Heq. apply Hne0. rewrite <- (ascii_nat_embedding c), Heq. done. }
  unfold PyStr.digit_value. lia.
Qed.

End FirstPosition.

(** ** The labels of the mocked position list *)

Section MockLabels.

Lemma string_of_uint_digits d :
  PyStr.all_chars PyStr.is_digit (NilEmpty.string_of_uint d) = true.
Proof. induction d; simpl; auto. Qed.

Lemma to_uint_normal n : Decimal.unorm (Nat.to_uint n) = Nat.to_uint n.
Proof. by rewrite <- Unsigned.to_of, Unsigned.of_to. Qed.

Lemma fmt_d_digits n : PyStr.all_chars PyStr.is_digit (PyStr.fmt_d n) = true.
Proof. apply string_of_uint_digits. Qed.

Lemma fmt_d_nonempty n : PyStr.fmt_d n ≠ EmptyString.
Proof.
  unfold PyStr.fmt_d. pose proof (unorm_nonnil (Nat.to_uint n)) as Hne.
  rewrite to_uint_normal in Hne. by destruct (Nat.to_uint n).
Qed.

(** ['%d'] writes a leading zero for the number 0 only. *)
Lemma fmt_d_prefix_zero n : String.prefix "0" (PyStr.fmt_d n) = (n =? 0)%nat.
Proof.
  destruct n as [|n]; [done |]. change (S n =? 0)%nat with false.
  unfold PyStr.fmt_d. pose proof (to_uint_normal (S n)) as Hnorm.
  destruct (Nat.to_uint (S n)) as [|u| | | | | | | | |] eqn:Hu;
    try done.
  exfalso. unfold Decimal.unorm in Hnorm.
    destruct (Decimal.nzhead (Decimal.D0 u)) eqn:Hnz;
    try (by eapply nzhead_nonzero; rewrite Hnz, Hnorm).
  injection Hnorm as <-.
  assert (Hz : Nat.to_uint (S n) = Nat.to_uint 0) by by rewrite Hu.
  by apply Unsigned.to_uint_inj in Hz.
Qed.

Lemma all_well_ids_shape well_id :
  well_id ∈ Mock.all_well_ids → Mock.is_well_id well_id = true.
Proof.
  assert (H : forallb Mock.is_well_id Mock.all_well_ids = true) by by vm_compute.
  rewrite forallb_forall in H. intros Hin. apply H. by apply list_elem_of_In.
Qed.

Lemma site_label_pattern well_id n :
  well_id ∈ Mock.all_well_ids →
  hcs_site_pattern (Mock.site_label well_id n) well_id (PyStr.fmt_d n).
Proof.
  intros Hin%all_well_ids_shape. destruct well_id as [|row cols]; [done |].
  unfold Mock.is_well_id in Hin.
  apply andb_true_iff in Hin as [[Hrow Hlen]%andb_true_iff Hcols].
  exists row, cols, "". repeat split; try done.
  - apply orb_true_iff in Hlen as [?%Nat.eqb_eq | ?%Nat.eqb_eq]; auto.
  - apply fmt_d_nonempty.
  - apply fmt_d_digits.
  - by left.
  - unfold Mock.site_label. by rewrite append_empty_r.
Qed.

(** In the mocked position list the new-well test holds at the site of
    number 0 of each well and at no other. *)
Lemma site_label_first well_id n :
  well_id ∈ Mock.all_well_ids →
  _is_first_position_in_new_well (Mock.site_label well_id n) = (n =? 0)%nat.
Proof.
  intros Hin. unfold _is_first_position_in_new_well.
  rewrite (contains_site0 _ _ _ (site_label_pattern well_id n Hin)).
  rewrite (contains_pos000 _ _ _ (site_label_pattern well_id n Hin)).
  by rewrite orb_false_r, fmt_d_prefix_zero.
Qed.

Lemma construct_position_list_sites num_wells num_sites_per_well :
  Mock._construct_position_list num_wells num_sites_per_well =
  well_id ← take num_wells Mock.all_well_ids;
  Mock.site_label well_id <$> seq 0 num_sites_per_well.
Proof.
  unfold Mock._construct_position_list.
  induction (take num_wells Mock.all_well_ids) as [|well_id wells IH]; [done |].
  rewrite !bind_cons, IH. f_equal. by rewrite <- list_fmap_compose.
Qed.

End MockLabels.

(** ** Reasoning about computations *)

(** [wp m Φ s]: running [m] from [s] ends in a result and a state that
    satisfy [Φ]. *)
Section Wp.

Context {S : Type}.

Lemma wp_ret {A} (a : A) (Φ : result A → S → Prop) s :
  Φ (Ret a) s → wp (mret a) Φ s.
Proof. done. Qed.

Lemma wp_raise {A} e (Φ : result A → S → Prop) s :
  Φ (Raise e) s → wp (raise e) Φ s.
Proof. done. Qed.

Lemma wp_bind {A B} (m : M S A) (f : A → M S B) (Φ : result B → S → Prop) s :
  wp m (λ r s1, match r with
                | Ret a => wp (f a) Φ s1
                | Raise e => Φ (Raise e) s1
                end) s →
  wp (m ≫= f) Φ s.
Proof.
  unfold wp, mbind, M_bind. by destruct (m s) as [[a|e] s1].
Qed.

Lemma wp_mono {A} (m : M S A) (Φ Ψ : result A → S → Prop) s :
  wp m Φ s → (∀ r s1, Φ r s1 → Ψ r s1) → wp m Ψ s.
Proof. unfold wp. auto. Qed.


(** A loop keeps what its body keeps. *)
Lemma wp_for_each {A} (xs : list A) (body : A → M S unit) (I : S → Prop)
    (Φ : result unit → S → Prop) s :
  I s →
  (∀ x s1, I s1 → wp (body x) (λ r s2, match r with
                                        | Ret _ => I s2
                                        | Raise e => Φ (Raise e) s2
                                        end) s1) →
  (∀ s1, I s1 → Φ (Ret tt) s1) →
  wp (for_each xs body) Φ s.
Proof.
  intros Hs Hbody Hend. revert s Hs.
  induction xs as [|x xs IH]; intros s Hs; simpl.
  - by apply wp_ret, Hend.
  - apply wp_bind. eapply wp_mono; [by apply Hbody |].
    intros [[]|e] s1; [apply IH | done].
Qed.

End Wp.

Section WpWorld.

Context {D : Type}.

Lemma wp_read {A} (f : world D → A) (Φ : result A → world D → Prop) w :
  Φ (Ret (f w)) w → wp (read f) Φ w.
Proof. done. Qed.

Lemma wp_invoke {A} c (f : D → result A * D) o (Φ : result A → world D → Prop) w :
  (∀ a d, f (device w) = (Ret a, d) → Φ (Ret a) (log c (o a) (with_device d w))) →
  (∀ e d, f (device w) = (Raise e, d) → Φ (Raise e) (log c (Raised e) (with_device d w))) →
  wp (invoke c f o) Φ w.
Proof.
  intros Hret Hraise. unfold wp, invoke.
  destruct (f (device w)) as [[a|e] d]; simpl; auto.
Qed.

Lemma wp_getitem (d : channel) key (Φ : result pyval → world D → Prop) w :
  (∀ v, d !! key = Some v → Φ (Ret v) w) →
  (d !! key = None → Φ (Raise KeyError) w) →
  wp (getitem d key) Φ w.
Proof.
  intros Hsome Hnone. unfold wp, getitem.
  destruct (d !! key) as [v|]; simpl; auto.
Qed.

Lemma wp_get_num_fovs (Φ : result Z → world D → Prop) w :
  (∀ n, num_fovs_acquired_in_current_well (self w) = Some n → Φ (Ret n) w) →
  (num_fovs_acquired_in_current_well (self w) = None → Φ (Raise AttributeError) w) →
  wp get_num_fovs Φ w.
Proof.
  intros Hsome Hnone. unfold wp, get_num_fovs.
  destruct (num_fovs_acquired_in_current_well (self w)); simpl; auto.
Qed.

Lemma wp_set_num_fovs n (Φ : result unit → world D → Prop) w :
  Φ (Ret tt) (set_num_fovs n w).2 → wp (set_num_fovs n) Φ w.
Proof. done. Qed.

Lemma wp_set_CHANNEL_488 key v (Φ : result unit → world D → Prop) w :
  Φ (Ret tt) (set_CHANNEL_488 key v w).2 → wp (set_CHANNEL_488 key v) Φ w.
Proof. done. Qed.

End WpWorld.

(** One step of symbolic execution of a computation under [wp]. *)
Ltac wp_step :=
  lazymatch goal with
  | |- wp (mbind _ _) _ _ => apply wp_bind
  | |- wp (invoke _ _ _) _ _ => apply wp_invoke; intros
  | |- wp (read _) _ _ => apply wp_read
  | |- wp (mret _) _ _ => apply wp_ret
  | |- wp (raise _) _ _ => apply wp_raise
  | |- wp (getitem _ _) _ _ => apply wp_getitem; intros
  | |- wp get_num_fovs _ _ => apply wp_get_num_fovs; intros
  | |- wp (set_num_fovs _) _ _ => apply wp_set_num_fovs
  | |- wp (set_CHANNEL_488 _ _) _ _ => apply wp_set_CHANNEL_488
  | |- wp (if negb ?b then _ else _) _ _ => destruct b; cbn [negb]
  | |- wp (if ?b then _ else _) _ _ => destruct b eqn:?
  | |- wp (match ?x with _ => _ end) _ _ => destruct x eqn:?
  end; cbv beta iota.

(** ** The loop of [run]: what it leaves alone *)

Section Frame.

Context {D : Type} `{!Microscope D} `{!Operations D}.
Variable MAX_NUM_FOV_PER_WELL : Z.
Variable confluency_test_method : D → result bool * D.

Lemma frame_refl (w : world D) : frame w w.
Proof. repeat split; auto. exists []. by rewrite app_nil_r. Qed.

Lemma frame_trans (w1 w2 w3 : world D) : frame w1 w2 → frame w2 w3 → frame w1 w3.
Proof.
  intros (He & Hp & Hd & Hn & H5 & H8 & evs & Ht)
         (He' & Hp' & Hd' & Hn' & H5' & H8' & evs' & Ht').
  repeat split; try congruence.
  - destruct Hn' as [-> | ->]; auto.
  - exists (evs ++ evs'). by rewrite Ht', Ht, app_assoc.
Qed.

Lemma frame_log c o d (w : world D) : frame w (log c o (with_device d w)).
Proof. repeat split; simpl; eauto. Qed.

Lemma frame_set_num_fovs (w : world D) : frame w (set_num_fovs 0 w).2.
Proof. repeat split; simpl; eauto. exists []. by rewrite app_nil_r. Qed.

Lemma frame_set_CHANNEL_488 key v (w : world D) :
  key = "calculated_laser_power" ∨ key = "calculated_exposure_time" →
  frame w (set_CHANNEL_488 key v w).2.
Proof.
  intros Hkey. repeat split; simpl; eauto.
  - apply map_eq. intros k.
    destruct Hkey as [-> | ->];
      destruct (decide (k = "calculated_laser_power")) as [Hk1|Hk1];
      destruct (decide (k = "calculated_exposure_time")) as [Hk2|Hk2];
      by simplify_map_eq.
  - exists []. by rewrite app_nil_r.
Qed.

(** Closes a goal [frame w0 w'] where [w'] is [w] after some primitive
    actions and [frame w0 w] is known. *)
Ltac frame_tac :=
  repeat lazymatch goal with
  | H : frame ?w0 ?w |- frame ?w0 ?w => exact H
  | |- frame _ (log _ _ (with_device _ _)) =>
      eapply frame_trans; [| apply frame_log]
  | |- frame _ (set_num_fovs 0 _).2 =>
      eapply frame_trans; [| apply frame_set_num_fovs]
  | |- frame _ (set_CHANNEL_488 _ _ _).2 =>
      eapply frame_trans; [| apply frame_set_CHANNEL_488; auto; fail]
  end.

Lemma position_step_frame position (w0 w : world D) :
  frame w0 w →
  wp (position_step MAX_NUM_FOV_PER_WELL confluency_test_method position)
     (λ _ w', frame w0 w') w.
Proof.
  intros Hw. destruct position as [position_index label].
  unfold position_step.
  repeat (wp_step; try (frame_tac; fail)).
Qed.

Lemma cleanup_frame (w0 w : world D) :
  frame w0 w → wp cleanup (λ _ w', frame w0 w') w.
Proof.
  intros Hw. unfold cleanup. repeat (wp_step; try (frame_tac; fail)).
Qed.

Lemma run_frame (w : world D) :
  wp (run MAX_NUM_FOV_PER_WELL confluency_test_method) (λ _ w', frame w w') w.
Proof.
  unfold run. wp_step. wp_step. wp_step.
  apply (wp_for_each _ _ (frame w)); [apply frame_refl | |].
  - intros x s1 Hs1. eapply wp_mono; [by apply position_step_frame |].
    by intros [[]|e] s2.
  - intros s1 Hs1. by apply cleanup_frame.
Qed.

End Frame.

(** ** One position of the loop *)

Section Step.

Context {D : Type} `{!Microscope D} `{!Operations D}.
Variable MAX_NUM_FOV_PER_WELL : Z.
Variable confluency_test_method : D → result bool * D.

Lemma wp_invoke_ret {A} c (f : D → result A * D) o
    (Φ : result A → world D → Prop) w a d :
  f (device w) = (Ret a, d) →
  Φ (Ret a) (log c (o a) (with_device d w)) →
  wp (invoke c f o) Φ w.
Proof. intros Hf HΦ. unfold wp, invoke. by rewrite Hf. Qed.

Lemma wp_invoke_raise {A} c (f : D → result A * D) o
    (Φ : result A → world D → Prop) w e d :
  f (device w) = (Raise e, d) →
  Φ (Raise e) (log c (Raised e) (with_device d w)) →
  wp (invoke c f o) Φ w.
Proof. intros Hf HΦ. unfold wp, invoke. by rewrite Hf. Qed.

Lemma no_fault_snoc tr c o :
  no_fault tr → is_raised o = false → no_fault (tr ++ [(c, o)]).
Proof. intros Htr Ho. apply Forall_app. split; [done | by constructor]. Qed.

(** Closes the goals on an explicit log at the end of a path. *)
Ltac log_tac :=
  simpl;
  repeat lazymatch goal with
  | |- no_fault (_ ++ [_]) => apply no_fault_snoc; [| done]
  | H : no_fault ?tr |- no_fault ?tr => exact H
  | |- ∃ tr', no_fault tr' ∧ (?tr ++ [(_, Raised _)] = tr' ∨ _) =>
      exists tr; split; [| right; eexists; reflexivity]
  | |- ∃ tr', no_fault tr' ∧ (?tr = tr' ∨ _) =>
      exists tr; split; [| left; reflexivity]
  end.

Lemma position_step_well_logged position (w : world D) :
  no_fault (trace w) →
  wp (position_step MAX_NUM_FOV_PER_WELL confluency_test_method position)
     (λ r w', well_logged r (trace w')) w.
Proof.
  intros Hw. destruct position as [position_index label].
  unfold position_step.
  repeat (wp_step; try (unfold well_logged; log_tac; fail)).
Qed.

Lemma cleanup_well_logged (w : world D) :
  no_fault (trace w) → wp cleanup (λ r w', well_logged r (trace w')) w.
Proof.
  intros Hw. unfold cleanup.
  repeat (wp_step; try (unfold well_logged; log_tac; fail)).
Qed.

Lemma run_well_logged (w : world D) :
  no_fault (trace w) →
  wp (run MAX_NUM_FOV_PER_WELL confluency_test_method)
     (λ r w', well_logged r (trace w')) w.
Proof.
  intros Hw. unfold run. wp_step. wp_step. wp_step.
  apply (wp_for_each _ _ (λ w1, no_fault (trace w1))); [done | |].
  - intros x s1 Hs1. eapply wp_mono; [by apply position_step_well_logged |].
    by intros [[]|e] s2.
  - intros s1 Hs1. by apply cleanup_well_logged.
Qed.

(** Closes [step_spec] at the end of a path, where the final world is
    explicit. *)
Ltac spec_tac :=
  unfold step_spec; simpl; rewrite <- ?app_assoc; simpl;
  eexists; split; [try reflexivity; symmetry; apply app_nil_r |];
  repeat split; simpl;
  first [ done | lia | congruence | set_solver | by repeat constructor ].

Lemma position_step_spec position_index label (w : world D) :
  wp (position_step MAX_NUM_FOV_PER_WELL confluency_test_method
                    (position_index, label))
     (λ _ w', step_spec label w w') w.
Proof.
  unfold position_step.
  repeat (wp_step; try (spec_tac; fail)).
Qed.

End Step.

(** ** Several positions *)

Section Loop.

Context {D : Type} `{!Microscope D} `{!Operations D}.
Variable MAX_NUM_FOV_PER_WELL : Z.
Variable confluency_test_method : D → result bool * D.

Local Abbreviation step := (position_step MAX_NUM_FOV_PER_WELL confluency_test_method).

Lemma count_calls_app kind tr1 tr2 :
  count_calls kind (tr1 ++ tr2) = (count_calls kind tr1 + count_calls kind tr2)%nat.
Proof. induction tr1 as [|ev tr1 IH]; simpl; [done | rewrite IH; lia]. Qed.

Lemma calculated_app evs1 evs2 c :
  calculated (evs1 ++ evs2) c = calculated evs2 (calculated evs1 c).
Proof.
  revert c. induction evs1 as [|[c0 o] evs1 IH]; intros c; simpl; [done |].
  destruct c0; try apply IH. destruct o; apply IH.
Qed.




(** Any positions: [CHANNEL_488] holds what the autoexposures of the log
    wrote. *)
Lemma positions_calculated positions : ∀ (w : world D),
  wp (for_each positions step)
     (λ _ w', ∃ evs,
          trace w' = trace w ++ evs ∧
          CHANNEL_488 w' = calculated evs (CHANNEL_488 w)) w.
Proof.
  induction positions as [|[position_index label] positions IH]; intros w; simpl.
  - apply wp_ret. exists []. by rewrite app_nil_r.
  - apply wp_bind. eapply wp_mono; [apply position_step_spec |].
    intros r w1 (evs & Ht & _ & Hc & _).
    destruct r as [[]|e]; [| by eauto].
    eapply wp_mono; [by apply IH |].
    intros r' w2 (evs' & Ht' & Hc').
    exists (evs ++ evs'). by rewrite Ht', Ht, app_assoc, calculated_app, Hc', Hc.
Qed.

End Loop.

(** ** Faults and refusals in the log *)

Section Faults.

Lemma no_fault_not_raised tr c e : no_fault tr → (c, Raised e) ∉ tr.
Proof.
intros Htr Hin. unfold no_fault in Htr. rewrite Forall_forall in Htr.
by specialize (Htr _ Hin).
Qed.

(** In a log left by a computation, a call that raised is the last call,
    and what it raised is what the computation raised. *)
Lemma well_logged_raised {A} (r : result A) tr c e :
  well_logged r tr → (c, Raised e) ∈ tr →
  r = Raise e ∧ last tr = Some (c, Raised e).
Proof.
destruct r as [a|e0]; simpl.
- intros Htr Hin. by destruct (no_fault_not_raised _ _ _ Htr Hin).
- intros (tr' & Htr' & [-> | [c0 ->]]) Hin.
  + by destruct (no_fault_not_raised _ _ _ Htr' Hin).
  + apply elem_of_app in Hin as [Hin | Hin].
    * by destruct (no_fault_not_raised _ _ _ Htr' Hin).
    * apply list_elem_of_singleton in Hin. injection Hin as -> ->.
      by rewrite last_snoc.
Qed.


End Faults.

(** * The claims of the specification *)

(** ** C5 *)

(** The label [A1-Site_01] matches the well-site pattern and has site
    number 1, and the new-well test flags it all the same. *)
Lemma first_position_flags_site_01 :
  hcs_site_pattern_strict "A1-Site_01" "A1" "01" ∧
  parse_hcs_site_label "A1-Site_01" = Ret ("A1", 1) ∧
  PyStr.int "01" ≠ 0 ∧
  _is_first_position_in_new_well "A1-Site_01" = true.
Proof.
  repeat split; try done.
  exists "A"%char, "1", "". repeat split; auto.
Qed.

(** C5 (as amended). The new-well test is true exactly when the label
    contains [Site_0] or contains [Pos_000_000] (either marker, as
    alternatives). On a label that matches the well-site pattern it is true
    exactly when the digits of the site number start with [0]; so it flags
    exactly the site number 0 among the labels whose site number is written
    without leading zeros, as ['%d'] writes it. *)
Theorem first_position_flag_on_site_labels (label : string) :
  (_is_first_position_in_new_well label = true ↔
   PyStr.contains "Site_0" label = true ∨ PyStr.contains "Pos_000_000" label = true) ∧
  ∀ well_id digits,
    hcs_site_pattern label well_id digits →
    (_is_first_position_in_new_well label = true ↔ String.prefix "0" digits = true) ∧
    (canonical_digits digits →
     (_is_first_position_in_new_well label = true ↔ PyStr.int digits = 0)).
Proof.
  split; [apply orb_true_iff |].
  intros well_id digits Hp. unfold _is_first_position_in_new_well.
  rewrite (contains_site0 _ _ _ Hp), (contains_pos000 _ _ _ Hp), orb_false_r.
  split; [done |]. intros Hc.
  destruct Hp as (row & cols & eol & _ & _ & _ & _ & Hne & Hall & _ & _).
  by apply canonical_zero.
Qed.

Lemma first_position_flag_on_site_labels_witness :
  hcs_site_pattern "B7-Site_10" "B7" "10" ∧
  canonical_digits "10" ∧
  (_is_first_position_in_new_well "B7-Site_10" = true ↔ PyStr.int "10" = 0).
Proof.
  assert (Hp : hcs_site_pattern "B7-Site_10" "B7" "10").
  { exists "B"%char, "7", "". repeat split; auto. }
  assert (Hc : canonical_digits "10") by (by right).
  split; [exact Hp | split; [exact Hc |]].
  exact (proj2 (proj2 (first_position_flag_on_site_labels "B7-Site_10") "B7" "10" Hp) Hc).
Defined.

(** ** C7 *)

(** After a run over one position, [settings.CHANNEL_488] is no longer the
    dictionary it was: the exposure time the autoexposure returned has been
    written into it. *)
Lemma run_writes_into_CHANNEL_488 :
  run_one_well_one_site.1 = Ret tt ∧
  example_CHANNEL_488 !! "calculated_exposure_time" = None ∧
  CHANNEL_488 run_one_well_one_site.2 !! "calculated_exposure_time" =
    Some (VFloat (inject_Z 30)) ∧
  CHANNEL_488 run_one_well_one_site.2 ≠ example_CHANNEL_488.
Proof.
  split; [vm_compute; reflexivity |].
  split; [vm_compute; reflexivity |].
  split; [vm_compute; reflexivity |].
  intros Heq.
  apply (f_equal (λ c : channel, c !! "calculated_exposure_time")) in Heq.
  vm_compute in Heq. discriminate.
Qed.

(** C7 (as amended). A run leaves [settings.CHANNEL_405] as it was, and
    changes [settings.CHANNEL_488] at two keys at most,
    [calculated_laser_power] and [calculated_exposure_time]: what the
    autoexposure computes is written into the channel dictionary itself,
    under keys of their own, and every other entry (name, laser name,
    default laser power, ...) keeps its value. The [operations] the run
    calls are taken not to write into the dictionaries they are handed. *)
Theorem run_changes_only_calculated_keys
    {D : Type} `{!Microscope D} `{!Operations D}
    (MAX_NUM_FOV_PER_WELL : Z) (confluency_test_method : D → result bool * D)
    (w : world D) :
  let w' := (run MAX_NUM_FOV_PER_WELL confluency_test_method w).2 in
  CHANNEL_405 w' = CHANNEL_405 w ∧
  delete "calculated_laser_power" (delete "calculated_exposure_time" (CHANNEL_488 w')) =
  delete "calculated_laser_power" (delete "calculated_exposure_time" (CHANNEL_488 w)) ∧
  ∃ evs, trace w' = trace w ++ evs ∧ CHANNEL_488 w' = calculated evs (CHANNEL_488 w).
Proof.
  intros w'.
  destruct (run_frame MAX_NUM_FOV_PER_WELL confluency_test_method w)
    as (_ & _ & _ & _ & H405 & H488 & _).
  split; [exact H405 | split; [exact H488 |]].
  subst w'. unfold run.
  change (wp (position_list ← read (λ w0 : world D, getPositionList (device w0));
              for_each (enumerate_from 0 position_list)
                (position_step MAX_NUM_FOV_PER_WELL confluency_test_method);;
              cleanup)
            (λ _ w', ∃ evs, trace w' = trace w ++ evs ∧
                            CHANNEL_488 w' = calculated evs (CHANNEL_488 w)) w).
  wp_step. wp_step. wp_step.
  eapply wp_mono; [apply positions_calculated |].
  intros r w1 (evs & Ht & Hc). destruct r as [[]|e]; [| by exists evs].
  unfold cleanup. repeat wp_step; simpl; [| | by exists evs].
  all: rewrite Ht, <- app_assoc; eexists; split; [reflexivity |].
  all: by rewrite calculated_app.
Qed.

(** ** C1 *)

(** C1 (the code on a well of two sites with a maximum of one). The run
    returns after acquiring the stacks of both positions of well A1, one
    more than the maximum, and the counter of accepted positions is still
    zero: [run] resets it at the first site of a well and never adds to
    it. *)
Theorem run_exceeds_per_well_maximum :
  run_one_well_two_sites.1 = Ret tt ∧
  (at_positions acquisition_488 None (trace run_one_well_two_sites.2)).*1 =
    ["A1-Site_0"; "A1-Site_1"] ∧
  count_calls is_autofocus (trace run_one_well_two_sites.2) = 2%nat ∧
  num_fovs_acquired_in_current_well (self run_one_well_two_sites.2) = Some 0.
Proof. repeat split; vm_compute; reflexivity. Qed.

(** ** C2 *)

(** With [raise_go_to_position_error_once] the move to the first position
    raises; the run raises with it and the second position is never
    visited. *)
Lemma go_to_position_fault_propagates :
  getPositionList (device (initial_world
    {| env := dev; data_dirpath := None; datastore := None;
       num_fovs_acquired_in_current_well := None |}
    example_CHANNEL_405 example_CHANNEL_488
    (Mock.get_mocked_interface 1 2 0 0 [] true (λ _, 0%Q)))) =
    ["A1-Site_0"; "A1-Site_1"] ∧
  run_go_to_position_error.1 = Raise Py4JJavaError ∧
  visited (trace run_go_to_position_error.2) = ["A1-Site_0"] ∧
  last (trace run_go_to_position_error.2) =
    Some (GoToPosition "A1-Site_0", Raised Py4JJavaError).
Proof. repeat split; vm_compute; reflexivity. Qed.

(** C2 (as amended). Nothing in [run] catches a fault: when a call of the
    loop raises (the stage move and the autofocus among them) the run ends
    there. It raises what the call raised, and the call is the last entry of
    its log, so that no later position is visited and [cleanup] is not run;
    the counter of accepted positions is as it was, or zero. *)
Theorem fault_ends_run
    {D : Type} `{!Microscope D} `{!Operations D}
    (MAX_NUM_FOV_PER_WELL : Z) (confluency_test_method : D → result bool * D)
    (w : world D) :
  no_fault (trace w) →
  frame w (run MAX_NUM_FOV_PER_WELL confluency_test_method w).2 ∧
  ∀ c e,
    (c, Raised e) ∈ trace (run MAX_NUM_FOV_PER_WELL confluency_test_method w).2 →
    (run MAX_NUM_FOV_PER_WELL confluency_test_method w).1 = Raise e ∧
    last (trace (run MAX_NUM_FOV_PER_WELL confluency_test_method w).2) =
      Some (c, Raised e).
Proof.
intros Hw. split; [apply run_frame |].
intros c e Hin.
exact (well_logged_raised _ _ _ _
         (run_well_logged MAX_NUM_FOV_PER_WELL confluency_test_method w Hw) Hin).
Qed.

Lemma fault_ends_run_witness :
  run_go_to_position_error.1 = Raise Py4JJavaError ∧
  last (trace run_go_to_position_error.2) =
    Some (GoToPosition "A1-Site_0", Raised Py4JJavaError).
Proof.
refine (proj2 (fault_ends_run (D := Mock.t) (Microscope0 := Mock.microscope)
                 (Operations0 := Mock.operations Mock.Propagate example_exposure)
                 1 confluency_test _ _)
              (GoToPosition "A1-Site_0") Py4JJavaError _).
- constructor.
- apply list_elem_of_lookup. exists 2%nat. vm_compute. reflexivity.
Defined.

(** ** C9 *)

(** C9. On a position list whose first label holds neither marker, a
    program as the constructor leaves it (its counter of accepted positions
    unassigned) raises AttributeError when [run] reads the counter for the
    first position: the log holds the three calls of the move to that
    position and nothing else. The calls of the move are taken to return. *)
Theorem run_unmarked_first_label_raises
    {D : Type} `{!Microscope D} `{!Operations D}
    (MAX_NUM_FOV_PER_WELL : Z) (confluency_test_method : D → result bool * D)
    (w : world D) (data_dirpath : option string) (env : env_name)
    (label : string) (rest : list string) (d1 d2 d3 : D) :
  __init__ data_dirpath env = Ret (self w) →
  getPositionList (device w) = label :: rest →
  PyStr.contains "Site_0" label = false →
  PyStr.contains "Pos_000_000" label = false →
  setPosition (device w) = (Ret tt, d1) →
  getPosition 0 label d1 = (Ret tt, d2) →
  goToPosition label d2 = (Ret tt, d3) →
  num_fovs_acquired_in_current_well (self w) = None ∧
  (run MAX_NUM_FOV_PER_WELL confluency_test_method w).1 = Raise AttributeError ∧
  trace (run MAX_NUM_FOV_PER_WELL confluency_test_method w).2 =
    trace w ++ [(SetPosition, Returned); (GetPosition 0 label, Returned);
                (GoToPosition label, Returned)].
Proof.
intros Hinit Hlist Hsite Hpos Hset Hget Hgo.
assert (Hnone : num_fovs_acquired_in_current_well (self w) = None).
{ unfold __init__ in Hinit.
  destruct env, data_dirpath; try discriminate; by injection Hinit as <-. }
split; [exact Hnone |].
change (wp (run MAX_NUM_FOV_PER_WELL confluency_test_method)
           (λ r w', r = Raise AttributeError ∧
                    trace w' = trace w ++ [(SetPosition, Returned);
                                           (GetPosition 0 label, Returned);
                                           (GoToPosition label, Returned)]) w).
unfold run. wp_step. wp_step. wp_step. rewrite Hlist. simpl.
wp_step. unfold position_step.
wp_step. eapply wp_invoke_ret; [exact Hset |].
wp_step. eapply wp_invoke_ret; [exact Hget |].
wp_step. eapply wp_invoke_ret; [exact Hgo |].
unfold _is_first_position_in_new_well. rewrite Hsite, Hpos. simpl.
wp_step. wp_step. wp_step.
apply wp_get_num_fovs; simpl; intros Hn; [congruence |].
split; [done |]. by rewrite <- !app_assoc.
Qed.

Lemma run_unmarked_first_label_raises_witness :
  (mock_run Mock.Propagate 1 None dev
     (mock_with_position_list ["A1-Site_1"; "A1-Site_2"])).1 =
  Raise AttributeError.
Proof.
refine (proj1 (proj2 (run_unmarked_first_label_raises
  (D := Mock.t) (Microscope0 := Mock.microscope)
  (Operations0 := Mock.operations Mock.Propagate example_exposure)
  1 confluency_test
  (initial_world
     {| env := dev; data_dirpath := None; datastore := None;
        num_fovs_acquired_in_current_well := None |}
     example_CHANNEL_405 example_CHANNEL_488
     (mock_with_position_list ["A1-Site_1"; "A1-Site_2"]))
  None dev "A1-Site_1" ["A1-Site_2"] _ _ _ _ _ _ _ _ _ _))); reflexivity.
Defined.

(** ** C10 *)



(** * Further properties of the code *)

(** ** Reading the log of several positions *)

Section LogOf.

Lemma current_position_app current tr1 tr2 :
  current_position current (tr1 ++ tr2) =
  current_position (current_position current tr1) tr2.
Proof.
  revert current. induction tr1 as [|[c o] tr1 IH]; intros current; [done |].
  destruct c; apply IH.
Qed.

Lemma at_positions_app {A} (pick : event → option A) current tr1 tr2 :
  at_positions pick current (tr1 ++ tr2) =
  at_positions pick current tr1 ++
  at_positions pick (current_position current tr1) tr2.
Proof.
  revert current. induction tr1 as [|[c o] tr1 IH]; intros current; [done |].
  destruct c; simpl; try apply IH;
    repeat case_match; simpl; by rewrite ?IH.
Qed.

Lemma visited_app tr1 tr2 : visited (tr1 ++ tr2) = visited tr1 ++ visited tr2.
Proof. apply omap_app. Qed.

Lemma log_of_nil : log_of [] [] 0 [] [].
Proof. done. Qed.

Lemma log_of_app evs1 evs2 labels1 labels2 n1 n2 returned1 returned2 used1 used2 :
  log_of evs1 labels1 n1 returned1 used1 →
  log_of evs2 labels2 n2 returned2 used2 →
  log_of (evs1 ++ evs2) (labels1 ++ labels2) (n1 + n2)
         (returned1 ++ returned2) (used1 ++ used2).
Proof.
  intros (Hv1 & Hf1 & Ha1 & Hr1 & Hu1) (Hv2 & Hf2 & Ha2 & Hr2 & Hu2).
  repeat split.
  - by rewrite visited_app, Hv1, Hv2.
  - by rewrite count_calls_app, Hf1, Hf2.
  - by rewrite count_calls_app, Ha1, Ha2.
  - intros current. by rewrite at_positions_app, Hr1, Hr2.
  - intros current. by rewrite at_positions_app, Hu1, Hu2.
Qed.

End LogOf.

(** ** Runs in which no call raises *)

Section FaultFree.

Context {D : Type} `{!Microscope D} `{!Operations D}.
Variable MAX_NUM_FOV_PER_WELL : Z.
Variable confluency_test_method : D → result bool * D.
Variable I : D → Prop.
Variable labels : list string.
Variable ds : option datastore_ref.
Variable c405 : channel.

Hypothesis HMAX : 0 < MAX_NUM_FOV_PER_WELL.
Hypothesis Hfree : fault_free I labels confluency_test_method.
Hypothesis Hkeys : has_autofocus_keys c405.

Local Abbreviation step := (position_step MAX_NUM_FOV_PER_WELL confluency_test_method).
Local Abbreviation is_ready := (ready I ds c405).

Lemma wp_invoke_keeping {A} c (f : D → result A * D) o
    (Φ : result A → world D → Prop) w :
  returns_keeping I f → I (device w) →
  (∀ a d, I d → Φ (Ret a) (log c (o a) (with_device d w))) →
  wp (invoke c f o) Φ w.
Proof.
  intros Hf Hw HΦ. destruct (Hf _ Hw) as (a & d & Heq & Hd).
  eapply wp_invoke_ret; [exact Heq | by apply HΦ].
Qed.

Lemma calculated_values_insert e p (c : channel) :
  calculated_values (<["calculated_exposure_time" := e]>
                       (<["calculated_laser_power" := p]> c)) = (Some e, Some p).
Proof. unfold calculated_values. by simplify_map_eq. Qed.

Local Arguments calculated_values : simpl never.

Ltac log_of_tac :=
  repeat split; intros; simpl;
  try match goal with current : option string |- _ => destruct current end;
  by rewrite ?calculated_values_insert.

(** One position at which the budget check passes. *)
Lemma site_spec position_index label (w : world D) :
  is_ready w →
  label ∈ labels →
  (if _is_first_position_in_new_well label then True
   else num_fovs_acquired_in_current_well (self w) = Some 0) →
  wp (step (position_index, label))
     (λ r w',
        r = Ret tt ∧ is_ready w' ∧
        num_fovs_acquired_in_current_well (self w') = Some 0 ∧
        ∃ evs,
          trace w' = trace w ++ evs ∧
          if _is_first_position_in_new_well label then
            ∃ e p,
              calculated_values (CHANNEL_488 w') = (Some e, Some p) ∧
              log_of evs [label] 1 [(label, (e, p))] [(label, (Some e, Some p))]
          else
            CHANNEL_488 w' = CHANNEL_488 w ∧
            log_of evs [label] 0 [] [(label, calculated_values (CHANNEL_488 w))]) w.
Proof.
  intros (HI & Hds & H405) Hlabel Hcount.
  destruct Hfree as (Hset & Hget & Hgo & Hfocus & Hconfl & Hexp & Hacq & _).
  destruct Hkeys as ([v1 Hv1] & [v2 Hv2] & [v3 Hv3]).
  unfold position_step.
  wp_step. apply wp_invoke_keeping; [done | done |]. intros [] d1 HI1.
  wp_step. apply wp_invoke_keeping; [by apply Hget | done |]. intros [] d2 HI2.
  wp_step. apply wp_invoke_keeping; [by apply Hgo | done |]. intros [] d3 HI3.
  destruct (_is_first_position_in_new_well label) eqn:Hflag.
  - wp_step. wp_step. wp_step. wp_step; [| done].
    match goal with Hn : _ = Some ?n |- _ => simpl in Hn; injection Hn as <- end.
    replace (MAX_NUM_FOV_PER_WELL <=? 0) with false by (symmetry; apply Z.leb_gt, HMAX).
    wp_step. wp_step. cbn [CHANNEL_405 log with_device set_num_fovs snd]. rewrite H405.
    wp_step. wp_step; [| congruence].
    wp_step. wp_step; [| congruence].
    wp_step. wp_step; [| congruence].
    wp_step. apply wp_invoke_keeping; [by apply Hfocus | done |]. intros [] d4 HI4.
    wp_step. destruct (Hconfl d4 HI4) as (d5 & Heq5 & HI5).
    eapply wp_invoke_ret; [exact Heq5 |]. cbn [negb].
    wp_step. wp_step. wp_step. wp_step.
    apply wp_invoke_keeping; [by apply Hexp | done |]. intros [[e p] status] d6 HI6.
    wp_step. wp_step. wp_step. wp_step. wp_step. wp_step. wp_step. wp_step.
    apply wp_invoke_keeping; [by apply Hacq | done |]. intros [] d7 HI7.
    wp_step. wp_step.
    apply wp_invoke_keeping; [by apply Hacq | done |]. intros [] d8 HI8.
    simpl. rewrite <- !app_assoc. simpl. rewrite calculated_values_insert.
    split; [done |]. split; [done |]. split; [done |].
    eexists. split; [reflexivity |]. exists e, p. split; [done |].
    log_of_tac.
  - wp_step. wp_step. wp_step. wp_step;
      [| match goal with Hn : _ = None |- _ => simpl in Hn; congruence end].
    match goal with Hn : _ = Some ?n |- _ =>
      simpl in Hn; rewrite Hcount in Hn; injection Hn as <- end.
    replace (MAX_NUM_FOV_PER_WELL <=? 0) with false by (symmetry; apply Z.leb_gt, HMAX).
    wp_step. wp_step. cbn [CHANNEL_405 log with_device]. rewrite H405.
    wp_step. wp_step; [| congruence].
    wp_step. wp_step; [| congruence].
    wp_step. wp_step; [| congruence].
    wp_step. apply wp_invoke_keeping; [by apply Hfocus | done |]. intros [] d4 HI4.
    wp_step. destruct (Hconfl d4 HI4) as (d5 & Heq5 & HI5).
    eapply wp_invoke_ret; [exact Heq5 |]. cbn [negb].
    wp_step. wp_step. wp_step. wp_step. wp_step. wp_step. wp_step.
    apply wp_invoke_keeping; [by apply Hacq | done |]. intros [] d7 HI7.
    wp_step. wp_step.
    apply wp_invoke_keeping; [by apply Hacq | done |]. intros [] d8 HI8.
    simpl. rewrite <- !app_assoc. simpl.
    split; [done |]. split; [done |]. split; [done |].
    eexists. split; [reflexivity |]. split; [done |].
    log_of_tac.
Qed.

Lemma enumerate_from_app start (xs ys : list string) :
  enumerate_from start (xs ++ ys) =
  enumerate_from start xs ++ enumerate_from (start + length xs) ys.
Proof.
  revert start. induction xs as [|x xs IH]; intros start; simpl.
  - by rewrite Nat.add_0_r.
  - by rewrite IH, Nat.add_succ_r.
Qed.

Lemma wp_for_each_app {S A} (xs ys : list A) (body : A → M S unit)
    (Φ : result unit → S → Prop) s :
  wp (for_each xs body)
     (λ r s1, match r with
              | Ret _ => wp (for_each ys body) Φ s1
              | Raise e => Φ (Raise e) s1
              end) s →
  wp (for_each (xs ++ ys) body) Φ s.
Proof.
  revert s. induction xs as [|x xs IH]; intros s; simpl; [done |].
  intros Hwp. apply wp_bind. unfold wp in Hwp |- *.
  unfold mbind, M_bind in Hwp. destruct (body x s) as [[[]|e] s1]; [| done].
  by apply IH.
Qed.

(** The positions of a well after the first. *)
Lemma later_sites_keep rest : ∀ start (w : world D),
  is_ready w →
  num_fovs_acquired_in_current_well (self w) = Some 0 →
  rest ⊆ labels →
  Forall (λ label, _is_first_position_in_new_well label = false) rest →
  wp (for_each (enumerate_from start rest) step)
     (λ r w',
        r = Ret tt ∧ is_ready w' ∧
        num_fovs_acquired_in_current_well (self w') = Some 0 ∧
        CHANNEL_488 w' = CHANNEL_488 w ∧
        ∃ evs,
          trace w' = trace w ++ evs ∧
          log_of evs rest 0 []
                 ((λ label, (label, calculated_values (CHANNEL_488 w))) <$> rest)) w.
Proof.
  induction rest as [|label rest IH]; intros start w Hw Hn Hsub Hall; simpl.
  - apply wp_ret. split; [done |]. split; [done |]. split; [done |]. split; [done |].
    exists []. by rewrite app_nil_r.
  - apply Forall_cons in Hall as [Hlabel Hall].
    apply wp_bind. eapply wp_mono.
    { apply site_spec; [done | set_solver | by rewrite Hlabel]. }
    intros r w1 (-> & Hw1 & Hn1 & evs & Ht & Hlog). rewrite Hlabel in Hlog.
    destruct Hlog as [Hc Hlog].
    eapply wp_mono; [apply IH; [done | done | set_solver | done] |].
    intros r' w2 (-> & Hw2 & Hn2 & Hc2 & evs' & Ht' & Hlog').
    split; [done |]. split; [done |]. split; [done |]. split; [congruence |].
    exists (evs ++ evs'). split; [by rewrite Ht', Ht, app_assoc |].
    rewrite Hc in Hlog'. apply (log_of_app _ _ [_] _ 0 0 [] [] [_] _ Hlog Hlog').
Qed.

(** The positions of a well. *)
Lemma well_spec well start (w : world D) :
  is_ready w →
  well ⊆ labels →
  is_well well →
  wp (for_each (enumerate_from start well) step)
     (λ r w',
        r = Ret tt ∧ is_ready w' ∧
        ∃ evs x,
          trace w' = trace w ++ evs ∧
          log_of evs well 1 (first_sites [well] [x]) (plate_sites [well] [x])) w.
Proof.
  intros Hw Hsub Hwell. destruct well as [|first rest]; [done |].
  destruct Hwell as [Hfirst Hrest]. simpl.
  apply wp_bind. eapply wp_mono.
  { apply site_spec; [done | set_solver | by rewrite Hfirst]. }
  intros r w1 (-> & Hw1 & Hn1 & evs & Ht & Hlog). rewrite Hfirst in Hlog.
  destruct Hlog as (e & p & Hc & Hlog).
  eapply wp_mono; [apply later_sites_keep; [done | done | set_solver | done] |].
  intros r' w2 (-> & Hw2 & Hn2 & Hc2 & evs' & Ht' & Hlog').
  split; [done |]. split; [done |].
  exists (evs ++ evs'), (e, p). split; [by rewrite Ht', Ht, app_assoc |].
  rewrite Hc in Hlog'. unfold first_sites, plate_sites. simpl. rewrite app_nil_r.
  apply (log_of_app _ _ [_] _ 1 0 [_] [] [_] _ Hlog Hlog').
Qed.

(** The positions of several wells. *)
Lemma wells_spec wells : ∀ start (w : world D),
  is_ready w →
  concat wells ⊆ labels →
  Forall is_well wells →
  wp (for_each (enumerate_from start (concat wells)) step)
     (λ r w',
        r = Ret tt ∧ is_ready w' ∧
        ∃ evs exposures,
          trace w' = trace w ++ evs ∧
          length exposures = length wells ∧
          log_of evs (concat wells) (length wells)
                 (first_sites wells exposures) (plate_sites wells exposures)) w.
Proof.
  induction wells as [|well wells IH]; intros start w Hw Hsub Hall.
  - apply wp_ret. split; [done |]. split; [done |].
    exists [], []. by rewrite app_nil_r.
  - apply Forall_cons in Hall as [Hwell Hall]. simpl in Hsub |- *.
    rewrite enumerate_from_app. apply wp_for_each_app.
    eapply wp_mono.
    { apply well_spec; [done | | done]. intros x Hx. apply Hsub, elem_of_app. by left. }
    intros r w1 (-> & Hw1 & evs & x & Ht & Hlog).
    eapply wp_mono.
    { apply IH; [done | | done]. intros x' Hx. apply Hsub, elem_of_app. by right. }
    intros r' w2 (-> & Hw2 & evs' & xs & Ht' & Hlen & Hlog').
    split; [done |]. split; [done |].
    exists (evs ++ evs'), (x :: xs). split; [by rewrite Ht', Ht, app_assoc |].
    split; [by simpl; rewrite Hlen |].
    pose proof (log_of_app _ _ _ _ _ _ _ _ _ _ Hlog Hlog') as Happ.
    destruct well as [|first rest]; [done |].
    unfold first_sites, plate_sites in Happ |- *. simpl in Happ |- *.
    by rewrite app_nil_r in Happ.
Qed.

Lemma cleanup_spec (w : world D) :
  is_ready w →
  wp cleanup
     (λ r w',
        r = Ret tt ∧
        trace w' = trace w ++ match ds with
                              | Some _ => [(Freeze, Returned)]
                              | None => []
                              end) w.
Proof.
  intros (HI & Hds & H405). destruct Hfree as (_ & _ & _ & _ & _ & _ & _ & Hfreeze).
  unfold cleanup. wp_step. wp_step. rewrite Hds. destruct ds as [ds0|]; simpl.
  - apply wp_invoke_keeping; [by apply Hfreeze | done |]. by intros [] d1 HI1.
  - apply wp_ret. by rewrite app_nil_r.
Qed.

End FaultFree.

(** The whole run. *)
Lemma run_fault_free_spec
    {D : Type} `{!Microscope D} `{!Operations D}
    (MAX_NUM_FOV_PER_WELL : Z) (confluency_test_method : D → result bool * D)
    (I : D → Prop) (wells : list (list string)) (w : world D) :
  0 < MAX_NUM_FOV_PER_WELL →
  fault_free I (concat wells) confluency_test_method →
  has_autofocus_keys (CHANNEL_405 w) →
  I (device w) →
  getPositionList (device w) = concat wells →
  Forall is_well wells →
  (run MAX_NUM_FOV_PER_WELL confluency_test_method w).1 = Ret tt ∧
  ∃ evs exposures,
    trace (run MAX_NUM_FOV_PER_WELL confluency_test_method w).2 =
      trace w ++ evs ++ match datastore (self w) with
                        | Some _ => [(Freeze, Returned)]
                        | None => []
                        end ∧
    length exposures = length wells ∧
    log_of evs (concat wells) (length wells)
           (first_sites wells exposures) (plate_sites wells exposures).
Proof.
  intros HMAX Hfree Hkeys HI Hlist Hwells.
  assert (Hw : ready I (datastore (self w)) (CHANNEL_405 w) w) by done.
  change (wp (run MAX_NUM_FOV_PER_WELL confluency_test_method)
             (λ r w', r = Ret tt ∧ ∃ evs exposures,
                  trace w' = trace w ++ evs ++ match datastore (self w) with
                                               | Some _ => [(Freeze, Returned)]
                                               | None => []
                                               end ∧
                  length exposures = length wells ∧
                  log_of evs (concat wells) (length wells)
                         (first_sites wells exposures) (plate_sites wells exposures)) w).
  unfold run. wp_step. wp_step. rewrite Hlist. wp_step.
  eapply wp_mono; [by eapply wells_spec |].
  intros r w1 (-> & Hw1 & evs & exposures & Ht & Hlen & Hlog).
  eapply wp_mono; [by eapply cleanup_spec |].
  intros r2 w2 [-> Ht2]. split; [done |].
  exists evs, exposures. by rewrite Ht2, Ht, app_assoc.
Qed.

(** X1. A run in which no call raises, over a position list made of wells
    (the first label of each well holds a new-well marker, the others hold
    none), with a positive per-well maximum and an accepting confluency
    test: the run returns; it visits every position, in order; it invokes
    the autoexposure once per well, at the first position of the well; each
    stack of channel 488 is acquired with the exposure time and laser power
    found at the first position of its well; and [freeze] is called once,
    as the last call, when the program holds a datastore, and not at all
    when it holds none. *)
Theorem fault_free_run
    {D : Type} `{!Microscope D} `{!Operations D}
    (MAX_NUM_FOV_PER_WELL : Z) (confluency_test_method : D → result bool * D)
    (I : D → Prop) (wells : list (list string)) (w : world D) :
  0 < MAX_NUM_FOV_PER_WELL →
  fault_free I (concat wells) confluency_test_method →
  has_autofocus_keys (CHANNEL_405 w) →
  I (device w) →
  getPositionList (device w) = concat wells →
  Forall is_well wells →
  (run MAX_NUM_FOV_PER_WELL confluency_test_method w).1 = Ret tt ∧
  ∃ evs exposures,
    trace (run MAX_NUM_FOV_PER_WELL confluency_test_method w).2 =
      trace w ++ evs ++ match datastore (self w) with
                        | Some _ => [(Freeze, Returned)]
                        | None => []
                        end ∧
    length exposures = length wells ∧
    log_of evs (concat wells) (length wells)
           (first_sites wells exposures) (plate_sites wells exposures).
Proof. apply run_fault_free_spec. Qed.
(** ** The mocked microscope with no fault due *)

Section MockIdle.

Variable failing_wells : list string.

Local Abbreviation idle := (mock_idle failing_wells).

Lemma setPosition_keeps zposition : returns_keeping idle (Mock.setPosition zposition).
Proof. intros m Hm. by eexists tt, _. Qed.

Lemma getPosition_keeps ind label :
  outside failing_wells label → returns_keeping idle (Mock.getPosition ind label).
Proof.
  intros (well_id & site_num & Hparse & Hout) m (Hwells & Hfail & Hgo & Hrate & Hcalls).
  unfold Mock.getPosition, Mock.set_position_ind. rewrite Hparse.
  eexists tt, _. split; [reflexivity |]. repeat split; simpl; try done.
  rewrite Hwells. by apply bool_decide_eq_false.
Qed.

Lemma goToPosition_keeps label : returns_keeping idle (Mock.goToPosition label).
Proof.
  intros m Hm. exists tt, m. split; [| done].
  destruct Hm as (_ & _ & Hgo & _). unfold Mock.goToPosition. by rewrite Hgo.
Qed.

Lemma fullFocus_keeps : returns_keeping idle Mock.fullFocus.
Proof.
  intros m Hm. exists tt, m. split; [| done].
  destruct Hm as (_ & Hfail & _ & Hrate & Hcalls).
  unfold Mock.fullFocus. by rewrite Hfail, Hrate, Hcalls.
Qed.

Lemma autofocus_keeps policy channel_name laser_name laser_power camera_gain
    exposure_time :
  returns_keeping idle (Mock.autofocus policy channel_name laser_name laser_power
                                       camera_gain exposure_time).
Proof.
  intros m Hm. destruct (fullFocus_keeps m Hm) as ([] & m' & Heq & Hm').
  exists tt, m'. split; [| done]. unfold Mock.autofocus. rewrite Heq. by destruct policy.
Qed.

Lemma mock_fault_free policy exposure labels :
  (∀ label, label ∈ labels → outside failing_wells label) →
  @fault_free Mock.t Mock.microscope (Mock.operations policy exposure)
              idle labels confluency_test.
Proof.
  intros Hlabels. repeat split.
  - apply setPosition_keeps.
  - intros ind label Hin. by apply getPosition_keeps, Hlabels.
  - intros label _. apply goToPosition_keeps.
  - intros. apply autofocus_keeps.
  - intros m Hm. by exists m.
  - intros ch m Hm. by eexists _, m.
  - intros ds ch m Hm. by exists tt, m.
  - intros ds m Hm. by exists tt, m.
Qed.

End MockIdle.

Section MockWells.

Lemma mock_wells_concat num_wells num_sites_per_well :
  Mock._construct_position_list num_wells num_sites_per_well =
  concat (mock_wells num_wells num_sites_per_well).
Proof.
  rewrite construct_position_list_sites. unfold mock_wells.
  induction (take num_wells Mock.all_well_ids) as [|well_id wells IH]; [done |].
  by rewrite bind_cons, fmap_cons, IH.
Qed.

Lemma take_all_well_ids num_wells well_id :
  well_id ∈ take num_wells Mock.all_well_ids → well_id ∈ Mock.all_well_ids.
Proof. apply subseteq_take. Qed.

Lemma mock_wells_are_wells num_wells num_sites_per_well :
  (0 < num_sites_per_well)%nat →
  Forall (λ well, length well = num_sites_per_well ∧ is_well well)
         (mock_wells num_wells num_sites_per_well).
Proof.
  intros Hsites. unfold mock_wells. apply Forall_fmap, Forall_forall.
  intros well_id Hin%take_all_well_ids. simpl. split.
  - by rewrite length_fmap, length_seq.
  - destruct num_sites_per_well as [|n]; [lia |]. simpl. split.
    + by rewrite site_label_first.
    + apply Forall_fmap, Forall_forall. intros k Hk%elem_of_seq. simpl.
      rewrite site_label_first by done. apply Nat.eqb_neq. lia.
Qed.

End MockWells.
(** ** The labels of the mocked position list, parsed *)

Section MockParse.

Lemma int_fmt_d n : PyStr.int (PyStr.fmt_d n) = Z.of_nat n.
Proof.
  unfold PyStr.int, PyStr.fmt_d. rewrite (int_acc_of_uint _ 0).
  change (Nat.of_uint_acc (Nat.to_uint n) 0) with (Nat.of_uint (Nat.to_uint n)).
  by rewrite Unsigned.of_to.
Qed.

Lemma site_label_findall well_id n :
  well_id ∈ Mock.all_well_ids →
  findall_hcs_site_label (Mock.site_label well_id n) = [(well_id, PyStr.fmt_d n)].
Proof. intros Hin. apply findall_complete. by apply site_label_pattern. Qed.

Lemma site_label_round_trip well_id n :
  well_id ∈ Mock.all_well_ids →
  parse_hcs_site_label (Mock.site_label well_id n) =
    if (String.length (PyStr.fmt_d n) <=? PyStr.int_max_str_digits)%nat
    then Ret (well_id, Z.of_nat n) else Raise ValueError.
Proof.
  intros Hin. unfold parse_hcs_site_label, py_int. rewrite site_label_findall by done.
  destruct (String.length (PyStr.fmt_d n) <=? PyStr.int_max_str_digits)%nat; [| done].
  by rewrite int_fmt_d.
Qed.

Lemma site_label_parsed well_id n :
  well_id ∈ Mock.all_well_ids →
  (String.length (PyStr.fmt_d n) ≤ PyStr.int_max_str_digits)%nat →
  parse_hcs_site_label (Mock.site_label well_id n) = Ret (well_id, Z.of_nat n).
Proof.
  intros Hin Hlen%Nat.leb_le. by rewrite site_label_round_trip, Hlen.
Qed.

Lemma elem_of_position_list num_wells num_sites_per_well label :
  label ∈ Mock._construct_position_list num_wells num_sites_per_well ↔
  ∃ well_id n,
    well_id ∈ take num_wells Mock.all_well_ids ∧ (n < num_sites_per_well)%nat ∧
    label = Mock.site_label well_id n.
Proof.
  rewrite construct_position_list_sites, list_elem_of_bind. split.
  - intros (well_id & (n & -> & Hn%elem_of_seq)%list_elem_of_fmap & Hin).
    exists well_id, n. repeat split; [done | lia].
  - intros (well_id & n & Hin & Hn & ->). exists well_id. split; [| done].
    apply list_elem_of_fmap. exists n. split; [done |]. apply elem_of_seq. lia.
Qed.

End MockParse.

(** X2. Every label of the mocked position list is that of a site of one
    of the first [num_wells] wells of the plate, with a number below
    [num_sites_per_well], and [parse_hcs_site_label] gives the well and the
    number back; for a site number of more than 4300 digits, which [int]
    refuses to convert, it raises ValueError. *)
Theorem mock_labels_parse (num_wells num_sites_per_well : nat) (label : string) :
  label ∈ Mock._construct_position_list num_wells num_sites_per_well →
  ∃ well_id n,
    well_id ∈ take num_wells Mock.all_well_ids ∧ (n < num_sites_per_well)%nat ∧
    label = Mock.site_label well_id n ∧
    parse_hcs_site_label label =
      if (String.length (PyStr.fmt_d n) <=? PyStr.int_max_str_digits)%nat
      then Ret (well_id, Z.of_nat n) else Raise ValueError.
Proof.
  intros (well_id & n & Hin & Hn & ->)%elem_of_position_list.
  exists well_id, n. repeat split; try done.
  by apply site_label_round_trip, (take_all_well_ids num_wells).
Qed.
(** X3. With at least one site per well, the mocked position list is made
    of wells as [run] assumes them: [min num_wells 96] wells of
    [num_sites_per_well] positions each, the positions of a well together,
    the first of them with a new-well marker and the others with none. *)
Theorem mock_position_list_is_plate (num_wells num_sites_per_well : nat) :
  (0 < num_sites_per_well)%nat →
  Mock._construct_position_list num_wells num_sites_per_well =
    concat (mock_wells num_wells num_sites_per_well) ∧
  length (mock_wells num_wells num_sites_per_well) = (num_wells `min` 96)%nat ∧
  Forall (λ well, length well = num_sites_per_well ∧ is_well well)
         (mock_wells num_wells num_sites_per_well).
Proof.
  intros Hsites. split; [apply mock_wells_concat |]. split.
  - unfold mock_wells. by rewrite length_fmap, length_take.
  - by apply mock_wells_are_wells.
Qed.

Section MockDistinct.

Lemma all_well_ids_NoDup : NoDup Mock.all_well_ids.
Proof. apply (bool_decide_unpack _). by vm_compute. Qed.

Lemma site_label_inj well_id1 n1 well_id2 n2 :
  well_id1 ∈ Mock.all_well_ids → well_id2 ∈ Mock.all_well_ids →
  Mock.site_label well_id1 n1 = Mock.site_label well_id2 n2 →
  well_id1 = well_id2 ∧ n1 = n2.
Proof.
  intros H1 H2 Heq. pose proof (site_label_findall well_id1 n1 H1) as Hp.
  rewrite Heq, site_label_findall in Hp by done.
  injection Hp as -> Hn. split; [done |].
  apply (f_equal PyStr.int) in Hn. rewrite !int_fmt_d in Hn. lia.
Qed.

End MockDistinct.

(** X4. [getNumberOfPositions] on the mocked position list is
    [min num_wells 96 * num_sites_per_well], and no label occurs twice in
    the list. *)
Theorem mock_position_list_distinct (num_wells num_sites_per_well : nat) :
  length (Mock._construct_position_list num_wells num_sites_per_well) =
    ((num_wells `min` 96) * num_sites_per_well)%nat ∧
  NoDup (Mock._construct_position_list num_wells num_sites_per_well).
Proof.
  split.
  - rewrite construct_position_list_sites.
    assert (Hlen : length (take num_wells Mock.all_well_ids) = (num_wells `min` 96)%nat)
      by by rewrite length_take.
    rewrite <- Hlen. clear Hlen.
    induction (take num_wells Mock.all_well_ids) as [|well_id wells IH]; [done |].
    rewrite bind_cons, length_app, IH, length_fmap, length_seq. simpl. lia.
  - rewrite construct_position_list_sites. apply NoDup_bind.
    + intros x1 x2 y H1%take_all_well_ids H2%take_all_well_ids
             (n1 & -> & _)%list_elem_of_fmap (n2 & Heq & _)%list_elem_of_fmap.
      by apply site_label_inj in Heq as [? _].
    + intros x Hx%take_all_well_ids. apply NoDup_fmap_2_strong; [| apply NoDup_seq].
      intros n1 n2 _ _ Heq. by apply site_label_inj in Heq as [_ ?].
    + apply (sublist_NoDup _ _ all_well_ids_NoDup), sublist_take.
Qed.

Section Repeated.

Lemma repeated_calls_fixed {D A} (f : D → result A * D) r d n :
  f d = (r, d) → repeated_calls f n d = (replicate n r, d).
Proof.
  intros Hf. induction n as [|n IH]; [done |].
  by cbn [repeated_calls]; rewrite Hf, IH.
Qed.

Lemma fullFocus_always_fail m :
  Mock._always_fail m = true → Mock.fullFocus m = (Raise Py4JJavaError, m).
Proof. intros Hfail. unfold Mock.fullFocus. by rewrite Hfail. Qed.

Lemma fullFocus_no_fault m :
  Mock._always_fail m = false →
  Mock.Qltb 0 (Mock._afc_failure_rate m) = false →
  (Mock._num_full_focus_calls m <? Mock._afc_fails_on_first_n_calls m) = false →
  Mock.fullFocus m = (Ret tt, m).
Proof. intros Hfail Hrate Hcalls. unfold Mock.fullFocus. by rewrite Hfail, Hrate, Hcalls. Qed.

End Repeated.

(** X5. [Gate.set_position_ind] and [AutofocusPlugin.fullFocus]: after
    [getPosition] at a label whose well is among
    [_afc_always_fail_in_wells], [fullFocus] raises and leaves the mock as
    it is, so that every call raises until the stage is at another
    position; after [getPosition] at a label of another well it returns,
    when neither the failure rate nor the first calls make it fail. *)
Theorem always_fail_in_listed_wells (ind : nat) (label well_id : string)
    (site_num : Z) (m : Mock.t) :
  parse_hcs_site_label label = Ret (well_id, site_num) →
  let m' := (Mock.getPosition ind label m).2 in
  (Mock.getPosition ind label m).1 = Ret tt ∧
  (well_id ∈ Mock._afc_always_fail_in_wells m →
   ∀ n, (repeated_calls Mock.fullFocus n m').1 = replicate n (Raise Py4JJavaError)) ∧
  (well_id ∉ Mock._afc_always_fail_in_wells m →
   Mock.Qltb 0 (Mock._afc_failure_rate m) = false →
   (Mock._num_full_focus_calls m <? Mock._afc_fails_on_first_n_calls m) = false →
   ∀ n, (repeated_calls Mock.fullFocus n m').1 = replicate n (Ret tt)).
Proof.
  intros Hparse. unfold Mock.getPosition, Mock.set_position_ind. rewrite Hparse.
  cbn [fst snd]. split; [done |]. split.
  - intros Hin n. erewrite repeated_calls_fixed; [done |].
    apply fullFocus_always_fail. simpl. by apply bool_decide_eq_true_2.
  - intros Hout Hrate Hcalls n. erewrite repeated_calls_fixed; [done |].
    apply fullFocus_no_fault; [| done | done]. simpl. by apply bool_decide_eq_false_2.
Qed.
Lemma fullFocus_due m :
  Mock._always_fail m = false →
  Mock.Qltb 0 (Mock._afc_failure_rate m) = false →
  Mock._num_full_focus_calls m < Mock._afc_fails_on_first_n_calls m →
  ∃ m1, Mock.fullFocus m = (Raise Py4JJavaError, m1) ∧
        Mock._always_fail m1 = false ∧
        Mock._afc_failure_rate m1 = Mock._afc_failure_rate m ∧
        Mock._afc_fails_on_first_n_calls m1 = Mock._afc_fails_on_first_n_calls m ∧
        Mock._num_full_focus_calls m1 = Mock._num_full_focus_calls m + 1.
Proof.
  intros Hfail Hrate Hcalls%Z.ltb_lt. unfold Mock.fullFocus.
  rewrite Hfail, Hrate, Hcalls. by eexists.
Qed.

(** X6. [afc_fail_on_first_n_calls]: on a mock whose autofocus is not set
    to fail always and has no positive failure rate, [fullFocus] raises on
    the calls that are left of the first [_afc_fails_on_first_n_calls] and
    returns on every call after them; the count of calls stops at that
    number. *)
Theorem fullFocus_fails_on_first_calls (n : nat) : ∀ m : Mock.t,
  Mock._always_fail m = false →
  Mock.Qltb 0 (Mock._afc_failure_rate m) = false →
  let due := Z.to_nat (Mock._afc_fails_on_first_n_calls m - Mock._num_full_focus_calls m) in
  (repeated_calls Mock.fullFocus n m).1 =
    replicate (n `min` due) (Raise Py4JJavaError) ++ replicate (n - due) (Ret tt) ∧
  Mock._num_full_focus_calls (repeated_calls Mock.fullFocus n m).2 =
    Mock._num_full_focus_calls m + Z.of_nat (n `min` due).
Proof.
  induction n as [|n IH]; intros m Hfail Hrate due.
  - simpl. split; [done | lia].
  - cbn [repeated_calls].
    destruct (Mock._num_full_focus_calls m <? Mock._afc_fails_on_first_n_calls m)
      eqn:Hcalls.
    + apply Z.ltb_lt in Hcalls.
      destruct (fullFocus_due m Hfail Hrate Hcalls)
        as (m1 & -> & Hfail1 & Hrate1 & Hfirst1 & Hcalls1).
      rewrite <- Hrate1 in Hrate.
      destruct (IH m1 Hfail1 Hrate) as [Hrs Hcount].
      destruct (repeated_calls Mock.fullFocus n m1) as [rs m2].
      cbn [fst snd] in Hrs, Hcount |- *.
      rewrite Hrs, Hcount, Hfirst1, Hcalls1.
      replace (Z.to_nat (Mock._afc_fails_on_first_n_calls m -
                         (Mock._num_full_focus_calls m + 1)))
        with (due - 1)%nat by (unfold due; lia).
      assert (Hdue : (1 ≤ due)%nat) by (unfold due; lia).
      destruct due as [|due']; [lia |].
      replace (S due' - 1)%nat with due' by lia.
      replace (S n `min` S due')%nat with (S (n `min` due')) by lia.
      replace (S n - S due')%nat with (n - due')%nat by lia.
      split; [done | lia].
    + rewrite (fullFocus_no_fault m Hfail Hrate Hcalls).
      apply Z.ltb_ge in Hcalls.
      destruct (IH m Hfail Hrate) as [Hrs Hcount].
      destruct (repeated_calls Mock.fullFocus n m) as [rs m2].
      cbn [fst snd] in Hrs, Hcount |- *. rewrite Hrs, Hcount. unfold due.
      replace (Z.to_nat (Mock._afc_fails_on_first_n_calls m -
                         Mock._num_full_focus_calls m)) with 0%nat by lia.
      rewrite !Nat.min_0_r, !Nat.sub_0_r. simpl.
      split; [done | lia].
Qed.

(** X7. [raise_go_to_position_error_once]: a move to a position raises
    when the flag is set, and clears the flag; every move after it, to
    whatever position, returns. *)
Theorem goToPosition_raises_once (label : string) (m : Mock.t) :
  let m1 := (Mock.goToPosition label m).2 in
  (Mock.goToPosition label m).1 =
    (if Mock._raise_go_to_position_error_once m then Raise Py4JJavaError else Ret tt) ∧
  Mock._raise_go_to_position_error_once m1 = false ∧
  ∀ label' n,
    (repeated_calls (Mock.goToPosition label') n m1).1 = replicate n (Ret tt).
Proof.
  unfold Mock.goToPosition at 1 2 3.
  destruct (Mock._raise_go_to_position_error_once m) eqn:Hflag; cbn [fst snd].
  - split; [done |]. split; [done |]. intros label' n.
    by erewrite repeated_calls_fixed.
  - split; [done |]. split; [done |]. intros label' n.
    erewrite repeated_calls_fixed; [done |].
    unfold Mock.goToPosition. by rewrite Hflag.
Qed.
(** ** The program on the mocked microscope *)

Section MockRun.

Lemma mock_wells_outside failing_wells num_wells num_sites_per_well label :
  (∀ well_id, well_id ∈ take num_wells Mock.all_well_ids → well_id ∉ failing_wells) →
  (∀ n, (n < num_sites_per_well)%nat →
        (String.length (PyStr.fmt_d n) ≤ PyStr.int_max_str_digits)%nat) →
  label ∈ concat (mock_wells num_wells num_sites_per_well) →
  outside failing_wells label.
Proof.
  intros Hwells Hdigits. rewrite <- mock_wells_concat.
  intros (well_id & n & Hin & Hn & ->)%elem_of_position_list.
  exists well_id, (Z.of_nat n). split; [| by apply Hwells].
  apply site_label_parsed; [by apply (take_all_well_ids num_wells) | by apply Hdigits].
Qed.

Lemma mock_interface_idle num_wells num_sites_per_well failing_wells rand :
  mock_idle failing_wells
    (Mock.get_mocked_interface num_wells num_sites_per_well 0 0 failing_wells false rand).
Proof. by repeat split. Qed.

Lemma mock_run_spec `{!Operations Mock.t}
    (MAX_NUM_FOV_PER_WELL : Z) (failing_wells : list string)
    (num_wells num_sites_per_well : nat) (rand : nat → Q) (w : world Mock.t) :
  0 < MAX_NUM_FOV_PER_WELL →
  (0 < num_sites_per_well)%nat →
  (∀ well_id, well_id ∈ take num_wells Mock.all_well_ids → well_id ∉ failing_wells) →
  (∀ n, (n < num_sites_per_well)%nat →
        (String.length (PyStr.fmt_d n) ≤ PyStr.int_max_str_digits)%nat) →
  operations_return (mock_idle failing_wells) →
  has_autofocus_keys (CHANNEL_405 w) →
  device w = Mock.get_mocked_interface num_wells num_sites_per_well 0 0
                                       failing_wells false rand →
  (run MAX_NUM_FOV_PER_WELL confluency_test w).1 = Ret tt ∧
  ∃ evs exposures,
    trace (run MAX_NUM_FOV_PER_WELL confluency_test w).2 =
      trace w ++ evs ++ match datastore (self w) with
                        | Some _ => [(Freeze, Returned)]
                        | None => []
                        end ∧
    length exposures = (num_wells `min` 96)%nat ∧
    log_of evs (Mock._construct_position_list num_wells num_sites_per_well)
           (num_wells `min` 96)
           (first_sites (mock_wells num_wells num_sites_per_well) exposures)
           (plate_sites (mock_wells num_wells num_sites_per_well) exposures).
Proof.
  intros HMAX Hsites Hwells Hdigits (Hfocus & Hexp & Hacq) Hkeys Hdev.
  assert (Hlen : length (mock_wells num_wells num_sites_per_well) = (num_wells `min` 96)%nat).
  { unfold mock_wells. by rewrite length_fmap, length_take. }
  rewrite <- Hlen, mock_wells_concat.
  apply (run_fault_free_spec _ _ (mock_idle failing_wells)); try done.
  - repeat split; try done.
    + apply setPosition_keeps.
    + intros ind label Hin. by eapply getPosition_keeps, mock_wells_outside.
    + intros label _. apply goToPosition_keeps.
    + intros m Hm. by exists m.
    + intros ds m Hm. by exists tt, m.
  - rewrite Hdev. apply mock_interface_idle.
  - rewrite Hdev. apply mock_wells_concat.
  - eapply Forall_impl; [by apply mock_wells_are_wells |]. by intros well [_ ?].
Qed.

Lemma mock_operations_return policy exposure failing_wells :
  @operations_return Mock.t (Mock.operations policy exposure) (mock_idle failing_wells).
Proof.
  repeat split.
  - intros. apply autofocus_keeps.
  - intros ch m Hm. by eexists _, m.
  - intros ds ch m Hm. by exists tt, m.
Qed.

End MockRun.

(** X8. The program on the mocked microscope, with no fault injected other
    than an autofocus that fails in wells that are not among the first
    [num_wells], at least one site per well, site numbers of at most 4300
    digits (those that [int] converts), a positive per-well maximum, and
    operations that return: the run returns; it visits the
    [min num_wells 96 * num_sites_per_well] positions of the list in order,
    invokes the autoexposure [min num_wells 96] times, at the site of
    number 0 of each well, and acquires every stack of channel 488 with the
    values found at the site of number 0 of its well. *)
Theorem mock_run_visits_every_position `{!Operations Mock.t}
    (MAX_NUM_FOV_PER_WELL : Z) (failing_wells : list string)
    (num_wells num_sites_per_well : nat) (rand : nat → Q) (w : world Mock.t) :
  0 < MAX_NUM_FOV_PER_WELL →
  (0 < num_sites_per_well)%nat →
  (∀ well_id, well_id ∈ take num_wells Mock.all_well_ids → well_id ∉ failing_wells) →
  (∀ n, (n < num_sites_per_well)%nat →
        (String.length (PyStr.fmt_d n) ≤ PyStr.int_max_str_digits)%nat) →
  operations_return (mock_idle failing_wells) →
  has_autofocus_keys (CHANNEL_405 w) →
  device w = Mock.get_mocked_interface num_wells num_sites_per_well 0 0
                                       failing_wells false rand →
  (run MAX_NUM_FOV_PER_WELL confluency_test w).1 = Ret tt ∧
  ∃ evs exposures,
    trace (run MAX_NUM_FOV_PER_WELL confluency_test w).2 =
      trace w ++ evs ++ match datastore (self w) with
                        | Some _ => [(Freeze, Returned)]
                        | None => []
                        end ∧
    length exposures = (num_wells `min` 96)%nat ∧
    log_of evs (Mock._construct_position_list num_wells num_sites_per_well)
           (num_wells `min` 96)
           (first_sites (mock_wells num_wells num_sites_per_well) exposures)
           (plate_sites (mock_wells num_wells num_sites_per_well) exposures).
Proof. apply mock_run_spec. Qed.
Lemma fault_free_run_witness :
  (@run _ Mock.microscope (Mock.operations Mock.Propagate example_exposure)
        1 confluency_test three_wells_two_sites).1 = Ret tt ∧
  ∃ evs exposures,
    trace (@run _ Mock.microscope (Mock.operations Mock.Propagate example_exposure)
                1 confluency_test three_wells_two_sites).2 =
      trace three_wells_two_sites ++ evs ++
      match datastore (self three_wells_two_sites) with
      | Some _ => [(Freeze, Returned)]
      | None => []
      end ∧
    length exposures = length (mock_wells 3 2) ∧
    log_of evs (concat (mock_wells 3 2)) (length (mock_wells 3 2))
           (first_sites (mock_wells 3 2) exposures)
           (plate_sites (mock_wells 3 2) exposures).
Proof.
  apply (fault_free_run
           (Operations0 := Mock.operations Mock.Propagate example_exposure)
           1 confluency_test (mock_idle []) (mock_wells 3 2) three_wells_two_sites).
  - lia.
  - apply mock_fault_free. intros label Hin.
    apply (mock_wells_outside [] 3 2); [| | done].
    + intros well_id _. apply not_elem_of_nil.
    + intros [|[|n]] Hn; [by apply Nat.leb_le; vm_compute.. | lia].
  - repeat split; by eexists.
  - apply mock_interface_idle.
  - by vm_compute.
  - eapply Forall_impl; [apply (mock_wells_are_wells 3 2); lia |]. by intros well [_ ?].
Defined.

Lemma mock_labels_parse_witness :
  "A2-Site_1" ∈ Mock._construct_position_list 3 2 ∧
  ∃ well_id n,
    well_id ∈ take 3 Mock.all_well_ids ∧ (n < 2)%nat ∧
    "A2-Site_1" = Mock.site_label well_id n ∧
    parse_hcs_site_label "A2-Site_1" =
      if (String.length (PyStr.fmt_d n) <=? PyStr.int_max_str_digits)%nat
      then Ret (well_id, Z.of_nat n) else Raise ValueError.
Proof.
  assert (H : "A2-Site_1" ∈ Mock._construct_position_list 3 2).
  { apply list_elem_of_lookup. exists 3%nat. by vm_compute. }
  split; [exact H | apply (mock_labels_parse 3 2 "A2-Site_1" H)].
Defined.

Lemma mock_position_list_is_plate_witness :
  Mock._construct_position_list 3 2 = concat (mock_wells 3 2) ∧
  length (mock_wells 3 2) = (3 `min` 96)%nat ∧
  Forall (λ well, length well = 2%nat ∧ is_well well) (mock_wells 3 2).
Proof. apply (mock_position_list_is_plate 3 2). lia. Defined.

Lemma always_fail_in_listed_wells_witness :
  parse_hcs_site_label "B2-Site_0" = Ret ("B2", 0) ∧
  (repeated_calls Mock.fullFocus 3
     (Mock.getPosition 13 "B2-Site_0"
        (Mock.get_mocked_interface 15 1 0 0 ["B2"] false (λ _, 0%Q))).2).1 =
  replicate 3 (Raise Py4JJavaError).
Proof.
  split; [by vm_compute |].
  apply (always_fail_in_listed_wells 13 "B2-Site_0" "B2" 0
           (Mock.get_mocked_interface 15 1 0 0 ["B2"] false (λ _, 0%Q))).
  - by vm_compute.
  - simpl. apply list_elem_of_here.
Defined.

Lemma fullFocus_fails_on_first_calls_witness :
  (repeated_calls Mock.fullFocus 5
     (Mock.get_mocked_interface 1 1 0 2 [] false (λ _, 0%Q))).1 =
  [Raise Py4JJavaError; Raise Py4JJavaError; Ret tt; Ret tt; Ret tt].
Proof.
  apply (fullFocus_fails_on_first_calls 5
           (Mock.get_mocked_interface 1 1 0 2 [] false (λ _, 0%Q))); reflexivity.
Defined.

Lemma mock_run_visits_every_position_witness :
  (@run _ Mock.microscope (Mock.operations Mock.Propagate example_exposure)
        1 confluency_test three_wells_two_sites).1 = Ret tt ∧
  ∃ evs exposures,
    trace (@run _ Mock.microscope (Mock.operations Mock.Propagate example_exposure)
                1 confluency_test three_wells_two_sites).2 =
      trace three_wells_two_sites ++ evs ++
      match datastore (self three_wells_two_sites) with
      | Some _ => [(Freeze, Returned)]
      | None => []
      end ∧
    length exposures = (3 `min` 96)%nat ∧
    log_of evs (Mock._construct_position_list 3 2) (3 `min` 96)
           (first_sites (mock_wells 3 2) exposures)
           (plate_sites (mock_wells 3 2) exposures).
Proof.
  apply (mock_run_visits_every_position
           (Operations0 := Mock.operations Mock.Propagate example_exposure)
           1 [] 3 2 (λ _, 0%Q) three_wells_two_sites).
  - lia.
  - lia.
  - intros well_id _. apply not_elem_of_nil.
  - intros [|[|n]] Hn; [by apply Nat.leb_le; vm_compute.. | lia].
  - apply mock_operations_return.
  - repeat split; by eexists.
  - reflexivity.
Defined.
(** ** The loop of [run] on any instrument *)

Section AnyRun.

Context {D : Type} `{!Microscope D} `{!Operations D}.
Variable MAX_NUM_FOV_PER_WELL : Z.
Variable confluency_test_method : D → result bool * D.

Local Abbreviation step := (position_step MAX_NUM_FOV_PER_WELL confluency_test_method).

Lemma positions_autoexposures labels : ∀ start (w : world D),
  wp (for_each (enumerate_from start labels) step)
     (λ _ w', ∃ evs,
          trace w' = trace w ++ evs ∧
          (count_calls is_autoexposure evs ≤ count_marked labels)%nat) w.
Proof.
  induction labels as [|label labels IH]; intros start w; simpl.
  - apply wp_ret. exists []. by rewrite app_nil_r.
  - apply wp_bind. eapply wp_mono; [apply position_step_spec |].
    intros r w1 (evs & Ht & _ & _ & _ & _ & Hone & Hnone & _).
    assert (Hle : (count_calls is_autoexposure evs ≤
                   if _is_first_position_in_new_well label then 1 else 0)%nat).
    { destruct (_is_first_position_in_new_well label); [done |]. by rewrite Hnone. }
    destruct r as [[]|e].
    + eapply wp_mono; [apply IH |].
      intros r' w2 (evs' & Ht' & Hle').
      exists (evs ++ evs'). rewrite Ht', Ht, app_assoc, count_calls_app.
      split; [done | lia].
    + exists evs. split; [done | lia].
Qed.

Lemma cleanup_freezes (w : world D) :
  wp (cleanup (D := D))
     (λ r w',
        match datastore (self w) with
        | Some ds => ∃ o, trace w' = trace w ++ [(Freeze, o)]
        | None => r = Ret tt ∧ trace w' = trace w
        end) w.
Proof.
  unfold cleanup. wp_step. wp_step. destruct (datastore (self w)) as [ds|].
  - wp_step; simpl; eauto.
  - by wp_step.
Qed.

End AnyRun.

(** X9. On any instrument and whatever its calls do, [run] invokes the
    autoexposure at most as many times as the position list holds labels
    with a new-well marker. *)
Theorem autoexposures_at_most_marked_labels
    {D : Type} `{!Microscope D} `{!Operations D}
    (MAX_NUM_FOV_PER_WELL : Z) (confluency_test_method : D → result bool * D)
    (w : world D) :
  ∃ evs,
    trace (run MAX_NUM_FOV_PER_WELL confluency_test_method w).2 = trace w ++ evs ∧
    (count_calls is_autoexposure evs ≤ count_marked (getPositionList (device w)))%nat.
Proof.
  change (wp (run MAX_NUM_FOV_PER_WELL confluency_test_method)
             (λ _ w', ∃ evs, trace w' = trace w ++ evs ∧
                  (count_calls is_autoexposure evs ≤
                   count_marked (getPositionList (device w)))%nat) w).
  unfold run. wp_step. wp_step. wp_step.
  eapply wp_mono; [apply positions_autoexposures |].
  intros r w1 (evs & Ht & Hle). destruct r as [[]|e]; [| by eauto].
  eapply wp_mono; [apply cleanup_freezes |].
  intros r2 w2 Hend. destruct (datastore (self w1)) as [ds|].
  - destruct Hend as [o Ht2]. exists (evs ++ [(Freeze, o)]).
    rewrite Ht2, Ht, app_assoc, count_calls_app. split; [done | simpl; lia].
  - destruct Hend as [_ Ht2]. exists evs. by rewrite Ht2.
Qed.
Section Freeze.

Context {D : Type} `{!Microscope D} `{!Operations D}.
Variable MAX_NUM_FOV_PER_WELL : Z.
Variable confluency_test_method : D → result bool * D.

Local Abbreviation step := (position_step MAX_NUM_FOV_PER_WELL confluency_test_method).





End Freeze.

Section NoBudget.

Context {D : Type} `{!Microscope D} `{!Operations D}.
Variable MAX_NUM_FOV_PER_WELL : Z.
Variable confluency_test_method : D → result bool * D.
Hypothesis HMAX : MAX_NUM_FOV_PER_WELL ≤ 0.

Local Abbreviation step := (position_step MAX_NUM_FOV_PER_WELL confluency_test_method).

Ltac moves_tac :=
  simpl; rewrite <- ?app_assoc; simpl;
  split; [by auto |];
  eexists; split; [try reflexivity; symmetry; apply app_nil_r | by repeat split].

Lemma position_step_only_moves position (w : world D) :
  counter_unused w →
  wp (step position)
     (λ _ w', counter_unused w' ∧
              ∃ evs, trace w' = trace w ++ evs ∧ only_moves evs) w.
Proof.
  intros Hw. destruct position as [position_index label]. unfold position_step.
  unfold counter_unused in *.
  wp_step. wp_step; [| moves_tac].
  wp_step. wp_step; [| moves_tac].
  wp_step. wp_step; [| moves_tac].
  wp_step. wp_step.
  - wp_step. wp_step. wp_step; [| moves_tac].
    match goal with Hn : _ = Some ?n |- _ => simpl in Hn; injection Hn as <- end.
    replace (MAX_NUM_FOV_PER_WELL <=? 0) with true by (symmetry; by apply Z.leb_le).
    wp_step. moves_tac.
  - wp_step. wp_step. wp_step; [| moves_tac].
    match goal with Hn : _ = Some ?n |- _ => simpl in Hn end.
    assert (n = 0) as -> by (destruct Hw; congruence).
    replace (MAX_NUM_FOV_PER_WELL <=? 0) with true by (symmetry; by apply Z.leb_le).
    wp_step. moves_tac.
Qed.

Lemma positions_only_moves positions : ∀ (w : world D),
  counter_unused w →
  wp (for_each positions step)
     (λ _ w', ∃ evs, trace w' = trace w ++ evs ∧ only_moves evs) w.
Proof.
  induction positions as [|position positions IH]; intros w Hw; simpl.
  - apply wp_ret. exists []. by rewrite app_nil_r.
  - apply wp_bind. eapply wp_mono; [by apply position_step_only_moves |].
    intros r w1 (Hw1 & evs & Ht & Hm). destruct r as [[]|e]; [| by eauto].
    eapply wp_mono; [by apply IH |].
    intros r' w2 (evs' & Ht' & Hm').
    exists (evs ++ evs'). split; [by rewrite Ht', Ht, app_assoc |].
    destruct Hm as (? & ? & ? & ? & ?), Hm' as (? & ? & ? & ? & ?).
    repeat split; rewrite count_calls_app; lia.
Qed.

End NoBudget.

(** X11. With a per-well maximum that is not positive, a program whose
    counter of accepted positions is unassigned (as the constructor leaves
    it) or zero never gets past the budget check: on any instrument and any
    position list, [run] invokes no autofocus, no confluency test, no
    autoexposure and no acquisition. *)
Theorem no_budget_no_acquisition
    {D : Type} `{!Microscope D} `{!Operations D}
    (MAX_NUM_FOV_PER_WELL : Z) (confluency_test_method : D → result bool * D)
    (w : world D) :
  MAX_NUM_FOV_PER_WELL ≤ 0 →
  counter_unused w →
  ∃ evs,
    trace (run MAX_NUM_FOV_PER_WELL confluency_test_method w).2 = trace w ++ evs ∧
    only_moves evs.
Proof.
  intros HMAX Hw.
  change (wp (run MAX_NUM_FOV_PER_WELL confluency_test_method)
             (λ _ w', ∃ evs, trace w' = trace w ++ evs ∧ only_moves evs) w).
  unfold run. wp_step. wp_step. wp_step.
  eapply wp_mono; [by apply positions_only_moves |].
  intros r w1 (evs & Ht & Hm). destruct r as [[]|e]; [| by eauto].
  eapply wp_mono; [apply cleanup_freezes |].
  intros r2 w2 Hend. destruct (datastore (self w1)) as [ds|].
  - destruct Hend as [o Ht2]. exists (evs ++ [(Freeze, o)]).
    split; [by rewrite Ht2, Ht, app_assoc |].
    destruct Hm as (? & ? & ? & ? & ?).
    repeat split; rewrite count_calls_app; simpl; lia.
  - destruct Hend as [_ Ht2]. exists evs. by rewrite Ht2.
Qed.
Section Budget.

Context {D : Type} `{!Microscope D} `{!Operations D}.
Variable confluency_test_method : D → result bool * D.

Lemma bind_ext {S A B} (m : M S A) (f g : A → M S B) (s : S) :
  (∀ a s', m s = (Ret a, s') → f a s' = g a s') →
  (m ≫= f) s = (m ≫= g) s.
Proof.
  intros Hfg. unfold mbind, M_bind. destruct (m s) as [[a|e] s']; [by apply Hfg | done].
Qed.

Lemma invoke_self {A} c (f : D → result A * D) o (w w' : world D) r :
  invoke c f o w = (r, w') → self w' = self w.
Proof.
  unfold invoke. destruct (f (device w)) as [[a|e] d]; by intros [= <- <-].
Qed.

(** A positive maximum is never reached: the counter the budget check
    reads is zero. *)
Lemma position_step_any_budget (max1 max2 : Z) position (w : world D) :
  0 < max1 → 0 < max2 → counter_unused w →
  position_step max1 confluency_test_method position w =
  position_step max2 confluency_test_method position w.
Proof.
  intros H1 H2 Hw. destruct position as [position_index label]. unfold position_step.
  apply bind_ext. intros [] w1 Hw1%invoke_self.
  apply bind_ext. intros [] w2 Hw2%invoke_self.
  apply bind_ext. intros [] w3 Hw3%invoke_self.
  apply bind_ext. intros [] w4 Hw4.
  apply bind_ext. intros n w5 Hw5.
  assert (n = 0) as ->.
  { unfold get_num_fovs in Hw5.
    destruct (num_fovs_acquired_in_current_well (self w4)) as [k|] eqn:Hk; [| done].
    injection Hw5 as <- <-.
    destruct (_is_first_position_in_new_well label).
    - injection Hw4 as <-. simpl in Hk. congruence.
    - injection Hw4 as <-. rewrite Hw3, Hw2, Hw1 in Hk.
      destruct Hw as [Hw | Hw]; congruence. }
  replace (max1 <=? 0) with false by (symmetry; by apply Z.leb_gt).
  replace (max2 <=? 0) with false by (symmetry; by apply Z.leb_gt).
  done.
Qed.

Lemma position_step_counter_unused max position (w : world D) :
  counter_unused w →
  counter_unused (position_step max confluency_test_method position w).2.
Proof.
  intros Hw.
  pose proof (position_step_frame max confluency_test_method position w w (frame_refl w))
    as Hframe.
  unfold wp in Hframe. destruct Hframe as (_ & _ & _ & [Hn | Hn] & _).
  - unfold counter_unused. by rewrite Hn.
  - by right.
Qed.

Lemma positions_any_budget (max1 max2 : Z) positions : ∀ (w : world D),
  0 < max1 → 0 < max2 → counter_unused w →
  for_each positions (position_step max1 confluency_test_method) w =
  for_each positions (position_step max2 confluency_test_method) w.
Proof.
  induction positions as [|position positions IH]; intros w H1 H2 Hw; [done |].
  simpl. unfold mbind, M_bind.
  rewrite (position_step_any_budget max1 max2) by done.
  pose proof (position_step_counter_unused max2 position w Hw) as Hw1.
  destruct (position_step max2 confluency_test_method position w) as [[[]|e] w1];
    [by apply IH | done].
Qed.

End Budget.

(** X12. The value of a positive per-well maximum has no effect: [run]
    resets the counter of accepted positions and never adds to it, so for a
    program whose counter is unassigned or zero, two runs that differ only
    in a positive maximum return the same result and leave the same world,
    on any instrument. *)
Theorem positive_maximum_has_no_effect
    {D : Type} `{!Microscope D} `{!Operations D}
    (max1 max2 : Z) (confluency_test_method : D → result bool * D) (w : world D) :
  0 < max1 → 0 < max2 → counter_unused w →
  run max1 confluency_test_method w = run max2 confluency_test_method w.
Proof.
  intros H1 H2 Hw. unfold run.
  apply bind_ext. intros position_list w1 [= <- <-].
  unfold mbind, M_bind. by rewrite (positions_any_budget _ max1 max2).
Qed.

Lemma positive_maximum_has_no_effect_witness :
  @run _ Mock.microscope (Mock.operations Mock.Propagate example_exposure)
       1 confluency_test three_wells_two_sites =
  @run _ Mock.microscope (Mock.operations Mock.Propagate example_exposure)
       5 confluency_test three_wells_two_sites.
Proof.
  apply (positive_maximum_has_no_effect
           (Operations0 := Mock.operations Mock.Propagate example_exposure)
           1 5 confluency_test three_wells_two_sites); [lia | lia | by left].
Defined.

Lemma no_budget_no_acquisition_witness :
  ∃ evs,
    trace (@run _ Mock.microscope (Mock.operations Mock.Propagate example_exposure)
                0 confluency_test three_wells_two_sites).2 =
      trace three_wells_two_sites ++ evs ∧
    only_moves evs.
Proof.
  apply (no_budget_no_acquisition
           (Operations0 := Mock.operations Mock.Propagate example_exposure)
           0 confluency_test three_wells_two_sites); [lia | by left].
Defined.
(** ** [well_id_to_position] *)

Section WellId.

Lemma is_row_index row :
  PyStr.is_row row = true →
  list_index (String row "") ["A"; "B"; "C"; "D"; "E"; "F"; "G"; "H"] =
    Some (nat_of_ascii row - 65)%nat.
Proof.
  destruct row as [[] [] [] [] [] [] [] []]; intros H; vm_compute in H |- *;
    first [discriminate H | reflexivity].
Qed.

Lemma findall_well_id_sound well_id row col l :
  findall_well_id well_id = (row, col) :: l →
  ∃ r, row = String r "" ∧ well_id_pattern well_id r col ∧ l = [].
Proof.
  unfold findall_well_id. destruct well_id as [|r rest]; [done |].
  destruct (PyStr.is_row r) eqn:Hrow; [| done].
  destruct (PyStr.span_upto 2 PyStr.is_digit rest) as [tk dr] eqn:Hspan.
  apply span_upto_sound in Hspan as (-> & Hall & Hlen).
  destruct tk as [|c tk]; [done |].
  assert (Hlen' : String.length (String c tk) = 1%nat ∨ String.length (String c tk) = 2%nat)
    by (simpl in *; lia).
  destruct dr as [|e dr].
  - intros [= <- <- <-]. exists r. repeat split. exists "". repeat split; auto.
  - destruct dr; [| done]. destruct (Ascii.eqb_spec e newline) as [-> |]; [| done].
    intros [= <- <- <-]. exists r. repeat split. exists (String newline "").
    repeat split; auto.
Qed.

Lemma findall_well_id_complete well_id row col :
  well_id_pattern well_id row col →
  findall_well_id well_id = [(String row "", col)].
Proof.
  intros (eol & Hrow & Hlen & Hall & Heol & ->). unfold findall_well_id. rewrite Hrow.
  rewrite span_upto_complete; [| done | lia |].
  - destruct col as [|c col]; [simpl in Hlen; lia |].
    by destruct Heol as [-> | ->].
  - destruct Hlen as [Hlen | Hlen]; [right | by left].
    by destruct Heol as [-> | ->].
Qed.

Lemma int_two_digits col :
  (String.length col = 1%nat ∨ String.length col = 2%nat) →
  PyStr.all_chars PyStr.is_digit col = true →
  0 ≤ PyStr.int col ≤ 99.
Proof.
  assert (Hd : ∀ c, PyStr.is_digit c = true → 0 ≤ PyStr.digit_value c ≤ 9).
  { intros c Hc. unfold PyStr.is_digit, PyStr.in_range in Hc.
    apply andb_true_iff in Hc as [Hlo%Nat.leb_le Hhi%Nat.leb_le].
    change (nat_of_ascii "0") with 48%nat in Hlo.
    change (nat_of_ascii "9") with 57%nat in Hhi.
    unfold PyStr.digit_value. lia. }
  intros Hlen Hall. destruct col as [|a [|b [|c col]]]; simpl in Hlen; try lia.
  - simpl in Hall. apply andb_true_iff in Hall as [Ha%Hd _].
    unfold PyStr.int. simpl. lia.
  - simpl in Hall. apply andb_true_iff in Hall as [Ha%Hd [Hb%Hd _]%andb_true_iff].
    unfold PyStr.int. simpl. lia.
Qed.

Lemma well_id_to_position_on_pattern well_id row col :
  well_id_pattern well_id row col →
  well_id_to_position well_id =
    Ret (Z.of_nat (nat_of_ascii row) - 65, PyStr.int col - 1) ∧
  0 ≤ Z.of_nat (nat_of_ascii row) - 65 ≤ 7 ∧
  -1 ≤ PyStr.int col - 1 ≤ 98.
Proof.
  intros Hpat. pose proof Hpat as (eol & Hrow & Hlen & Hall & _).
  unfold well_id_to_position. rewrite (findall_well_id_complete _ _ _ Hpat).
  rewrite (is_row_index _ Hrow).
  pose proof (int_two_digits col Hlen Hall) as Hint.
  unfold PyStr.is_row, PyStr.in_range in Hrow.
  apply andb_true_iff in Hrow as [Hlo%Nat.leb_le Hhi%Nat.leb_le].
  change (nat_of_ascii "A") with 65%nat in Hlo.
  change (nat_of_ascii "H") with 72%nat in Hhi.
  split; [| lia]. do 2 f_equal. lia.
Qed.

End WellId.

(** X13. [well_id_to_position] against its pattern
    [^([A-H])([0-9]{1,2})$]: on a well id that matches (a row letter and
    one or two digits, and for Python's [$] possibly one final newline) it
    returns the index of the row letter, from 0 to 7, and the column number
    minus one, from -1 (column [0] is not refused) to 98; on every other
    string it raises IndexError. It never raises ValueError. *)
Theorem well_id_to_position_matches_pattern (well_id : string) :
  (∀ row col,
     well_id_pattern well_id row col →
     well_id_to_position well_id =
       Ret (Z.of_nat (nat_of_ascii row) - 65, PyStr.int col - 1) ∧
     0 ≤ Z.of_nat (nat_of_ascii row) - 65 ≤ 7 ∧
     -1 ≤ PyStr.int col - 1 ≤ 98) ∧
  ((¬ ∃ row col, well_id_pattern well_id row col) →
   well_id_to_position well_id = Raise IndexError).
Proof.
  split; [apply well_id_to_position_on_pattern |].
  intros Hno. unfold well_id_to_position.
  destruct (findall_well_id well_id) as [|[row col] l] eqn:Hfind; [done |].
  apply findall_well_id_sound in Hfind as (r & -> & Hpat & _).
  exfalso. apply Hno. by exists r, col.
Qed.

Lemma parsed_well_id_position (label well_id : string) (site_num : Z) :
  parse_hcs_site_label label = Ret (well_id, site_num) →
  ∃ row_ind col_ind,
    well_id_to_position well_id = Ret (row_ind, col_ind) ∧
    0 ≤ row_ind ≤ 7 ∧ -1 ≤ col_ind ≤ 98.
Proof.
  unfold parse_hcs_site_label.
  destruct (findall_hcs_site_label label) as [|[w digits] l] eqn:Hfind; [done |].
  destruct (py_int digits) as [n|e]; [| done]. intros [= -> <-].
  apply findall_sound in Hfind as [(row & cols & eol & -> & Hrow & Hlen & Hcols & _) _].
  destruct (well_id_to_position_on_pattern (String row cols) row cols)
    as (Heq & Hr & Hc).
  { exists "". repeat split; auto. by rewrite append_empty_r. }
  eauto.
Qed.


(** X14. The well id that [parse_hcs_site_label] returns is one that
    [well_id_to_position] accepts: on every label that the first parses,
    the second returns a row from 0 to 7 and a column from -1 to 98, as
    [interpolate_focusdrive_positions_from_all] relies on when it calls one
    after the other. *)
Theorem parsed_well_id_has_position (label well_id : string) (site_num : Z) :
  parse_hcs_site_label label = Ret (well_id, site_num) →
  ∃ row_ind col_ind,
    well_id_to_position well_id = Ret (row_ind, col_ind) ∧
    0 ≤ row_ind ≤ 7 ∧ -1 ≤ col_ind ≤ 98.
Proof. apply parsed_well_id_position. Qed.

(** X15. On the 96 well ids of the mocked plate, in the order of
    [itertools.product('ABCDEFGH', range(1, 13))], [well_id_to_position]
    returns the row and the column of the well: the well of index [i] is
    at row [i / 12] and column [i mod 12]. *)
Theorem all_well_ids_positions (i : nat) (well_id : string) :
  Mock.all_well_ids !! i = Some well_id →
  well_id_to_position well_id = Ret (Z.of_nat (i / 12), Z.of_nat (i mod 12)).
Proof.
  intros Hi.
  assert (Hall : forallb (λ '(k, w),
                   match well_id_to_position w with
                   | Ret (r, c) => (r =? Z.of_nat (k / 12)) && (c =? Z.of_nat (k mod 12))
                   | Raise _ => false
                   end)
                   (imap pair Mock.all_well_ids) = true) by by vm_compute.
  rewrite forallb_forall in Hall.
  assert (Hin : In (i, well_id) (imap pair Mock.all_well_ids)).
  { apply list_elem_of_In, list_elem_of_lookup. exists i.
    by rewrite list_lookup_imap, Hi. }
  apply Hall in Hin. destruct (well_id_to_position well_id) as [[r c]|e]; [| done].
  apply andb_true_iff in Hin as [Hr%Z.eqb_eq Hc%Z.eqb_eq]. by rewrite Hr, Hc.
Qed.
Lemma parsed_well_id_has_position_witness :
  parse_hcs_site_label "H12-Site_3" = Ret ("H12", 3) ∧
  ∃ row_ind col_ind,
    well_id_to_position "H12" = Ret (row_ind, col_ind) ∧
    0 ≤ row_ind ≤ 7 ∧ -1 ≤ col_ind ≤ 98.
Proof.
  assert (H : parse_hcs_site_label "H12-Site_3" = Ret ("H12", 3)) by by vm_compute.
  split; [exact H | apply (parsed_well_id_has_position "H12-Site_3" "H12" 3 H)].
Defined.

Lemma all_well_ids_positions_witness :
  Mock.all_well_ids !! 95%nat = Some "H12" ∧
  well_id_to_position "H12" = Ret (Z.of_nat (95 / 12), Z.of_nat (95 mod 12)).
Proof.
  assert (H : Mock.all_well_ids !! 95%nat = Some "H12") by by vm_compute.
  split; [exact H | apply (all_well_ids_positions 95 "H12" H)].
Defined.
(** ** The FocusDrive positions written into a position list *)

Section Loops.

Context {S : Type}.

Lemma for_each_app {A} (xs ys : list A) (body : A → M S unit) s :
  for_each (xs ++ ys) body s =
  (for_each xs body ;; for_each ys body) s.
Proof.
  revert s. induction xs as [|x xs IH]; intros s; simpl.
  - unfold mbind, M_bind, mret, M_ret. done.
  - unfold mbind, M_bind in *. destruct (body x s) as [[[]|e] s1]; [apply IH | done].
Qed.

Lemma for_each_ext {A} (xs : list A) (f g : A → M S unit) s :
  (∀ x s', x ∈ xs → f x s' = g x s') → for_each xs f s = for_each xs g s.
Proof.
  revert s. induction xs as [|x xs IH]; intros s Hfg; simpl; [done |].
  unfold mbind, M_bind. rewrite (Hfg x) by apply list_elem_of_here.
  destruct (g x s) as [[[]|e] s1]; [| done].
  apply IH. intros y s' Hy. apply Hfg. by apply list_elem_of_further.
Qed.

Lemma for_each_fmap {A B} (h : A → B) (xs : list A) (body : B → M S unit) s :
  for_each (h <$> xs) body s = for_each xs (λ x, body (h x)) s.
Proof.
  revert s. induction xs as [|x xs IH]; intros s; simpl; [done |].
  unfold mbind, M_bind. destruct (body (h x) s) as [[[]|e] s1]; [apply IH | done].
Qed.

(** A loop over blocks of [n] consecutive numbers is a loop over the
    numbers. *)
Lemma for_each_blocks (n k : nat) (body : nat → M S unit) : ∀ b s,
  for_each (seq 0 k) (λ j, for_each (seq (b + n * j) n) body) s =
  for_each (seq b (k * n)) body s.
Proof.
  induction k as [|k IH]; intros b s; [done |].
  rewrite seq_S, for_each_app. simpl.
  replace (n + k * n)%nat with (k * n + n)%nat by lia.
  rewrite seq_app, for_each_app. unfold mbind, M_bind.
  rewrite IH. destruct (for_each (seq b (k * n)) body s) as [[[]|e] s1]; [| done].
  unfold mret, M_ret.
  replace (b + n * k)%nat with (b + k * n)%nat by lia.
  by destruct (for_each (seq (b + k * n) n) body s1) as [[[]|e] s2].
Qed.

End Loops.
Section Corners.

Variable interpolator : Z → Z → Q.

(** Entries appended at the indices below [n], one after the other. *)
Lemma append_devices_below (g : nat → gmap string pyval) (n : nat)
    (positions : list position_entry) :
  for_each (seq 0 n) (λ ind, append_device ind (g ind)) positions =
  (if (n <=? length positions)%nat then Ret tt else Raise IndexError,
   imap (λ ind p, if (ind <? n)%nat then with_device_entry (g ind) p else p) positions).
Proof.
  induction n as [|n IH].
  - simpl. unfold mret, M_ret. f_equal. apply list_eq. intros i.
    rewrite list_lookup_imap. by destruct (positions !! i).
  - rewrite seq_S, for_each_app. unfold mbind at 1, M_bind at 1. rewrite IH.
    cbn [for_each Nat.add].
    assert (Hsame : (length positions ≤ n)%nat →
              imap (λ ind p, if (ind <? n)%nat then with_device_entry (g ind) p else p)
                   positions =
              imap (λ ind p, if (ind <? S n)%nat then with_device_entry (g ind) p else p)
                   positions).
    { intros Hlen. apply list_eq. intros i. rewrite !list_lookup_imap.
      destruct (positions !! i) as [p|] eqn:Hi; [| done]. simpl.
      apply lookup_lt_Some in Hi.
      destruct (Nat.ltb_spec i n), (Nat.ltb_spec i (S n)); try done; lia. }
    destruct (Nat.leb_spec n (length positions)) as [Hle | Hgt].
    + unfold mbind, M_bind, append_device. rewrite list_lookup_imap.
      destruct (positions !! n) as [p|] eqn:Hn; cbn [fmap option_fmap option_map].
      * apply lookup_lt_Some in Hn as Hlt.
        destruct (Nat.leb_spec (S n) (length positions)); [| lia].
        unfold mret, M_ret. f_equal.
        apply list_eq. intros i. rewrite list_lookup_imap.
        destruct (decide (i = n)) as [-> | Hne].
        -- rewrite list_lookup_insert_eq by (rewrite length_imap; lia).
           rewrite Hn. simpl.
           destruct (Nat.ltb_spec n n), (Nat.ltb_spec n (S n)); try lia. done.
        -- rewrite list_lookup_insert_ne by done. rewrite list_lookup_imap.
           destruct (positions !! i) as [q|]; [| done]. simpl.
           destruct (Nat.ltb_spec i n), (Nat.ltb_spec i (S n)); try done; lia.
      * apply lookup_ge_None in Hn.
        destruct (Nat.leb_spec (S n) (length positions)); [lia |].
        f_equal. apply Hsame. lia.
    + destruct (Nat.leb_spec (S n) (length positions)); [lia |].
      f_equal. apply Hsame. lia.
Qed.

Lemma snake_config_block num_cols num_positions_per_well row_ind col_ind ind :
  (col_ind < num_cols)%nat →
  ind ∈ seq (num_positions_per_well * (row_ind * num_cols + col_ind))
            num_positions_per_well →
  snake_config interpolator num_cols num_positions_per_well ind =
  focus_drive_config
    (interpolator (Z.of_nat row_ind)
       (Z.of_nat (if Nat.even row_ind then ((num_cols - 1) - col_ind)%nat else col_ind))).
Proof.
  intros Hcol [Hlo Hhi]%elem_of_seq. unfold snake_config, well_of.
  assert (Hwell : (ind / num_positions_per_well = row_ind * num_cols + col_ind)%nat).
  { symmetry. apply (Nat.div_unique _ _ _ (ind - num_positions_per_well *
                                             (row_ind * num_cols + col_ind))); lia. }
  rewrite Hwell.
  assert (Hrow : ((row_ind * num_cols + col_ind) / num_cols = row_ind)%nat).
  { symmetry. apply (Nat.div_unique _ _ _ col_ind); lia. }
  assert (Hc : ((row_ind * num_cols + col_ind) mod num_cols = col_ind)%nat).
  { symmetry. apply (Nat.mod_unique _ _ row_ind); lia. }
  by rewrite Hrow, Hc.
Qed.

Lemma interpolate_from_corners_flat num_rows num_cols num_positions_per_well positions :
  interpolate_from_corners interpolator num_rows num_cols num_positions_per_well positions =
  for_each (seq 0 (num_rows * (num_cols * num_positions_per_well)))
           (λ ind, append_device ind
                     (snake_config interpolator num_cols num_positions_per_well ind))
           positions.
Proof.
  unfold interpolate_from_corners.
  rewrite <- (for_each_blocks (num_cols * num_positions_per_well) num_rows _ 0).
  apply for_each_ext. intros row_ind s _.
  rewrite <- (for_each_blocks num_positions_per_well num_cols).
  apply for_each_ext. intros col_ind s' [_ Hcol]%elem_of_seq.
  replace (0 + num_cols * num_positions_per_well * row_ind +
           num_positions_per_well * col_ind)%nat
    with (num_positions_per_well * (row_ind * num_cols + col_ind))%nat by lia.
  replace (seq (num_positions_per_well * (row_ind * num_cols + col_ind))
               num_positions_per_well)
    with (Nat.add (num_positions_per_well * (row_ind * num_cols + col_ind)) <$>
          seq 0 num_positions_per_well)
    by (rewrite fmap_add_seq; f_equal; lia).
  rewrite for_each_fmap.
  apply for_each_ext. intros pos_ind s'' [_ Hpos]%elem_of_seq. simpl.
  rewrite (snake_config_block _ _ row_ind col_ind); [done | lia |].
  apply elem_of_seq. lia.
Qed.

End Corners.
(** X16. The loop of [interpolate_focusdrive_positions_from_corners]
    appends one FocusDrive entry to each of the first
    [num_rows * num_cols * num_positions_per_well] positions of the list
    and leaves the others as they are; the entry of a position holds the
    value interpolated at the row of its well and, the list being in
    snake-like order, at the column counted from the right on the rows of
    even index. When the list is shorter than that, the positions it has
    get their entries and IndexError is raised. *)
Theorem interpolate_from_corners_appends (interpolator : Z → Z → Q)
    (num_rows num_cols num_positions_per_well : nat)
    (positions : list position_entry) :
  interpolate_from_corners interpolator num_rows num_cols num_positions_per_well
                           positions =
  (if (num_rows * num_cols * num_positions_per_well <=? length positions)%nat
   then Ret tt else Raise IndexError,
   imap (λ ind p,
           if (ind <? num_rows * num_cols * num_positions_per_well)%nat
           then with_device_entry
                  (snake_config interpolator num_cols num_positions_per_well ind) p
           else p)
        positions).
Proof.
  rewrite interpolate_from_corners_flat, append_devices_below.
  by rewrite Nat.mul_assoc.
Qed.

Section FromAll.

Variable interpolator : Z → Z → Q.

Local Abbreviation body :=
  (λ '(ind, pos),
     '(well_id, site_num) ← lift (parse_hcs_site_label (LABEL pos));
     '(x, y) ← lift (well_id_to_position well_id);
     let interpolated_position := interpolator x y in
     append_device ind (focus_drive_config interpolated_position)).

Lemma label_config_parsed label well_id site_num :
  parse_hcs_site_label label = Ret (well_id, site_num) →
  ∃ x y, well_id_to_position well_id = Ret (x, y) ∧
         label_config interpolator label = Some (focus_drive_config (interpolator x y)).
Proof.
  intros Hparse.
  destruct (parsed_well_id_position _ _ _ Hparse) as (x & y & Hpos & _).
  exists x, y. split; [done |]. unfold label_config. by rewrite Hparse, Hpos.
Qed.

Lemma append_device_middle (done_ todo : list position_entry) p config :
  append_device (length done_) config (done_ ++ p :: todo) =
  (Ret tt, (done_ ++ [with_device_entry config p]) ++ todo).
Proof.
  unfold append_device. rewrite lookup_app_r, Nat.sub_diag by lia. simpl.
  f_equal. rewrite insert_app_r_alt, Nat.sub_diag by lia.
  by rewrite <- app_assoc.
Qed.

Lemma from_all_parsed todo : ∀ done_ : list position_entry,
  Forall (λ p, ∃ well_id site_num,
            parse_hcs_site_label (LABEL p) = Ret (well_id, site_num)) todo →
  for_each (enumerate_entries (length done_) todo) body (done_ ++ todo) =
  (Ret tt, done_ ++ (with_label_config interpolator <$> todo)).
Proof.
  induction todo as [|p todo IH]; intros done_ Hall; [done |].
  apply Forall_cons in Hall as [(well_id & site_num & Hparse) Hall].
  destruct (label_config_parsed _ _ _ Hparse) as (x & y & Hpos & Hconfig).
  cbn [enumerate_entries for_each]. unfold mbind at 1, M_bind at 1.
  unfold mbind at 1, M_bind at 1, lift at 1. rewrite Hparse.
  unfold mbind at 1, M_bind at 1, lift at 1. rewrite Hpos.
  rewrite append_device_middle. cbv beta iota.
  specialize (IH (done_ ++ [with_device_entry (focus_drive_config (interpolator x y)) p])
                 Hall).
  rewrite length_app, Nat.add_1_r in IH. refine (eq_trans IH _).
  rewrite <- app_assoc. simpl. unfold with_label_config at 2. by rewrite Hconfig.
Qed.

Lemma from_all_unparsed pre p post : ∀ done_ e,
  Forall (λ p, ∃ well_id site_num,
            parse_hcs_site_label (LABEL p) = Ret (well_id, site_num)) pre →
  parse_hcs_site_label (LABEL p) = Raise e →
  for_each (enumerate_entries (length done_) (pre ++ p :: post)) body
           (done_ ++ pre ++ p :: post) =
  (Raise e, done_ ++ (with_label_config interpolator <$> pre) ++ p :: post).
Proof.
  induction pre as [|q pre IH]; intros done_ e Hall Hfail.
  - cbn [app enumerate_entries for_each]. unfold mbind at 1, M_bind at 1.
    unfold mbind at 1, M_bind at 1, lift at 1. by rewrite Hfail.
  - apply Forall_cons in Hall as [(well_id & site_num & Hparse) Hall].
    destruct (label_config_parsed _ _ _ Hparse) as (x & y & Hpos & Hconfig).
    cbn [app enumerate_entries for_each]. unfold mbind at 1, M_bind at 1.
    unfold mbind at 1, M_bind at 1, lift at 1. rewrite Hparse.
    unfold mbind at 1, M_bind at 1, lift at 1. rewrite Hpos.
    rewrite append_device_middle. cbv beta iota.
    specialize (IH (done_ ++ [with_device_entry (focus_drive_config (interpolator x y)) q])
                   e Hall Hfail).
    rewrite length_app, Nat.add_1_r in IH. rewrite <- app_assoc in IH.
    cbn [app] in IH. rewrite <- app_assoc. cbn [app]. refine (eq_trans IH _).
    rewrite <- app_assoc. simpl. unfold with_label_config at 2. by rewrite Hconfig.
Qed.

End FromAll.

(** X17. The loop of [interpolate_focusdrive_positions_from_all] on a
    list whose labels are all HCS site labels returns, and appends to every
    position one FocusDrive entry, with the value interpolated at the row
    and column of the well of its label. *)
Theorem interpolate_from_all_appends (interpolator : Z → Z → Q)
    (positions : list position_entry) :
  Forall (λ p, ∃ well_id site_num,
            parse_hcs_site_label (LABEL p) = Ret (well_id, site_num)) positions →
  interpolate_from_all interpolator positions =
  (Ret tt, with_label_config interpolator <$> positions).
Proof. intros Hall. apply (from_all_parsed interpolator positions [] Hall). Qed.

(** X18. At the first position whose label is not an HCS site label, the
    loop of [interpolate_focusdrive_positions_from_all] raises IndexError:
    the positions before it have their FocusDrive entry, the others have
    none, and the function does not get to write the list to a file. *)
Theorem interpolate_from_all_raises (interpolator : Z → Z → Q)
    (pre post : list position_entry) (p : position_entry) :
  Forall (λ p, ∃ well_id site_num,
            parse_hcs_site_label (LABEL p) = Ret (well_id, site_num)) pre →
  (¬ ∃ well_id digits, hcs_site_pattern (LABEL p) well_id digits) →
  interpolate_from_all interpolator (pre ++ p :: post) =
  (Raise IndexError, (with_label_config interpolator <$> pre) ++ p :: post).
Proof.
  intros Hall Hno. apply (from_all_unparsed interpolator pre p post [] IndexError Hall).
  unfold parse_hcs_site_label.
  destruct (findall_hcs_site_label (LABEL p)) as [|[well_id digits] l] eqn:Hfind; [done |].
  apply findall_sound in Hfind as [Hpat _]. exfalso. apply Hno. eauto.
Qed.
Lemma interpolate_from_all_appends_witness :
  interpolate_from_all (λ x y, inject_Z (7500 + 10 * x + y))
    [{| LABEL := "A1-Site_0"; DEVICES := [] |};
     {| LABEL := "B3-Site_1"; DEVICES := [] |}] =
  (Ret tt,
   with_label_config (λ x y, inject_Z (7500 + 10 * x + y)) <$>
     [{| LABEL := "A1-Site_0"; DEVICES := [] |};
      {| LABEL := "B3-Site_1"; DEVICES := [] |}]).
Proof.
  apply (interpolate_from_all_appends (λ x y, inject_Z (7500 + 10 * x + y))).
  repeat constructor; simpl; eexists _, _; by vm_compute.
Defined.

Lemma interpolate_from_all_raises_witness :
  interpolate_from_all (λ x y, inject_Z (7500 + 10 * x + y))
    ([{| LABEL := "A1-Site_0"; DEVICES := [] |}] ++
     {| LABEL := "Pos_000_000"; DEVICES := [] |} :: []) =
  (Raise IndexError,
   (with_label_config (λ x y, inject_Z (7500 + 10 * x + y)) <$>
      [{| LABEL := "A1-Site_0"; DEVICES := [] |}]) ++
   {| LABEL := "Pos_000_000"; DEVICES := [] |} :: []).
Proof.
  apply (interpolate_from_all_raises (λ x y, inject_Z (7500 + 10 * x + y))).
  - repeat constructor; simpl; eexists _, _; by vm_compute.
  - intros (well_id & digits & Hpat). apply findall_complete in Hpat.
    vm_compute in Hpat. discriminate Hpat.
Defined.
(** ** The path of the interpolated position list *)

Section NewFilepath.

Lemma word_not_dot s :
  PyStr.all_chars is_word s = true → PyStr.contains "." s = false.
Proof.
  intros Hs. apply (contains_absent is_word); [done | done].
Qed.

Lemma prefix_dot s : String.prefix "." (String "." s) = true.
Proof. simpl. destruct (ascii_dec "." ".") as [|Hne]; [by destruct s | by destruct Hne]. Qed.

Lemma contains_dot_app stem s :
  PyStr.contains "." (stem +:+ String "." s) = true.
Proof.
  induction stem as [|c stem IH].
  { change ("" +:+ ?t) with t. cbn [PyStr.contains]. by rewrite prefix_dot. }
  change (String c stem +:+ ?t) with (String c (stem +:+ t)).
  cbn [PyStr.contains]. rewrite IH. apply orb_true_r.
Qed.

Lemma after_last_dot_app stem ext :
  PyStr.contains "." ext = false →
  after_last_dot (stem +:+ String "." ext) = ext.
Proof.
  intros Hext. induction stem as [|c stem IH].
  - change ("" +:+ ?t) with t. cbn [after_last_dot]. by rewrite Hext.
  - change (String c stem +:+ ?t) with (String c (stem +:+ t)).
    cbn [after_last_dot]. by rewrite contains_dot_app.
Qed.

Lemma after_last_dot_none s :
  PyStr.contains "." s = false → after_last_dot s = s.
Proof.
  destruct s as [|c s]; [done |]. cbn [PyStr.contains after_last_dot].
  intros [Hc Hs]%orb_false_iff. rewrite Hs.
  destruct (Ascii.eqb_spec c ".") as [-> |]; [| done].
  by rewrite prefix_dot in Hc.
Qed.

Lemma eqb_longer (a b : string) :
  (String.length b < String.length a)%nat → String.eqb a b = false.
Proof.
  intros Hlen. destruct (String.eqb_spec a b) as [-> |]; [lia | done].
Qed.

Lemma sub_before_end_short lit repl s :
  (String.length s ≤ String.length lit)%nat → sub_before_end lit repl s = s.
Proof.
  induction s as [|c s IH]; [done |]. simpl. intros Hlen.
  rewrite (String.eqb_sym s lit), (eqb_longer lit s) by lia.
  rewrite (String.eqb_sym s), eqb_longer by (rewrite length_append; simpl; lia).
  rewrite !andb_false_r. f_equal. apply IH. lia.
Qed.

Lemma word_last_not_newline ext : ∀ c,
  c ≠ newline →
  PyStr.all_chars is_word ext = true →
  String c ext = ext +:+ String newline "" → False.
Proof.
  induction ext as [|a ext IH]; intros c Hc Hword Heq.
  - change ("" +:+ ?t) with t in Heq. by injection Heq.
  - simpl in Hword. apply andb_true_iff in Hword as [Ha Hword].
    change (String a ext +:+ ?t) with (String a (ext +:+ t)) in Heq.
    injection Heq as -> Heq. apply (IH a); [| done | done].
    intros ->. by vm_compute in Ha.
Qed.

Lemma sub_before_end_stem stem ext repl :
  PyStr.all_chars is_word ext = true →
  sub_before_end ext repl (stem +:+ String "." ext) = stem +:+ repl.
Proof.
  intros Hword. induction stem as [|c stem IH].
  - change ("" +:+ ?t) with t. cbn [sub_before_end].
    by rewrite String.eqb_refl.
  - change (String c stem +:+ ?t) with (String c (stem +:+ t)).
    cbn [sub_before_end]. rewrite IH.
    rewrite eqb_longer by (rewrite length_append; simpl; lia).
    destruct (String.eqb_spec (stem +:+ String "." ext) (ext +:+ String newline ""))
      as [Heq |]; [| by rewrite !andb_false_r].
    exfalso. assert (Hlen := f_equal String.length Heq).
    rewrite !length_append in Hlen. simpl in Hlen.
    destruct stem as [|d stem]; [| simpl in Hlen; lia].
    change ("" +:+ ?t) with t in Heq. by eapply (word_last_not_newline ext ".").
Qed.

End NewFilepath.

(** X19. The path under which an interpolated position list is saved, for
    an extension made of letters, digits and underscores: the marker
    ([_INTERPOLATED], [_INTERPOLATED-FROM-ALL]) goes in front of the last
    dot of the path. A path made of such characters only, without a dot, is
    returned as it is: the list is then saved over the file it was read
    from. *)
Theorem new_filepath_marks_extension (marker stem ext : string) :
  PyStr.all_chars is_word ext = true →
  new_filepath marker (stem +:+ String "." ext) = stem +:+ marker +:+ String "." ext ∧
  new_filepath marker ext = ext.
Proof.
  intros Hword. pose proof (word_not_dot _ Hword) as Hdot. unfold new_filepath. split.
  - rewrite after_last_dot_app by done. by rewrite sub_before_end_stem.
  - rewrite after_last_dot_none by done. by apply sub_before_end_short.
Qed.

Lemma new_filepath_marks_extension_witness :
  new_filepath "_INTERPOLATED" ("plates/half_plate" +:+ String "." "pos") =
    "plates/half_plate" +:+ "_INTERPOLATED" +:+ String "." "pos" ∧
  new_filepath "_INTERPOLATED" "pos" = "pos".
Proof.
  apply (new_filepath_marks_extension "_INTERPOLATED" "plates/half_plate" "pos").
  reflexivity.
Defined.
(** ** The order of the positions and of the calls *)

Section Order.

Context {D : Type} `{!Microscope D} `{!Operations D}.
Variable MAX_NUM_FOV_PER_WELL : Z.
Variable confluency_test_method : D → result bool * D.

Local Abbreviation step := (position_step MAX_NUM_FOV_PER_WELL confluency_test_method).

Ltac order_tac :=
  simpl; rewrite <- ?app_assoc; simpl;
  eexists; split; [try reflexivity; symmetry; apply app_nil_r |];
  split; [first [by left | by right; eauto] |];
  unfold in_order; simpl; split; [lia | done].

Lemma position_step_order position_index label (w : world D) :
  wp (step (position_index, label))
     (λ r w', ∃ evs,
          trace w' = trace w ++ evs ∧
          (visited evs = [label] ∨ visited evs = [] ∧ ∃ e, r = Raise e) ∧
          in_order evs ∧
          (r = Ret tt →
           count_calls (is_acquire_stack C488) evs =
           count_calls (is_acquire_stack C405) evs)) w.
Proof.
  unfold position_step.
  repeat (wp_step; try (order_tac; fail)).
Qed.

Lemma in_order_app evs1 evs2 : in_order evs1 → in_order evs2 → in_order (evs1 ++ evs2).
Proof.
  intros (? & ? & ? & ?) (? & ? & ? & ?). unfold in_order.
  rewrite visited_app, length_app, !count_calls_app. lia.
Qed.

Lemma positions_order labels : ∀ start (w : world D),
  wp (for_each (enumerate_from start labels) step)
     (λ r w', ∃ evs,
          trace w' = trace w ++ evs ∧
          visited evs `prefix_of` labels ∧
          (r = Ret tt → visited evs = labels) ∧
          in_order evs ∧
          (r = Ret tt →
           count_calls (is_acquire_stack C488) evs =
           count_calls (is_acquire_stack C405) evs)) w.
Proof.
  induction labels as [|label labels IH]; intros start w; simpl.
  - apply wp_ret. exists []. rewrite app_nil_r. repeat split; simpl; try done; lia.
  - apply wp_bind. eapply wp_mono; [apply position_step_order |].
    intros r w1 (evs & Ht & Hv & Ho & Hpair).
    destruct r as [[]|e].
    + destruct Hv as [Hv | [_ [e He]]]; [| done].
      eapply wp_mono; [apply IH |].
      intros r' w2 (evs' & Ht' & Hpre & Hall & Ho' & Hpair').
      exists (evs ++ evs'). rewrite Ht', Ht, app_assoc, visited_app, Hv.
      split; [done |]. split; [by apply (prefix_app [label]) |].
      split; [by intros ->%Hall |]. split; [by apply in_order_app |].
      intros Hr. rewrite !count_calls_app, Hpair, Hpair' by done. done.
    + exists evs. split; [done |]. split.
      * destruct Hv as [-> | [-> _]]; [by exists labels | apply prefix_nil].
      * done.
Qed.

End Order.

(** X20. On any instrument, [run] sends the stage to the positions of the
    list in their order, each once, up to the position at which a call
    raises: the labels of the moves in the log are a prefix of the position
    list, and the whole list when the run returns. *)
Theorem positions_visited_in_order
    {D : Type} `{!Microscope D} `{!Operations D}
    (MAX_NUM_FOV_PER_WELL : Z) (confluency_test_method : D → result bool * D)
    (w : world D) :
  ∃ evs,
    trace (run MAX_NUM_FOV_PER_WELL confluency_test_method w).2 = trace w ++ evs ∧
    visited evs `prefix_of` getPositionList (device w) ∧
    ((run MAX_NUM_FOV_PER_WELL confluency_test_method w).1 = Ret tt →
     visited evs = getPositionList (device w)).
Proof.
  change (wp (run MAX_NUM_FOV_PER_WELL confluency_test_method)
             (λ r w', ∃ evs, trace w' = trace w ++ evs ∧
                  visited evs `prefix_of` getPositionList (device w) ∧
                  (r = Ret tt → visited evs = getPositionList (device w))) w).
  unfold run. wp_step. wp_step. wp_step.
  eapply wp_mono; [apply positions_order |].
  intros r w1 (evs & Ht & Hpre & Hall & _). destruct r as [[]|e]; [| by eauto].
  eapply wp_mono; [apply cleanup_freezes |].
  intros r2 w2 Hend. destruct (datastore (self w1)) as [ds|].
  - destruct Hend as [o Ht2]. exists (evs ++ [(Freeze, o)]).
    rewrite Ht2, Ht, app_assoc, visited_app. simpl. rewrite app_nil_r. auto.
  - destruct Hend as [_ Ht2]. exists evs. rewrite Ht2. auto.
Qed.

(** X21. On any instrument, the calls of [run] come in the order of its
    loop: the log holds no more acquisitions in channel 488 than in channel
    405, no more of these than confluency tests, no more confluency tests
    than calls of the autofocus, and no more of these than moves to a
    position; when the run returns, the stacks of the two channels were
    acquired in pairs. *)
Theorem calls_in_loop_order
    {D : Type} `{!Microscope D} `{!Operations D}
    (MAX_NUM_FOV_PER_WELL : Z) (confluency_test_method : D → result bool * D)
    (w : world D) :
  ∃ evs,
    trace (run MAX_NUM_FOV_PER_WELL confluency_test_method w).2 = trace w ++ evs ∧
    in_order evs ∧
    ((run MAX_NUM_FOV_PER_WELL confluency_test_method w).1 = Ret tt →
     count_calls (is_acquire_stack C488) evs =
     count_calls (is_acquire_stack C405) evs).
Proof.
  change (wp (run MAX_NUM_FOV_PER_WELL confluency_test_method)
             (λ r w', ∃ evs, trace w' = trace w ++ evs ∧ in_order evs ∧
                  (r = Ret tt →
                   count_calls (is_acquire_stack C488) evs =
                   count_calls (is_acquire_stack C405) evs)) w).
  unfold run. wp_step. wp_step. wp_step.
  eapply wp_mono; [apply positions_order |].
  intros r w1 (evs & Ht & _ & _ & Ho & Hpair). destruct r as [[]|e]; [| by eauto].
  eapply wp_mono; [apply cleanup_freezes |].
  intros r2 w2 Hend. destruct (datastore (self w1)) as [ds|].
  - destruct Hend as [o Ht2]. exists (evs ++ [(Freeze, o)]).
    rewrite Ht2, Ht, app_assoc. split; [done |]. split.
    + apply in_order_app; [done |]. unfold in_order. simpl. lia.
    + intros _. rewrite !count_calls_app, Hpair by done. done.
  - destruct Hend as [_ Ht2]. exists evs. rewrite Ht2. auto.
Qed.

(** * The claims on whole runs *)

(** ** C4 *)

(** A program made in environment [dev] holds no datastore: its run of the
    end-to-end scenario visits the six positions, invokes the autoexposure
    three times and acquires six stacks in each channel, and never calls
    [freeze]. With a per-well maximum of 0 the same run visits the six
    positions and invokes the autoexposure at none. On one well whose second
    label is [A1-Site_01] the autoexposure is invoked at both sites. *)
Lemma dev_run_finalizes_nothing :
  __init__ None dev = Ret (self three_wells_two_sites) ∧
  datastore (self three_wells_two_sites) = None ∧
  (run_three_wells_two_sites 1).1 = Ret tt ∧
  visited (trace (run_three_wells_two_sites 1).2) =
    ["A1-Site_0"; "A1-Site_1"; "A2-Site_0"; "A2-Site_1"; "A3-Site_0"; "A3-Site_1"] ∧
  count_calls is_autoexposure (trace (run_three_wells_two_sites 1).2) = 3%nat ∧
  count_calls (is_acquire_stack C405) (trace (run_three_wells_two_sites 1).2) = 6%nat ∧
  count_calls (is_acquire_stack C488) (trace (run_three_wells_two_sites 1).2) = 6%nat ∧
  count_calls is_freeze (trace (run_three_wells_two_sites 1).2) = 0%nat ∧
  (run_three_wells_two_sites 0).1 = Ret tt ∧
  length (visited (trace (run_three_wells_two_sites 0).2)) = 6%nat ∧
  count_calls is_autoexposure (trace (run_three_wells_two_sites 0).2) = 0%nat ∧
  run_site_0_then_site_01.1 = Ret tt ∧
  visited (trace run_site_0_then_site_01.2) = ["A1-Site_0"; "A1-Site_01"] ∧
  count_calls is_autoexposure (trace run_site_0_then_site_01.2) = 2%nat.
Proof. repeat split; vm_compute; reflexivity. Qed.

(** C4 (as amended). A run in which no call raises and the confluency test
    accepts every position, with a positive per-well maximum, over the
    positions of [W] wells of [S] sites each, the first label of each well,
    and no other, holding a new-well marker: the run returns; it visits the
    [W * S] positions, in order; it invokes the autoexposure [W] times, once
    per well, at the first site of the well; every stack of channel 488 is
    acquired with the exposure time and laser power found at the first site
    of its well; and [freeze] is called once, as the last call of the run,
    when the program holds a datastore, and is not called when it holds
    none. *)
Theorem fault_free_plate_run
    {D : Type} `{!Microscope D} `{!Operations D}
    (MAX_NUM_FOV_PER_WELL : Z) (confluency_test_method : D → result bool * D)
    (I : D → Prop) (wells : list (list string)) (W S : nat) (w : world D) :
  0 < MAX_NUM_FOV_PER_WELL →
  fault_free I (concat wells) confluency_test_method →
  has_autofocus_keys (CHANNEL_405 w) →
  I (device w) →
  getPositionList (device w) = concat wells →
  length wells = W →
  Forall (λ well, length well = S ∧ is_well well) wells →
  (run MAX_NUM_FOV_PER_WELL confluency_test_method w).1 = Ret tt ∧
  ∃ evs exposures,
    trace (run MAX_NUM_FOV_PER_WELL confluency_test_method w).2 =
      trace w ++ evs ++ match datastore (self w) with
                        | Some _ => [(Freeze, Returned)]
                        | None => []
                        end ∧
    visited evs = getPositionList (device w) ∧
    length (visited evs) = (W * S)%nat ∧
    count_calls is_freeze evs = 0%nat ∧
    count_calls is_autoexposure evs = W ∧
    length exposures = W ∧
    (∀ current,
       at_positions exposure_returned current evs = first_sites wells exposures) ∧
    (∀ current,
       at_positions exposure_used current evs = plate_sites wells exposures).
Proof.
  intros HMAX Hfree Hkeys HI Hlist HW Hwells.
  destruct (run_fault_free_spec MAX_NUM_FOV_PER_WELL confluency_test_method I wells w)
    as (Hr & evs & exposures & Ht & Hlen & Hv & Hf & Ha & Hret & Hused); try done.
  { eapply Forall_impl; [exact Hwells |]. by intros well [_ ?]. }
  split; [exact Hr |]. exists evs, exposures.
  repeat split; try done; try congruence.
  rewrite Hv. clear -HW Hwells. subst W.
  induction Hwells as [| well wells' [Hlen _] _ IH]; [done |].
  simpl. rewrite length_app, IH, Hlen. lia.
Qed.

Lemma fault_free_plate_run_witness :
  (@run _ Mock.microscope (Mock.operations Mock.Propagate example_exposure)
        1 confluency_test three_wells_two_sites_prod).1 = Ret tt ∧
  ∃ evs exposures,
    trace (@run _ Mock.microscope (Mock.operations Mock.Propagate example_exposure)
                1 confluency_test three_wells_two_sites_prod).2 =
      trace three_wells_two_sites_prod ++ evs ++
      match datastore (self three_wells_two_sites_prod) with
      | Some _ => [(Freeze, Returned)]
      | None => []
      end ∧
    visited evs = getPositionList (device three_wells_two_sites_prod) ∧
    length (visited evs) = (3 * 2)%nat ∧
    count_calls is_freeze evs = 0%nat ∧
    count_calls is_autoexposure evs = 3%nat ∧
    length exposures = 3%nat ∧
    (∀ current,
       at_positions exposure_returned current evs =
         first_sites (mock_wells 3 2) exposures) ∧
    (∀ current,
       at_positions exposure_used current evs =
         plate_sites (mock_wells 3 2) exposures).
Proof.
  apply (fault_free_plate_run
           (Operations0 := Mock.operations Mock.Propagate example_exposure)
           1 confluency_test (mock_idle []) (mock_wells 3 2) 3 2
           three_wells_two_sites_prod).
  - lia.
  - apply mock_fault_free. intros label Hin.
    apply (mock_wells_outside [] 3 2); [| | done].
    + intros well_id _. apply not_elem_of_nil.
    + intros [|[|n]] Hn; [by apply Nat.leb_le; vm_compute.. | lia].
  - repeat split; by eexists.
  - apply mock_interface_idle.
  - by vm_compute.
  - reflexivity.
  - eapply Forall_impl; [apply (mock_wells_are_wells 3 2); lia |].
    by intros well [? ?].
Defined.

(** ** C8 *)

Section NoSkip.

Context {D : Type} `{!Microscope D} `{!Operations D}.
Variable MAX_NUM_FOV_PER_WELL : Z.
Variable confluency_test_method : D → result bool * D.

Local Abbreviation step := (position_step MAX_NUM_FOV_PER_WELL confluency_test_method).

(** Closes the goals on an explicit log at the end of a path. *)
Ltac explicit_log_tac :=
  lazymatch goal with
  | |- no_fault _ => by repeat constructor
  | |- ∃ tr', no_fault tr' ∧ (?evs = tr' ∨ _) =>
      first [ exists evs; split; [by repeat constructor | by left]
            | exists (removelast evs); simpl; split;
              [by repeat constructor | right; eexists; reflexivity] ]
  end.

Ltac lookup_tac :=
  repeat match goal with
  | H : (_ :: _) !! ?i = Some _ |- _ =>
      destruct i as [|i]; simpl in H;
      [try discriminate H; try (injection H as <- <-) | try discriminate H]
  end.

Lemma position_step_added position (w : world D) :
  wp (step position) (λ r w', added r w w') w.
Proof.
  destruct position as [position_index label]. unfold position_step.
  repeat wp_step.
  all: unfold added; simpl; rewrite <- ?app_assoc; simpl;
       eexists; (split; [try reflexivity; symmetry; apply app_nil_r |]).
  all: split; [explicit_log_tac |].
  all: split; [intros i c o Hi Hc | intros i Hi].
  all: lookup_tac; try discriminate.
  all: try (simpl; eauto; fail).
  all: try (eexists _, _; split; reflexivity).
Qed.

Lemma no_fault_lookup tr i c e : no_fault tr → tr !! i = Some (c, Raised e) → False.
Proof.
  intros Htr Hi. unfold no_fault in Htr. rewrite Forall_lookup in Htr.
  by specialize (Htr _ _ Hi).
Qed.

Lemma lookup_app_next (evs1 evs2 : list event) i ev :
  (length evs1 ≤ i)%nat → evs2 !! S (i - length evs1) = Some ev →
  (evs1 ++ evs2) !! S i = Some ev.
Proof.
  intros Hle Hev. rewrite lookup_app_r by lia.
  by replace (S i - length evs1)%nat with (S (i - length evs1)) by lia.
Qed.

Lemma no_skip_app evs1 evs2 :
  no_fault evs1 → no_skip evs1 → no_skip evs2 → no_skip (evs1 ++ evs2).
Proof.
  intros Hnf [Hf1 Ha1] [Hf2 Ha2]. split.
  - intros i c o [Hi | [Hle Hi]]%lookup_app_Some Hc.
    + specialize (Hf1 _ _ _ Hi Hc).
      destruct o as [| | |e]; [| | | by destruct (no_fault_lookup _ _ _ _ Hnf Hi)].
      all: destruct Hf1 as [o' Ho']; exists o'; by apply lookup_app_l_Some.
    + specialize (Hf2 _ _ _ Hi Hc).
      destruct o as [| | |e].
      1-3: destruct Hf2 as [o' Ho']; exists o'; by apply lookup_app_next.
      unfold autofocus_followed, event in *. rewrite length_app. lia.
  - intros i [Hi | [Hle Hi]]%lookup_app_Some.
    + destruct (Ha1 _ Hi) as (c & o & Hnext & Hc). exists c, o.
      split; [by apply lookup_app_l_Some | done].
    + destruct (Ha2 _ Hi) as (c & o & Hnext & Hc). exists c, o.
      split; [by apply lookup_app_next | done].
Qed.

Lemma well_logged_app (r : result unit) evs1 evs2 :
  no_fault evs1 → well_logged r evs2 → well_logged r (evs1 ++ evs2).
Proof.
  intros Hnf. destruct r as [[]|e]; simpl.
  - intros Hnf2. by apply Forall_app.
  - intros (tr' & Htr' & Hevs2). exists (evs1 ++ tr').
    split; [by apply Forall_app |].
    destruct Hevs2 as [-> | [c ->]]; [by left | right].
    exists c. by rewrite app_assoc.
Qed.

Lemma added_refl (w : world D) : added (Ret tt) w w.
Proof.
  exists []. rewrite app_nil_r. repeat split; try constructor.
  - by intros i c o Hi.
  - by intros i Hi.
Qed.

Lemma added_trans r (w w1 w2 : world D) :
  added (Ret tt) w w1 → added r w1 w2 → added r w w2.
Proof.
  intros (evs1 & Ht1 & Hl1 & Hs1) (evs2 & Ht2 & Hl2 & Hs2).
  exists (evs1 ++ evs2). rewrite Ht2, Ht1, app_assoc.
  split; [done |]. split; [by apply well_logged_app | by apply no_skip_app].
Qed.

Lemma positions_added positions : ∀ w : world D,
  wp (for_each positions step) (λ r w', added r w w') w.
Proof.
  induction positions as [|position positions IH]; intros w; simpl.
  - apply wp_ret, added_refl.
  - apply wp_bind. eapply wp_mono; [apply position_step_added |].
    intros [[]|e] w1 Hw1; [| done].
    eapply wp_mono; [apply IH |]. intros r w2. by apply added_trans.
Qed.

Lemma cleanup_added (w : world D) : wp cleanup (λ r w', added r w w') w.
Proof.
  unfold cleanup. repeat wp_step.
  all: unfold added; simpl;
       eexists; (split; [try reflexivity; symmetry; apply app_nil_r |]).
  all: split; [explicit_log_tac |].
  all: split; [intros i c o Hi Hc | intros i Hi].
  all: lookup_tac; try discriminate.
Qed.

Lemma run_added (w : world D) :
  wp (run MAX_NUM_FOV_PER_WELL confluency_test_method) (λ r w', added r w w') w.
Proof.
  unfold run. wp_step. wp_step. wp_step.
  eapply wp_mono; [apply positions_added |].
  intros [[]|e] w1 Hw1; [| done].
  eapply wp_mono; [apply cleanup_added |]. intros r w2. by apply added_trans.
Qed.

End NoSkip.


Section AlwaysFail.

Lemma fullFocus_with_wells wells m :
  Mock.fullFocus (with_always_fail_in_wells wells m) =
  ((Mock.fullFocus m).1, with_always_fail_in_wells wells (Mock.fullFocus m).2).
Proof. unfold Mock.fullFocus. simpl. by repeat case_match. Qed.

Lemma repeated_fullFocus_with_wells wells n : ∀ m,
  repeated_calls Mock.fullFocus n (with_always_fail_in_wells wells m) =
  ((repeated_calls Mock.fullFocus n m).1,
   with_always_fail_in_wells wells (repeated_calls Mock.fullFocus n m).2).
Proof.
  induction n as [|n IH]; intros m; [done |].
  cbn [repeated_calls]. rewrite fullFocus_with_wells.
  destruct (Mock.fullFocus m) as [r m1]. cbn [fst snd]. rewrite IH.
  by destruct (repeated_calls Mock.fullFocus n m1).
Qed.

Lemma getPosition_with_wells ind label well_id site_num m :
  parse_hcs_site_label label = Ret (well_id, site_num) →
  well_id ∉ Mock._afc_always_fail_in_wells m →
  (Mock.getPosition ind label m).2 =
  with_always_fail_in_wells (Mock._afc_always_fail_in_wells m)
    (Mock.getPosition ind label (with_always_fail_in_wells [] m)).2.
Proof.
  intros Hparse Hout. unfold Mock.getPosition, Mock.set_position_ind.
  rewrite Hparse. unfold with_always_fail_in_wells, Mock.in_wells. simpl.
  by rewrite (bool_decide_eq_false_2 _ Hout).
Qed.

End AlwaysFail.

(** With [afc_always_fail_in_wells=['B2']] on fifteen wells of one site, of
    which B2 is the fourteenth and B3 the last: when [operations.autofocus]
    lets the fault of [fullFocus] through, the run raises at the position
    of B2, its last call being that autofocus, and the position of B3 is
    never visited; when it catches the fault and returns, the run returns
    and the stacks of the position of B2 are acquired like the others. *)
Lemma always_fail_in_B2_is_not_skipped :
  drop 13 (getPositionList (device always_fail_in_B2)) = ["B2-Site_0"; "B3-Site_0"] ∧
  (run_always_fail_in_B2 Mock.Propagate).1 = Raise Py4JJavaError ∧
  drop 13 (visited (trace (run_always_fail_in_B2 Mock.Propagate).2)) = ["B2-Site_0"] ∧
  (λ ev : event, (is_autofocus ev.1, ev.2)) <$>
    last (trace (run_always_fail_in_B2 Mock.Propagate).2) =
    Some (true, Raised Py4JJavaError) ∧
  (run_always_fail_in_B2 Mock.Swallow).1 = Ret tt ∧
  drop 13 (at_positions acquisition_488 None
             (trace (run_always_fail_in_B2 Mock.Swallow).2)).*1 =
    ["B2-Site_0"; "B3-Site_0"].
Proof. repeat split; vm_compute; reflexivity. Qed.

(** C8 (as amended). After [getPosition] at a label of a well that is
    among [_afc_always_fail_in_wells], every call of [fullFocus] raises;
    at a label of another well the calls of [fullFocus] give what they give
    with an empty list, so that the other wells are unaffected. The run
    itself skips no position on a fault of the autofocus, whatever
    [operations.autofocus] does with it: a call of the loop that raised is
    the last entry of the log and the run raises what it raised, so that no
    later position is visited; a call of the autofocus that returned is
    followed by the confluency test, and a confluency test that accepted by
    the autoexposure or the acquisition of the stacks. *)
Theorem always_fail_wells_are_not_skipped
    {D : Type} `{!Microscope D} `{!Operations D}
    (MAX_NUM_FOV_PER_WELL : Z) (confluency_test_method : D → result bool * D)
    (w : world D)
    (ind : nat) (label well_id : string) (site_num : Z) (m : Mock.t) :
  parse_hcs_site_label label = Ret (well_id, site_num) →
  (well_id ∈ Mock._afc_always_fail_in_wells m →
   ∀ n, (repeated_calls Mock.fullFocus n (Mock.getPosition ind label m).2).1 =
        replicate n (Raise Py4JJavaError)) ∧
  (well_id ∉ Mock._afc_always_fail_in_wells m →
   ∀ n, repeated_calls Mock.fullFocus n (Mock.getPosition ind label m).2 =
        let without :=
          repeated_calls Mock.fullFocus n
            (Mock.getPosition ind label (with_always_fail_in_wells [] m)).2 in
        (without.1,
         with_always_fail_in_wells (Mock._afc_always_fail_in_wells m) without.2)) ∧
  ∃ evs,
    trace (run MAX_NUM_FOV_PER_WELL confluency_test_method w).2 = trace w ++ evs ∧
    no_skip evs ∧
    ∀ c e,
      (c, Raised e) ∈ evs →
      (run MAX_NUM_FOV_PER_WELL confluency_test_method w).1 = Raise e ∧
      last evs = Some (c, Raised e).
Proof.
  intros Hparse. split; [| split].
  - intros Hin n. erewrite repeated_calls_fixed; [done |].
    apply fullFocus_always_fail.
    unfold Mock.getPosition, Mock.set_position_ind. rewrite Hparse. simpl.
    by apply bool_decide_eq_true_2.
  - intros Hout n. cbv zeta.
    rewrite (getPosition_with_wells _ _ _ _ _ Hparse Hout).
    apply repeated_fullFocus_with_wells.
  - destruct (run_added MAX_NUM_FOV_PER_WELL confluency_test_method w)
      as (evs & Ht & Hl & Hs).
    exists evs. split; [exact Ht | split; [exact Hs |]].
    intros c e Hin. exact (well_logged_raised _ _ _ _ Hl Hin).
Qed.

Lemma always_fail_wells_are_not_skipped_witness :
  parse_hcs_site_label "B2-Site_0" = Ret ("B2", 0) ∧
  (repeated_calls Mock.fullFocus 3
     (Mock.getPosition 13 "B2-Site_0" (device always_fail_in_B2)).2).1 =
    replicate 3 (Raise Py4JJavaError) ∧
  ∃ evs,
    trace (@run _ Mock.microscope (Mock.operations Mock.Propagate example_exposure)
                1 confluency_test always_fail_in_B2).2 =
      trace always_fail_in_B2 ++ evs ∧
    no_skip evs ∧
    ∀ c e,
      (c, Raised e) ∈ evs →
      (@run _ Mock.microscope (Mock.operations Mock.Propagate example_exposure)
            1 confluency_test always_fail_in_B2).1 = Raise e ∧
      last evs = Some (c, Raised e).
Proof.
  assert (Hparse : parse_hcs_site_label "B2-Site_0" = Ret ("B2", 0)) by (by vm_compute).
  split; [exact Hparse |].
  destruct (always_fail_wells_are_not_skipped
              (Operations0 := Mock.operations Mock.Propagate example_exposure)
              1 confluency_test always_fail_in_B2
              13 "B2-Site_0" "B2" 0 (device always_fail_in_B2) Hparse)
    as (Hin & _ & Hrun).
  split; [| exact Hrun].
  apply Hin. simpl. apply list_elem_of_here.
Defined.
